(** * Playwriter relay: cookie rewrite, extension status and persistent lifecycle

  A shallow embedding of the TypeScript of the playwriter relay as it is
  written in [tasks/cdp-cookie-workaround.md], [specs/features.md],
  [tasks/persistent-relay.md] and [playwriter/src/errors.ts], followed by
  the properties of that code. *)

From Stdlib Require Import String Ascii List ZArith Lia Bool DecimalString
  DecimalPos DecimalZ.
Import ListNotations.
Set Warnings "-register-all".
Local Open Scope string_scope.
Local Open Scope Z_scope.

(* ===================================================================== *)
(** * Part I. Definitions *)
(* ===================================================================== *)

(** ** JavaScript values *)

Module JS.

(** The values that travel through the router: JSON, plus [undefined]
    for an absent property or an absent reply. Numbers are the integers
    (ports, counts and ids are). *)
Inductive JSValue : Type :=
| JUndefined
| JNull
| JBool (b : bool)
| JNumber (n : Z)
| JString (s : string)
| JArray (items : list JSValue)
| JObject (fields : list (string * JSValue)).

(** ToBoolean. *)
Definition truthy (v : JSValue) : bool :=
  match v with
  | JUndefined | JNull => false
  | JBool b => b
  | JNumber n => negb (n =? 0)
  | JString s => negb (s =? EmptyString)%string
  | JArray _ | JObject _ => true
  end.

(** [a || b]. *)
Definition or_else (a b : JSValue) : JSValue := if truthy a then a else b.

Fixpoint assoc (k : string) (fields : list (string * JSValue)) : JSValue :=
  match fields with
  | [] => JUndefined
  | (k', v) :: rest => if (k =? k')%string then v else assoc k rest
  end.

(** [v.k] when [v] is neither [null] nor [undefined]: an own property of
    an object, [undefined] on anything else (none of the keys read by the
    router is a built-in property of a string, a number or an array). *)
Definition member (v : JSValue) (k : string) : JSValue :=
  match v with
  | JObject fields => assoc k fields
  | _ => JUndefined
  end.

Definition nullish (v : JSValue) : bool :=
  match v with
  | JUndefined | JNull => true
  | _ => false
  end.

(** A [string | undefined] as TypeScript types it. *)
Definition truthy_string (s : option string) : bool :=
  match s with
  | Some s => negb (s =? EmptyString)%string
  | None => false
  end.

(** [a || b] on [string | undefined]. *)
Definition or_else_string (a b : option string) : option string :=
  if truthy_string a then a else b.

(** [String.prototype.includes]. *)
Definition includes (s needle : string) : bool :=
  match index 0 needle s with
  | Some _ => true
  | None => false
  end.

Definition lower_ascii (c : ascii) : ascii :=
  let n := nat_of_ascii c in
  if ((65 <=? n) && (n <=? 90))%nat then ascii_of_nat (n + 32) else c.

(** [String.prototype.toLowerCase] on ASCII text. *)
Fixpoint toLowerCase (s : string) : string :=
  match s with
  | EmptyString => EmptyString
  | String c rest => String (lower_ascii c) (toLowerCase rest)
  end.

(** [`${n}`] for an integer. *)
Definition number_to_string (n : Z) : string :=
  NilZero.string_of_int (Z.to_int n).

(** What the code throws or a promise rejects with. *)
Inductive Exn : Type :=
| Error_ (message : string)                 (* [new Error(message)] *)
| TypeError_                                (* raised by the runtime *)
| CdpError (code : Z) (message : string).   (* an error reply of the peer *)

(** How a call ends: with a value, or with what was thrown. *)
Inductive Outcome (E A : Type) : Type :=
| Return (a : A)
| Throw (e : E).
Arguments Return {E A} a.
Arguments Throw {E A} e.

(** A JavaScript [Map]: entries in insertion order, one per key. *)
Definition Map (V : Type) : Type := list (string * V).

Definition Map_values {V} (m : Map V) : list V := List.map snd m.
Definition Map_size {V} (m : Map V) : Z := Z.of_nat (List.length m).

Fixpoint Map_has {V} (m : Map V) (k : string) : bool :=
  match m with
  | [] => false
  | (k', _) :: rest => (k =? k')%string || Map_has rest k
  end.

(** [m.set(k, v)]: a known key keeps its place, a new one goes last. *)
Fixpoint Map_set {V} (m : Map V) (k : string) (v : V) : Map V :=
  match m with
  | [] => [(k, v)]
  | (k', v') :: rest =>
      if (k =? k')%string then (k, v) :: rest else (k', v') :: Map_set rest k v
  end.

Fixpoint Map_delete {V} (m : Map V) (k : string) : Map V :=
  match m with
  | [] => []
  | (k', v') :: rest =>
      if (k =? k')%string then rest else (k', v') :: Map_delete rest k
  end.

(** [m.values().next().value]. *)
Definition Map_first_value {V} (m : Map V) : option V :=
  match Map_values m with
  | [] => None
  | v :: _ => Some v
  end.

End JS.
Import JS.

(** ** The relay server ([playwriter/src/cdp-relay.ts]) *)

Module CdpRelay.

Record TargetInfo : Type := {
  ti_url : string;
  ti_title : string;
}.

(** A value of [connectedTargets]. *)
Record ConnectedTarget : Type := {
  sessionId : string;
  targetId : string;
  targetInfo : TargetInfo;
}.

(** The payload of [sendToExtension({ method: 'forwardCDPCommand',
    params: { sessionId, method, params } })]. *)
Record ForwardParams : Type := {
  fw_sessionId : string;
  fw_method : string;
  fw_params : JSValue;
}.

Record ExtensionMessage : Type := {
  msg_method : string;
  msg_params : ForwardParams;
}.

Definition forwardCDPCommand (sid method : string) (params : JSValue)
  : ExtensionMessage :=
  {| msg_method := "forwardCDPCommand";
     msg_params := {| fw_sessionId := sid; fw_method := method;
                      fw_params := params |} |}.

(** The promise [sendToExtension] returns settles one way or the other. *)
Inductive Reply : Type :=
| Resolved (result : JSValue)
| Rejected (reason : Exn).

(** The extension, seen from the router: its answer to a message may
    depend on every message it was sent before. *)
Definition Extension : Type :=
  list ExtensionMessage -> ExtensionMessage -> Reply.

(** An [async] body of the router: it reads and extends the list of
    messages handed to [sendToExtension], and returns or throws. *)
Definition Relay (A : Type) : Type :=
  list ExtensionMessage -> Outcome Exn A * list ExtensionMessage.

Definition ret {A} (a : A) : Relay A := fun sent => (Return a, sent).
Definition throw {A} (e : Exn) : Relay A := fun sent => (Throw e, sent).
Definition bind {A B} (m : Relay A) (k : A -> Relay B) : Relay B :=
  fun sent =>
    match m sent with
    | (Return a, sent') => k a sent'
    | (Throw e, sent') => (Throw e, sent')
    end.

Declare Scope relay_scope.
Delimit Scope relay_scope with relay.
Notation "'let*' x := m 'in' k" := (bind m (fun x => k))
  (at level 10, x name, m at level 100, k at level 200) : relay_scope.
Notation "'await' m ;; k" := (bind m (fun _ => k))
  (at level 10, m at level 100, k at level 200) : relay_scope.
Local Open Scope relay_scope.

(** [v.k], which throws on [null] and [undefined]. *)
Definition get_member (v : JSValue) (k : string) : Relay JSValue :=
  if nullish v then throw TypeError_ else ret (member v k).

(** [v?.k]. *)
Definition get_member_opt (v : JSValue) (k : string) : JSValue :=
  if nullish v then JUndefined else member v k.

Definition chars (s : string) : list JSValue :=
  List.map (fun c => JString (String c EmptyString)) (list_ascii_of_string s).

(** The values [for (const x of v)] visits: the items of an array, the
    characters of a string; anything else is not iterable. *)
Definition iterate (v : JSValue) : Relay (list JSValue) :=
  match v with
  | JArray items => ret items
  | JString s => ret (chars s)
  | _ => throw TypeError_
  end.

Definition NO_PAGES : string :=
  "No pages available for cookie operation. Click the playwriter extension icon on a tab first.".

Section Router.

Variable extension : Extension.
Variable connectedTargets : Map ConnectedTarget.

(** What the cases before the cookie cases and the default case do;
    they are not part of the cookie workaround. *)
Variable existingCases : string -> JSValue -> option string -> Relay JSValue.

Definition sendToExtension (message : ExtensionMessage) : Relay JSValue :=
  fun sent =>
    (match extension sent message with
     | Resolved result => Return result
     | Rejected reason => Throw reason
     end, (sent ++ [message])%list).

(** [tasks/cdp-cookie-workaround.md], Task 1. *)
Definition getAnyActiveSessionId : option string :=
  match Map_first_value connectedTargets with
  | Some firstTarget => Some (sessionId firstTarget)
  | None => None
  end.

(** [const targetSessionId = sessionId || getAnyActiveSessionId()]
    followed by [if (!targetSessionId) throw new Error(...)]. *)
Definition targetSessionIdOf (sid : option string) : Relay string :=
  match or_else_string sid getAnyActiveSessionId with
  | Some targetSessionId =>
      if truthy_string (Some targetSessionId) then ret targetSessionId
      else throw (Error_ NO_PAGES)
  | None => throw (Error_ NO_PAGES)
  end.

(** The parameters of one [Network.deleteCookies]. *)
Definition deleteCookiesParams (name domain path : JSValue) : JSValue :=
  JObject [("name", name); ("domain", domain); ("path", path)].

(** The body of [for (const cookie of cookies) { await sendToExtension(...) }]. *)
Definition deleteCookie (targetSessionId : string) (cookie : JSValue)
  : Relay unit :=
  let* name := get_member cookie "name" in
  let* domain := get_member cookie "domain" in
  let* path := get_member cookie "path" in
  await sendToExtension
    (forwardCDPCommand targetSessionId "Network.deleteCookies"
       (deleteCookiesParams name domain path)) ;;
  ret tt.

Fixpoint deleteEach (targetSessionId : string) (cookies : list JSValue)
  : Relay unit :=
  match cookies with
  | [] => ret tt
  | cookie :: rest =>
      await deleteCookie targetSessionId cookie ;;
      deleteEach targetSessionId rest
  end.

(** [case 'Storage.getCookies'] (Task 2). *)
Definition storageGetCookies (sid : option string) : Relay JSValue :=
  let* targetSessionId := targetSessionIdOf sid in
  sendToExtension
    (forwardCDPCommand targetSessionId "Network.getCookies" (JObject [])).

(** [case 'Storage.setCookies'] (Task 3). *)
Definition storageSetCookies (params : JSValue) (sid : option string)
  : Relay JSValue :=
  let* targetSessionId := targetSessionIdOf sid in
  sendToExtension
    (forwardCDPCommand targetSessionId "Network.setCookies"
       (JObject [("cookies",
                  or_else (get_member_opt params "cookies") (JArray []))])).

(** [case 'Storage.clearCookies'] (Task 4). *)
Definition storageClearCookies (sid : option string) : Relay JSValue :=
  let* targetSessionId := targetSessionIdOf sid in
  let* result :=
    sendToExtension
      (forwardCDPCommand targetSessionId "Network.getCookies" (JObject [])) in
  let cookies := or_else (get_member_opt result "cookies") (JArray []) in
  let* items := iterate cookies in
  await deleteEach targetSessionId items ;;
  ret (JObject []).

(** The [switch (method)] of [routeCdpCommand]. *)
Definition routeCdpCommand (method : string) (params : JSValue)
           (sid : option string) : Relay JSValue :=
  if (method =? "Storage.getCookies")%string then storageGetCookies sid
  else if (method =? "Storage.setCookies")%string then storageSetCookies params sid
  else if (method =? "Storage.clearCookies")%string then storageClearCookies sid
  else existingCases method params sid.

End Router.

End CdpRelay.

(** ** The design of [specs/features.md]

    The same three cases as the specification document sketches them:
    the session is resolved by [getAnyActiveSession], which throws by
    itself. *)

Module FeaturesDesign.
Import CdpRelay.
Local Open Scope relay_scope.

(** The socket of the extension, [WSContext]. *)
Inductive WSContext : Type := WS (id : nat).

Definition NO_PAGES : string :=
  "No pages available for cookie operation. " ++
  "Click the playwriter extension icon on a Chrome tab first.".

Section Router.

Variable extension : Extension.
Variable extensionWs : option WSContext.
Variable activeSessions : list string.

Definition sendToExtension : ExtensionMessage -> Relay JSValue :=
  CdpRelay.sendToExtension extension.

Definition getAnyActiveSession : Relay string :=
  match extensionWs, activeSessions with
  | Some _, first :: _ => ret first
  | _, _ => throw (Error_ NO_PAGES)
  end.

(** [sessionId || await getAnyActiveSession()]. *)
Definition sessionOr (sid : option string) : Relay string :=
  match sid with
  | Some s => if truthy_string (Some s) then ret s else getAnyActiveSession
  | None => getAnyActiveSession
  end.

Definition deleteCookie (targetSession : string) (cookie : JSValue)
  : Relay unit :=
  let* name := get_member cookie "name" in
  let* domain := get_member cookie "domain" in
  let* path := get_member cookie "path" in
  await sendToExtension
    (forwardCDPCommand targetSession "Network.deleteCookies"
       (JObject [("name", name); ("domain", domain); ("path", path)])) ;;
  ret tt.

Fixpoint deleteEach (targetSession : string) (cookies : list JSValue)
  : Relay unit :=
  match cookies with
  | [] => ret tt
  | cookie :: rest =>
      await deleteCookie targetSession cookie ;;
      deleteEach targetSession rest
  end.

Definition storageGetCookies (sid : option string) : Relay JSValue :=
  let* session := sessionOr sid in
  sendToExtension (forwardCDPCommand session "Network.getCookies" (JObject [])).

Definition storageSetCookies (params : JSValue) (sid : option string)
  : Relay JSValue :=
  let* session := sessionOr sid in
  let* cookies := get_member params "cookies" in
  sendToExtension
    (forwardCDPCommand session "Network.setCookies"
       (JObject [("cookies", cookies)])).

Definition storageClearCookies (sid : option string) : Relay JSValue :=
  let* targetSession := sessionOr sid in
  let* result :=
    sendToExtension
      (forwardCDPCommand targetSession "Network.getCookies" (JObject [])) in
  let* cookies := get_member result "cookies" in
  let* items := iterate (or_else cookies (JArray [])) in
  await deleteEach targetSession items ;;
  ret (JObject []).

End Router.

End FeaturesDesign.

(** ** The client link *)

Module ClientLink.
Import CdpRelay.

(** A command frame [{id, method, params?, sessionId?}]. *)
Record CommandFrame : Type := {
  cmd_id : Z;
  cmd_method : string;
  cmd_params : JSValue;
  cmd_sessionId : option string;
}.

(** A response frame, [{id, result}] or [{id, error: {code, message}}]. *)
Inductive ResponseFrame : Type :=
| ResultFrame (id : Z) (result : JSValue)
| ErrorFrame (id : Z) (code : Z) (message : string).

(** Modelled from the spec: the reply framing of the client link, which is
    not among the sources. A result goes back under the id of the command
    (section 4.3, "the response id is rewritten back to the client's
    original value"); an [Error] the router itself throws is the no-session
    kind and carries code -32000, an error reply of the extension keeps its
    own code (section 7, "first underlying error"). The spec names no code
    for a runtime [TypeError]; no frame is given for it. *)
Definition replyFrame (id : Z) (outcome : Outcome Exn JSValue)
  : option ResponseFrame :=
  match outcome with
  | Return result => Some (ResultFrame id result)
  | Throw (Error_ message) => Some (ErrorFrame id (-32000) message)
  | Throw (CdpError code message) => Some (ErrorFrame id code message)
  | Throw TypeError_ => None
  end.

(** Modelled from the spec: a client command is routed and its outcome
    framed for the client that sent it. *)
Definition handleCommand (extension : Extension)
           (connectedTargets : Map ConnectedTarget)
           (existingCases : string -> JSValue -> option string -> Relay JSValue)
           (frame : CommandFrame) (sent : list ExtensionMessage)
  : option ResponseFrame * list ExtensionMessage :=
  let '(outcome, sent') :=
    routeCdpCommand extension connectedTargets existingCases
      (cmd_method frame) (cmd_params frame) (cmd_sessionId frame) sent in
  (replyFrame (cmd_id frame) outcome, sent').

End ClientLink.

(** ** [GET /extension-status] *)

Module ExtensionStatus.
Import CdpRelay.
Import FeaturesDesign.

Record Page : Type := {
  page_targetId : string;
  page_url : string;
  page_title : string;
}.

(** [interface ExtensionStatus]. *)
Record ExtensionStatus : Type := {
  connected : bool;
  pageCount : Z;
  pages : list Page;
}.

(** The handler of [app.get('/extension-status', ...)]: the object handed
    to [c.json]. *)
Definition extensionStatus (extensionWs : option WSContext)
           (connectedTargets : Map ConnectedTarget) : ExtensionStatus :=
  let pages :=
    List.map (fun t => {| page_targetId := targetId t;
                          page_url := ti_url (targetInfo t);
                          page_title := ti_title (targetInfo t) |})
             (Map_values connectedTargets) in
  {| connected := match extensionWs with Some _ => true | None => false end;
     pageCount := Map_size connectedTargets;
     pages := pages |}.









End ExtensionStatus.

(** ** Error classes ([playwriter/src/errors.ts]) *)

Module Errors.

Record RelayServerError : Type := {
  name : string;
  message : string;
  port : Z;
}.

(** [constructor(message, port)] of the base class. *)
Definition newRelayServerError (msg : string) (p : Z) : RelayServerError :=
  {| name := "RelayServerError";
     message := "[Playwriter] " ++ msg ++ " (port " ++ number_to_string p ++ ")";
     port := p |}.

(** [this.name = n] after [super(...)]. *)
Definition named (n : string) (e : RelayServerError) : RelayServerError :=
  {| name := n; message := message e; port := port e |}.

Definition ExtensionNotConnectedError (p : Z) : RelayServerError :=
  named "ExtensionNotConnectedError"
    (newRelayServerError
       "Extension not connected. Please click the Playwriter extension icon on a Chrome tab."
       p).

Definition RelayServerStartError (LOG_FILE_PATH : string) (p : Z)
  : RelayServerError :=
  named "RelayServerStartError"
    (newRelayServerError
       ("Failed to start relay server. Check logs at: " ++ LOG_FILE_PATH) p).

End Errors.

(** ** Version strings *)

Module Version.

(** [s.split('.')]. *)
Fixpoint split (s : string) : list string :=
  match s with
  | EmptyString => [EmptyString]
  | String c rest =>
      if Ascii.eqb c "."%char then EmptyString :: split rest
      else match split rest with
           | [] => [String c EmptyString]
           | first :: others => String c first :: others
           end
  end.

Definition digit (c : ascii) : option Z :=
  let n := nat_of_ascii c in
  if ((48 <=? n) && (n <=? 57))%nat then Some (Z.of_nat (n - 48)) else None.

Fixpoint decimal (acc : Z) (s : string) : option Z :=
  match s with
  | EmptyString => Some acc
  | String c rest =>
      match digit c with
      | Some d => decimal (10 * acc + d) rest
      | None => None
      end
  end.

(** A JavaScript number as [compareVersions] meets it. *)
Inductive JSNumber : Type :=
| NaN
| Num (n : Z).

(** [Number(s)] on a component of a version: a run of decimal digits is
    its value, the empty string is 0. The value is exact up to
    [MAX_SAFE_INTEGER]; the other numeric literals of JavaScript (signs,
    exponents, radix prefixes, white space) do not occur in a version and
    are read as [NaN] here. *)
Definition Number (s : string) : JSNumber :=
  match decimal 0 s with
  | Some n => Num n
  | None => NaN
  end.

Definition MAX_SAFE_INTEGER : Z := 2 ^ 53 - 1.

(** [parts[i] || 0]: [undefined] past the end, [NaN] and 0 all give 0. *)
Definition partAt (parts : list JSNumber) (i : nat) : Z :=
  match nth_error parts i with
  | Some (Num n) => n
  | Some NaN | None => 0
  end.

(** [for (let i = 0; i < len; i++) { ... }] with [remaining = len - i]. *)
Fixpoint compareFrom (parts1 parts2 : list JSNumber) (i remaining : nat) : Z :=
  match remaining with
  | O => 0
  | S remaining' =>
      let p1 := partAt parts1 i in
      let p2 := partAt parts2 i in
      if negb (p1 =? p2) then p1 - p2
      else compareFrom parts1 parts2 (S i) remaining'
  end.

Definition compareVersions (v1 v2 : string) : Z :=
  let parts1 := List.map Number (split v1) in
  let parts2 := List.map Number (split v2) in
  let len := Nat.max (List.length parts1) (List.length parts2) in
  compareFrom parts1 parts2 0 len.

(** *** The order of versions, as one states it *)

Definition isDigits (s : string) : bool :=
  negb (s =? EmptyString)%string &&
  match decimal 0 s with
  | Some n => n <=? MAX_SAFE_INTEGER
  | None => false
  end.

(** A numeric version string: decimal components separated by dots. *)
Definition numericVersion (v : string) : bool :=
  forallb isDigits (split v).

Definition componentValue (s : string) : Z :=
  match decimal 0 s with
  | Some n => n
  | None => 0
  end.

Definition components (v : string) : list Z :=
  List.map componentValue (split v).

Definition padTo (n : nat) (l : list Z) : list Z :=
  (l ++ repeat 0 (n - List.length l))%list.

Fixpoint lexCompare (a b : list Z) : comparison :=
  match a, b with
  | x :: a', y :: b' =>
      match x ?= y with
      | Eq => lexCompare a' b'
      | c => c
      end
  | _, _ => Eq
  end.

(** Component by component from the left, a missing component counting as
    zero. *)
Definition versionCompare (a b : list Z) : comparison :=
  let n := Nat.max (List.length a) (List.length b) in
  lexCompare (padTo n a) (padTo n b).


End Version.

(** ** The lifecycle supervisor ([playwriter/src/persistent-relay.ts]) *)

Module PersistentRelay.
Import Errors.
Import Version.
Import ExtensionStatus.

(** What [fetch] resolves with: [response.ok], and the body as
    [response.json()] types it ([None]: the body is not JSON and
    [json()] throws). *)
Record Response (A : Type) : Type := {
  ok : bool;
  json : option A;
}.
Arguments ok {A} r.
Arguments json {A} r.

(** The machine the supervisor runs on: what the [n]-th [fetch] meets
    ([None]: the promise rejects, on a refused connection or when the
    deadline aborts it) and how long it takes, whether [killPortProcess]
    throws, and the process environment. The bodies are read as the
    casts of the source type them, [as { version: string }] and
    [as ExtensionStatus]: a relay of this repository answers so. A
    [/version] body of any other shape is the matter of [Unchecked]. *)
Record Host : Type := {
  versionReply : nat -> option (Response string);
  statusReply : nat -> option (Response ExtensionStatus);
  latency : nat -> N;
  killPortProcessThrows : bool;
  development : bool;
  execPath : string;
}.

Inductive Effect : Type :=
| Fetch (url : string) (deadline : Z)
| Sleep (ms : Z)
| KillPortProcess (p : Z)
| Spawn (command script : string) (detached : bool) (stdio : string)
| Unref.

(** The clock [Date.now()] reads, the number of fetches made, and what
    was done so far. *)
Record World : Type := {
  now : Z;
  fetches : nat;
  effects : list Effect;
}.

Definition DEFAULT_PORT : Z := 19988.
Definition DEFAULT_TIMEOUT : Z := 10000.

(** [options?.x ?? d]. *)
Definition optionOr {O A} (options : option O) (get : O -> option A) (d : A) : A :=
  match options with
  | Some o => match get o with Some a => a | None => d end
  | None => d
  end.

Record Options : Type := {
  opt_port : option Z;
  opt_timeout : option Z;
  opt_pollInterval : option Z;
}.

Record EnsurePersistentRelayResult : Type := {
  started : bool;
  version : string;
  result_port : Z;
}.

Record WaitForExtensionResult : Type := {
  wait_connected : bool;
  wait_pageCount : Z;
}.

(** [await sleep(ms)]. *)
Definition sleep (ms : Z) (w : World) : World :=
  {| now := now w + Z.max 0 ms;
     fetches := fetches w;
     effects := (effects w ++ [Sleep ms])%list |}.

Definition act (e : Effect) (w : World) : World :=
  {| now := now w; fetches := fetches w; effects := (effects w ++ [e])%list |}.

Section Supervisor.

Variable VERSION : string.
Variable LOG_FILE_PATH : string.
Variable host : Host.

(** [await fetch(url, { signal: AbortSignal.timeout(deadline) })]. *)
Definition fetch {A} (reply : Host -> nat -> option (Response A))
           (url : string) (deadline : Z) (w : World)
  : option (Response A) * World :=
  (reply host (fetches w),
   {| now := now w + Z.of_N (latency host (fetches w));
      fetches := S (fetches w);
      effects := (effects w ++ [Fetch url deadline])%list |}).

Definition versionUrl (p : Z) : string :=
  "http://127.0.0.1:" ++ number_to_string p ++ "/version".

Definition statusUrl (p : Z) : string :=
  "http://127.0.0.1:" ++ number_to_string p ++ "/extension-status".

(** [getServerVersion] on a body that has the type it is cast to: the
    version, or [None] for [null]. [Unchecked.getServerVersion] is the
    function on any body. *)
Definition getServerVersion (p : Z) (w : World) : option string * World :=
  let '(response, w') := fetch versionReply (versionUrl p) 500 w in
  match response with
  | Some r => if negb (ok r) then (None, w') else (json r, w')
  | None => (None, w')
  end.

(** The [while (Date.now() - startTime < timeout)] of
    [ensurePersistentRelay]; [None] when the iterations allowed are used
    up. *)
Fixpoint pollVersion (fuel : nat) (p timeout startTime : Z) (w : World)
  : option (Outcome RelayServerError EnsurePersistentRelayResult) * World :=
  if now w - startTime <? timeout then
    match fuel with
    | O => (None, w)
    | S fuel' =>
        let w1 := sleep 500 w in
        let '(v, w2) := getServerVersion p w1 in
        match v with
        | Some s =>
            if (s =? VERSION)%string
            then (Some (Return {| started := true; version := s;
                                  result_port := p |}), w2)
            else pollVersion fuel' p timeout startTime w2
        | None => pollVersion fuel' p timeout startTime w2
        end
    end
  else (Some (Throw (RelayServerStartError LOG_FILE_PATH p)), w).

(** [try { await killPortProcess(port); await sleep(500) } catch {}]. *)
Definition killOldVersion (p : Z) (w : World) : World :=
  let w1 := act (KillPortProcess p) w in
  if killPortProcessThrows host then w1 else sleep 500 w1.

(** [spawn(dev ? 'tsx' : process.execPath, [scriptPath], { detached: true,
    stdio: 'ignore', env })] and [serverProcess.unref()]. *)
Definition spawnServer (w : World) : World :=
  let command := if development host then "tsx" else execPath host in
  let scriptPath :=
    if development host then "./start-relay-server.ts"
    else "./start-relay-server.js" in
  act Unref (act (Spawn command scriptPath true "ignore") w).

(** Every turn of the loop sleeps 500 ms, so this many turns exhaust any
    timeout. *)
Definition pollBound (timeout : Z) : nat := S (Z.to_nat (timeout / 500)).

Definition ensurePersistentRelay (options : option Options) (w : World)
  : option (Outcome RelayServerError EnsurePersistentRelayResult) * World :=
  let p := optionOr options opt_port DEFAULT_PORT in
  let timeout := optionOr options opt_timeout DEFAULT_TIMEOUT in
  let '(existingVersion, w1) := getServerVersion p w in
  match existingVersion with
  | Some existing =>
      if 0 <=? compareVersions existing VERSION
      then (Some (Return {| started := false; version := existing;
                            result_port := p |}), w1)
      else
        let w2 := killOldVersion p w1 in
        let w3 := spawnServer w2 in
        pollVersion (pollBound timeout) p timeout (now w3) w3
  | None =>
      let w3 := spawnServer w1 in
      pollVersion (pollBound timeout) p timeout (now w3) w3
  end.

(** [status.connected && status.pageCount > 0]. *)
Definition ready (status : ExtensionStatus) : bool :=
  connected status && (0 <? pageCount status).

(** What one turn of the loop of [waitForExtension] learns: the status
    when the response is ok and parses, nothing when the [try] block
    throws or the response is not ok. *)
Definition pollStatus (p : Z) (w : World) : option ExtensionStatus * World :=
  let '(response, w') := fetch statusReply (statusUrl p) 1000 w in
  match response with
  | Some r => if ok r then (json r, w') else (None, w')
  | None => (None, w')
  end.

Fixpoint pollExtension (fuel : nat) (p timeout pollInterval startTime : Z)
         (w : World)
  : option (Outcome RelayServerError WaitForExtensionResult) * World :=
  if now w - startTime <? timeout then
    match fuel with
    | O => (None, w)
    | S fuel' =>
        let '(status, w1) := pollStatus p w in
        match status with
        | Some st =>
            if ready st
            then (Some (Return {| wait_connected := true;
                                  wait_pageCount := pageCount st |}), w1)
            else pollExtension fuel' p timeout pollInterval startTime
                   (sleep pollInterval w1)
        | None =>
            pollExtension fuel' p timeout pollInterval startTime
              (sleep pollInterval w1)
        end
    end
  else (Some (Throw (ExtensionNotConnectedError p)), w).

(** Every turn sleeps [pollInterval] ms; with a positive interval this
    many turns exhaust the timeout. *)
Definition waitBound (timeout pollInterval : Z) : nat :=
  S (Z.to_nat (timeout / pollInterval)).

Definition waitForExtension (options : option Options) (w : World)
  : option (Outcome RelayServerError WaitForExtensionResult) * World :=
  let p := optionOr options opt_port DEFAULT_PORT in
  let timeout := optionOr options opt_timeout 30000 in
  let pollInterval := optionOr options opt_pollInterval 500 in
  pollExtension (waitBound timeout pollInterval) p timeout pollInterval (now w) w.

End Supervisor.

End PersistentRelay.

(** ** Notions the properties are stated with *)

Module Notions.
Import CdpRelay.

(** The session a cookie command runs on when one is available: the
    outcome of [sessionId || getAnyActiveSessionId()] when it is truthy. *)
Definition availableSession (connectedTargets : Map ConnectedTarget)
           (sid : option string) : option string :=
  let chosen := or_else_string sid (getAnyActiveSessionId connectedTargets) in
  if truthy_string chosen then chosen else None.

(** The same for the design of [specs/features.md]. *)
Definition availableSessionF (extensionWs : option FeaturesDesign.WSContext)
           (activeSessions : list string) (sid : option string)
  : option string :=
  if truthy_string sid then sid
  else match extensionWs, activeSessions with
       | Some _, first :: _ => Some first
       | _, _ => None
       end.

Definition isObject (v : JSValue) : bool :=
  match v with
  | JObject _ => true
  | _ => false
  end.

(** The cookie list of a reply that has the type the router casts it to,
    [{ cookies?: Array<{ name, domain, path }> }]. *)
Definition returnedCookies (result : JSValue) : option (list JSValue) :=
  match result with
  | JObject fields =>
      match assoc "cookies" fields with
      | JUndefined => Some []
      | JArray items => if forallb isObject items then Some items else None
      | _ => None
      end
  | _ => None
  end.

Definition getCookiesMessage (session : string) : ExtensionMessage :=
  forwardCDPCommand session "Network.getCookies" (JObject []).

(** The [Network.deleteCookies] of one cookie: its name, domain and path. *)
Definition deleteMessage (session : string) (cookie : JSValue)
  : ExtensionMessage :=
  forwardCDPCommand session "Network.deleteCookies"
    (JObject [("name", member cookie "name");
              ("domain", member cookie "domain");
              ("path", member cookie "path")]).

Definition deleteMessages (session : string) (cookies : list JSValue)
  : list ExtensionMessage :=
  List.map (deleteMessage session) cookies.

Definition resolves (r : Reply) : bool :=
  match r with
  | Resolved _ => true
  | Rejected _ => false
  end.

(** The extension resolves each of [messages], sent in this order after
    [sent]. *)
Fixpoint allResolve (extension : Extension) (sent messages : list ExtensionMessage)
  : bool :=
  match messages with
  | [] => true
  | m :: rest =>
      resolves (extension sent m) && allResolve extension (sent ++ [m])%list rest
  end.

(** A request carries a field of a cookie when it has it, with the value
    the cookie has. *)
Definition carries (message : ExtensionMessage) (cookie : JSValue)
           (field : string) : Prop :=
  member cookie field <> JUndefined ->
  member (fw_params (msg_params message)) field = member cookie field.

(** A target has an open session when it carries the id of one: the
    session id the browser assigned when the target was attached, a string
    that is not empty. *)
Definition hasOpenSession (t : ConnectedTarget) : bool :=
  negb (sessionId t =? EmptyString)%string.

(** The registry as the relay keeps it: every target is stored with the
    session it was attached on. *)
Definition sessionsBound (connectedTargets : Map ConnectedTarget) : bool :=
  forallb hasOpenSession (Map_values connectedTargets).

(** The earliest-attached target with an open session: the registry
    iterates in attachment order. *)
Definition earliestOpenSession (connectedTargets : Map ConnectedTarget)
  : option string :=
  option_map sessionId (find hasOpenSession (Map_values connectedTargets)).

(** The request is sent on [session]. *)
Definition onSession (session : string) (m : ExtensionMessage) : Prop :=
  fw_sessionId (msg_params m) = session.

Definition cookieMethod (method : string) : bool :=
  (method =? "Storage.getCookies")%string ||
  (method =? "Storage.setCookies")%string ||
  (method =? "Storage.clearCookies")%string.

End Notions.

(** ** Concrete relays *)

Module Examples.
Import CdpRelay.

Definition page1 : ConnectedTarget :=
  {| sessionId := "S1"; targetId := "T1";
     targetInfo := {| ti_url := "https://example.com/";
                      ti_title := "Example Domain" |} |}.

Definition page2 : ConnectedTarget :=
  {| sessionId := "S2"; targetId := "T2";
     targetInfo := {| ti_url := "https://google.com/"; ti_title := "Google" |} |}.

Definition onePage : Map ConnectedTarget := [("S1", page1)].
Definition twoPages : Map ConnectedTarget := [("S1", page1); ("S2", page2)].

(** A partitioned cookie and a plain one. *)
Definition partitioned : JSValue :=
  JObject [("name", JString "s"); ("value", JString "1");
           ("domain", JString "example.com"); ("path", JString "/");
           ("partitionKey",
            JObject [("topLevelSite", JString "https://example.com");
                     ("hasCrossSiteAncestor", JBool false)])].

Definition plain : JSValue :=
  JObject [("name", JString "t"); ("value", JString "2");
           ("domain", JString "example.com"); ("path", JString "/")].

Definition isMethod (m : ExtensionMessage) (method : string) : bool :=
  (fw_method (msg_params m) =? method)%string.

(** An extension that answers [Network.getCookies] with [cookies] and
    everything else with an empty result. *)
Definition obliging (cookies : list JSValue) : Extension :=
  fun _ m =>
    if isMethod m "Network.getCookies"
    then Resolved (JObject [("cookies", JArray cookies)])
    else Resolved (JObject []).

(** The same, except that the deletion of the cookie named [name] is
    rejected. *)
Definition refusing (cookies : list JSValue) (name : string) : Extension :=
  fun _ m =>
    if isMethod m "Network.getCookies"
    then Resolved (JObject [("cookies", JArray cookies)])
    else
      match member (fw_params (msg_params m)) "name" with
      | JString n =>
          if isMethod m "Network.deleteCookies" && (n =? name)%string
          then Rejected (CdpError (-32000) "Cookie could not be deleted")
          else Resolved (JObject [])
      | _ => Resolved (JObject [])
      end.

(** No other case of the router is exercised. *)
Definition noOtherCase : string -> JSValue -> option string -> Relay JSValue :=
  fun _ _ _ => throw (Error_ "not a cookie command").

End Examples.

(** ** Notions for the supervisor *)

Module SupervisorNotions.
Import PersistentRelay ExtensionStatus.

(** What the [n]-th fetch tells [getServerVersion]: the version served,
    or nothing. *)
Definition versionAt (host : Host) (n : nat) : option string :=
  match versionReply host n with
  | Some r => if ok r then json r else None
  | None => None
  end.

(** What the [n]-th fetch tells [waitForExtension]. *)
Definition statusAt (host : Host) (n : nat) : option ExtensionStatus :=
  match statusReply host n with
  | Some r => if ok r then json r else None
  | None => None
  end.

Definition readyAt (host : Host) (n : nat) : bool :=
  match statusAt host n with
  | Some st => ready st
  | None => false
  end.

Definition portOf (options : option Options) : Z :=
  optionOr options opt_port DEFAULT_PORT.

Definition startTimeoutOf (options : option Options) : Z :=
  optionOr options opt_timeout DEFAULT_TIMEOUT.

Definition waitTimeoutOf (options : option Options) : Z :=
  optionOr options opt_timeout 30000.

Definition pollIntervalOf (options : option Options) : Z :=
  optionOr options opt_pollInterval 500.

(** [k] turns of the polling loop of [ensurePersistentRelay]. *)
Definition versionPolls (p : Z) (k : nat) : list Effect :=
  concat (repeat [Sleep 500; Fetch (versionUrl p) 500] k).

(** [k] turns of the loop of [waitForExtension] that do not return. *)
Definition statusPolls (p interval : Z) (k : nat) : list Effect :=
  concat (repeat [Fetch (statusUrl p) 1000; Sleep interval] k).

(** The world when the [k + 1]-th poll of [waitForExtension] starts: [k]
    times the status was fetched and the interval slept. *)
Fixpoint afterPolls (host : Host) (p interval : Z) (k : nat) (w : World)
  : World :=
  match k with
  | O => w
  | S k' =>
      afterPolls host p interval k' (sleep interval (snd (pollStatus host p w)))
  end.

(** What [ensurePersistentRelay] does between its first probe and the
    polling: the old version, if any, is killed, and the server spawned. *)
Definition startEffects (host : Host) (p : Z) (existing : option string)
  : list Effect :=
  (match existing with
   | Some _ =>
       KillPortProcess p
         :: (if killPortProcessThrows host then [] else [Sleep 500])
   | None => []
   end ++
   [Spawn (if development host then "tsx" else execPath host)
          (if development host then "./start-relay-server.ts"
           else "./start-relay-server.js")
          true "ignore";
    Unref])%list.

(** The version reported is the expected one, or strictly greater in the
    order of versions. *)
Definition equalOrGreater (reported expected : string) : Prop :=
  reported = expected \/
  (Version.numericVersion reported = true /\
   Version.numericVersion expected = true /\
   Version.versionCompare (Version.components reported)
     (Version.components expected) = Gt).

End SupervisorNotions.

(** ** Concrete hosts *)

Module Hosts.
Import PersistentRelay ExtensionStatus.

Definition okResponse {A} (a : A) : Response A :=
  {| ok := true; json := Some a |}.

(** Nothing listens on the port: every fetch is refused after 10 ms. *)
Definition silent : Host :=
  {| versionReply := fun _ => None;
     statusReply := fun _ => None;
     latency := fun _ => 10%N;
     killPortProcessThrows := false;
     development := false;
     execPath := "/usr/bin/node" |}.

(** A relay of version [v] is listening; no extension is connected. *)
Definition serving (v : string) : Host :=
  {| versionReply := fun _ => Some (okResponse v);
     statusReply := fun _ =>
       Some (okResponse {| connected := false; pageCount := 0; pages := [] |});
     latency := fun _ => 10%N;
     killPortProcessThrows := false;
     development := false;
     execPath := "/usr/bin/node" |}.

Definition onePageStatus : ExtensionStatus :=
  {| connected := true; pageCount := 1;
     pages := [{| page_targetId := "T1"; page_url := "https://example.com/";
                  page_title := "Example Domain" |}] |}.

(** The extension connects in time for the third status poll. *)
Definition connecting : Host :=
  {| versionReply := fun _ => Some (okResponse "0.0.47");
     statusReply := fun n =>
       if (n <? 2)%nat
       then Some (okResponse
                    {| connected := false; pageCount := 0; pages := [] |})
       else Some (okResponse onePageStatus);
     latency := fun _ => 10%N;
     killPortProcessThrows := false;
     development := false;
     execPath := "/usr/bin/node" |}.

(** A relay of version 0.0.46 is listening; once replaced, the new server
    answers with 0.0.47. *)
Definition upgraded : Host :=
  {| versionReply := fun n =>
       if (n =? 0)%nat then Some (okResponse "0.0.46")
       else Some (okResponse "0.0.47");
     statusReply := fun _ => None;
     latency := fun _ => 10%N;
     killPortProcessThrows := false;
     development := false;
     execPath := "/usr/bin/node" |}.

(** A relay whose [/extension-status] handler answers the [n]-th fetch
    from the state [state n] of the server: the extension socket and the
    registry of targets. *)
Definition relayOf
  (state : nat -> option FeaturesDesign.WSContext
                  * JS.Map CdpRelay.ConnectedTarget) : Host :=
  {| versionReply := fun _ => Some (okResponse "0.0.47");
     statusReply := fun n =>
       Some (okResponse (extensionStatus (fst (state n)) (snd (state n))));
     latency := fun _ => 10%N;
     killPortProcessThrows := false;
     development := false;
     execPath := "/usr/bin/node" |}.

Definition boot : World := {| now := 0; fetches := 0; effects := [] |}.

(** [{ port: 19988, timeout: 1000, pollInterval: 250 }]. *)
Definition quick : option Options :=
  Some {| opt_port := Some 19988; opt_timeout := Some 1000;
          opt_pollInterval := Some 250 |}.

End Hosts.

(** ** Notions for the requests of the router *)

Module RequestNotions.
Import CdpRelay.

(** A [Network.deleteCookies] forwarded on [session]. *)
Definition isDeletion (session : string) (m : ExtensionMessage) : Prop :=
  msg_method m = "forwardCDPCommand" /\
  fw_sessionId (msg_params m) = session /\
  fw_method (msg_params m) = "Network.deleteCookies".

(** How the promise of [sendToExtension] settles, as the caller sees it. *)
Definition settled (r : Reply) : Outcome Exn JSValue :=
  match r with
  | Resolved result => Return result
  | Rejected reason => Throw reason
  end.

End RequestNotions.

(** ** Notions for versions *)

Module VersionNotions.
Import Version.

(** The [i]-th component of a version as [compareVersions] reads it: its
    number, zero when the component is missing or is not a number. *)
Definition component (v : string) (i : nat) : Z :=
  partAt (List.map Number (split v)) i.

End VersionNotions.

(** ** Notions for the text of an error *)

Module ErrorNotions.

(** The text is a decimal numeral: digits and nothing else, at least
    one. *)
Definition decimalNumeral (s : string) : bool :=
  negb (s =? EmptyString)%string &&
  forallb (fun c => match Version.digit c with
                    | Some _ => true
                    | None => false
                    end)
          (list_ascii_of_string s).

(** The number a decimal numeral stands for. *)
Definition readDecimal (s : string) : option Z :=
  option_map Z.of_int (NilZero.int_of_string s).

End ErrorNotions.

(** ** The supervisor and a server that answers anything
       (tasks/persistent-relay.md, task 3) *)

Module Unchecked.
Import JS Errors Version ExtensionStatus PersistentRelay.

(** The server as the supervisor meets it at run time: the body of
    [/version] is what [response.json()] parses, whatever
    [as { version: string }] says of it, since the cast is not checked.
    Everything else is the [Host] of the typed reading. *)
Record Server : Type := {
  machine : Host;
  versionBody : nat -> option (Response JSValue);
}.

(** What the supervisor rejects with: one of its own errors, or an error
    raised by the runtime. *)
Inductive Failure : Type :=
| Relay (e : RelayServerError)
| Runtime (e : Exn).

Section Supervisor.

Variable VERSION : string.
Variable LOG_FILE_PATH : string.
Variable server : Server.

(** [getServerVersion]: [data.version] as it is found, [undefined] when
    the body has none; [null] when the fetch fails, the response is not
    ok, the body is not JSON, or [data] is [null] and the property access
    throws inside the [try]. *)
Definition getServerVersion (p : Z) (w : World) : JSValue * World :=
  let '(response, w') :=
    fetch (machine server) (fun _ => versionBody server) (versionUrl p) 500 w in
  match response with
  | Some r =>
      if negb (ok r) then (JNull, w')
      else match json r with
           | Some data =>
               if nullish data then (JNull, w') else (member data "version", w')
           | None => (JNull, w')
           end
  | None => (JNull, w')
  end.

(** The polling loop: [version === VERSION] holds of a string only. *)
Fixpoint pollVersion (fuel : nat) (p timeout startTime : Z) (w : World)
  : option (Outcome Failure EnsurePersistentRelayResult) * World :=
  if now w - startTime <? timeout then
    match fuel with
    | O => (None, w)
    | S fuel' =>
        let w1 := sleep 500 w in
        let '(v, w2) := getServerVersion p w1 in
        match v with
        | JString s =>
            if (s =? VERSION)%string
            then (Some (Return {| started := true; version := s;
                                  result_port := p |}), w2)
            else pollVersion fuel' p timeout startTime w2
        | _ => pollVersion fuel' p timeout startTime w2
        end
    end
  else (Some (Throw (Relay (RelayServerStartError LOG_FILE_PATH p))), w).

(** [ensurePersistentRelay]. A version that is not [null] goes to
    [compareVersions], whose [v1.split('.')] is a TypeError on anything
    but a string; nothing catches it. *)
Definition ensurePersistentRelay (options : option Options) (w : World)
  : option (Outcome Failure EnsurePersistentRelayResult) * World :=
  let p := optionOr options opt_port DEFAULT_PORT in
  let timeout := optionOr options opt_timeout DEFAULT_TIMEOUT in
  let '(existingVersion, w1) := getServerVersion p w in
  match existingVersion with
  | JNull =>
      let w3 := spawnServer (machine server) w1 in
      pollVersion (pollBound timeout) p timeout (now w3) w3
  | JString existing =>
      if 0 <=? compareVersions existing VERSION
      then (Some (Return {| started := false; version := existing;
                            result_port := p |}), w1)
      else
        let w2 := killOldVersion (machine server) p w1 in
        let w3 := spawnServer (machine server) w2 in
        pollVersion (pollBound timeout) p timeout (now w3) w3
  | _ => (Some (Throw (Runtime TypeError_)), w1)
  end.

End Supervisor.

(** What the [n]-th [getServerVersion] returns. *)
Definition versionAnswer (server : Server) (n : nat) : JSValue :=
  match versionBody server n with
  | Some r =>
      if negb (ok r) then JNull
      else match json r with
           | Some data => if nullish data then JNull else member data "version"
           | None => JNull
           end
  | None => JNull
  end.

(** The answer is neither [null] nor a string: the body of a response
    that is ok has no version, or one of another type. *)
Definition untypedAt (server : Server) (n : nat) : bool :=
  match versionAnswer server n with
  | JNull | JString _ => false
  | _ => true
  end.

(** The answer as far as it has the type [string | null]. *)
Definition textOf (v : JSValue) : option string :=
  match v with
  | JString s => Some s
  | _ => None
  end.

(** The server read as typed: an answer that is not a string is read as
    no answer. *)
Definition typedOf (server : Server) : Host :=
  {| versionReply := fun n =>
       Some {| ok := true; json := textOf (versionAnswer server n) |};
     statusReply := statusReply (machine server);
     latency := latency (machine server);
     killPortProcessThrows := killPortProcessThrows (machine server);
     development := development (machine server);
     execPath := execPath (machine server) |}.

(** A typed host as a server: the body of [/version] is
    [{ version: v }]. *)
Definition serverOf (host : Host) : Server :=
  {| machine := host;
     versionBody := fun n =>
       match versionReply host n with
       | Some r =>
           Some {| ok := ok r;
                   json := match json r with
                           | Some v => Some (JObject [("version", JString v)])
                           | None => None
                           end |}
       | None => None
       end |}.

(** A run of the typed reading seen as a run of the unchecked one. *)
Definition unchecked {A}
  (run : option (Outcome RelayServerError A) * World)
  : option (Outcome Failure A) * World :=
  (match fst run with
   | Some (Return a) => Some (Return a)
   | Some (Throw e) => Some (Throw (Relay e))
   | None => None
   end, snd run).

End Unchecked.

(** ** [connectToPlaywriter] (tasks/persistent-relay.md, task 5) *)

Module Playwriter.
Import JS Errors PersistentRelay.

(** What [connectToPlaywriter] rejects with: an error of the relay
    supervisor, an error of the runtime, or whatever
    [chromium.connectOverCDP] rejects with. *)
Inductive ConnectError (PlaywrightError : Type) : Type :=
| RelayFailure (e : RelayServerError)
| RuntimeFailure (e : Exn)
| PlaywrightFailure (e : PlaywrightError).
Arguments RelayFailure {PlaywrightError} e.
Arguments RuntimeFailure {PlaywrightError} e.
Arguments PlaywrightFailure {PlaywrightError} e.

Section Connect.

Variable VERSION : string.
Variable LOG_FILE_PATH : string.
Variable server : Unchecked.Server.

(** Playwright and [utils.ts] are outside the module: [getCdpUrl({ port })]
    and what [chromium.connectOverCDP] settles with. *)
Variable Browser : Type.
Variable PlaywrightError : Type.
Variable getCdpUrl : Z -> string.
Variable connectOverCDP : string -> Outcome PlaywrightError Browser.

(** The [{ port, timeout }] handed to both phases. *)
Definition phaseOptions (options : option Options) : option Options :=
  Some {| opt_port := Some (optionOr options opt_port DEFAULT_PORT);
          opt_timeout := Some (optionOr options opt_timeout 30000);
          opt_pollInterval := None |}.

(** The result, the world, and the URLs [chromium.connectOverCDP] was
    called with. *)
Definition connectToPlaywriter (options : option Options) (w : World)
  : option (Outcome (ConnectError PlaywrightError) Browser)
    * World * list string :=
  let port := optionOr options opt_port DEFAULT_PORT in
  let timeout := optionOr options opt_timeout 30000 in
  let phase := Some {| opt_port := Some port; opt_timeout := Some timeout;
                       opt_pollInterval := None |} in
  match Unchecked.ensurePersistentRelay VERSION LOG_FILE_PATH server phase w with
  | (None, w1) => (None, w1, [])
  | (Some (Throw (Unchecked.Relay e)), w1) =>
      (Some (Throw (RelayFailure e)), w1, [])
  | (Some (Throw (Unchecked.Runtime e)), w1) =>
      (Some (Throw (RuntimeFailure e)), w1, [])
  | (Some (Return _), w1) =>
      match waitForExtension (Unchecked.machine server) phase w1 with
      | (None, w2) => (None, w2, [])
      | (Some (Throw e), w2) => (Some (Throw (RelayFailure e)), w2, [])
      | (Some (Return _), w2) =>
          let cdpUrl := getCdpUrl port in
          match connectOverCDP cdpUrl with
          | Return browser => (Some (Return browser), w2, [cdpUrl])
          | Throw e => (Some (Throw (PlaywrightFailure e)), w2, [cdpUrl])
          end
      end
  end.

End Connect.

End Playwriter.

(** ** [ensureRelayServer] of the MCP (mcp.ts, as quoted in the research
       notes on the persistent server) *)

Module Mcp.
Import JS.

Inductive McpEffect : Type :=
| GetServerVersion (p : Z)
| McpLog (message : string)
| KillRelayServer (p : Z)
| SpawnServer (command script : string) (detached : bool) (stdio : string)
| UnrefServer
| SleepFor (ms : Z).

(** The number of calls of [getServerVersion] made, and what was done so
    far. *)
Record McpWorld : Type := {
  calls : nat;
  done : list McpEffect;
}.

Definition perform (e : McpEffect) (w : McpWorld) : McpWorld :=
  {| calls := calls w; done := (done w ++ [e])%list |}.

Section EnsureRelayServer.

Variable VERSION : string.
Variable RELAY_PORT : Z.
Variable execPath : string.

(** The helpers of mcp.ts the function calls: what the [n]-th
    [getServerVersion] resolves with ([None] for [null]), the order of
    versions, and what [killRelayServer] rejects with, when it does. *)
Variable serverVersionAt : nat -> option string.
Variable compareVersions : string -> string -> Z.
Variable killRelayServerFails : option Exn.

Definition getServerVersion (p : Z) (w : McpWorld) : option string * McpWorld :=
  (serverVersionAt (calls w),
   {| calls := S (calls w); done := (done w ++ [GetServerVersion p])%list |}).

(** [for (let i = 0; i < 10; i++) { await sleep(500); ... }] followed by
    the [throw]; [turns] is the number of iterations left. *)
Fixpoint pollServer (turns : nat) (w : McpWorld) : Outcome Exn unit * McpWorld :=
  match turns with
  | O => (Throw (Error_ "Failed to start CDP relay server"), w)
  | S turns' =>
      let w1 := perform (SleepFor 500) w in
      let '(newVersion, w2) := getServerVersion RELAY_PORT w1 in
      match newVersion with
      | Some s =>
          if (s =? VERSION)%string then (Return tt, w2)
          else pollServer turns' w2
      | None => pollServer turns' w2
      end
  end.

(** [spawn(process.execPath, [scriptPath], { detached: true, stdio:
    'ignore' })], [serverProcess.unref()] and the polling. *)
Definition spawnAndPoll (w : McpWorld) : Outcome Exn unit * McpWorld :=
  let scriptPath := "../dist/start-relay-server.js" in
  let w1 := perform (SpawnServer execPath scriptPath true "ignore") w in
  pollServer 10 (perform UnrefServer w1).

Definition ensureRelayServer (w : McpWorld) : Outcome Exn unit * McpWorld :=
  let '(serverVersion, w1) := getServerVersion RELAY_PORT w in
  match serverVersion with
  | Some s =>
      if (s =? VERSION)%string then (Return tt, w1)
      else if 0 <? compareVersions s VERSION then (Return tt, w1)
      else
        let w2 := perform (McpLog "CDP relay server version mismatch, restarting...") w1 in
        let w3 := perform (KillRelayServer RELAY_PORT) w2 in
        match killRelayServerFails with
        | Some e => (Throw e, w3)
        | None => spawnAndPoll w3
        end
  | None =>
      spawnAndPoll
        (perform (McpLog "CDP relay server not running, starting it...") w1)
  end.

End EnsureRelayServer.

(** [k] turns of the polling loop. *)
Definition polls (p : Z) (k : nat) : list McpEffect :=
  concat (repeat [SleepFor 500; GetServerVersion p] k).

(** Whether [ensureRelayServer] leaves alone a server that answered the
    first probe with [serverVersion]. *)
Definition leavesAlone (VERSION : string)
           (compareVersions : string -> string -> Z)
           (serverVersion : option string) : bool :=
  match serverVersion with
  | Some s => (s =? VERSION)%string || (0 <? compareVersions s VERSION)
  | None => false
  end.

(** The effects a run added to the log. *)
Definition doneSince (before after : McpWorld) : list McpEffect :=
  skipn (length (done before)) (done after).

(** What [ensureRelayServer] does between its first probe and the
    polling, when nothing fails. *)
Definition restartEffects (p : Z) (execPath : string)
           (serverVersion : option string) : list McpEffect :=
  (match serverVersion with
   | Some _ =>
       [McpLog "CDP relay server version mismatch, restarting...";
        KillRelayServer p]
   | None => [McpLog "CDP relay server not running, starting it..."]
   end ++
   [SpawnServer execPath "../dist/start-relay-server.js" true "ignore";
    UnrefServer])%list.

End Mcp.

(** ** The harness of the API compatibility test
       (playwriter/test/playwright-full-api.ts) *)

Module ApiTest.
Import JS.

Inductive Status : Type := pass | fail | skip.

Definition Status_eqb (a b : Status) : bool :=
  match a, b with
  | pass, pass | fail, fail | skip, skip => true
  | _, _ => false
  end.

(** [interface TestResult]. *)
Record TestResult : Type := {
  category : string;
  name : string;
  method : string;
  status : Status;
  error : option string;
  duration : Z;
}.

(** What a test body throws, when the [catch] block can print it: an
    [Error] with its message, a text, or another value with what
    [String(e)] makes of it. Values that make the block itself throw are
    the matter of [ApiMain]. *)
Inductive Thrown : Type :=
| ThrownError (message : string)
| ThrownValue (asString : string).

(** What [await fn()] does when it is run: how it settles, and how long
    it takes. *)
Record Body : Type := {
  settles : Outcome Thrown unit;
  takes : N;
}.

(** The clock [Date.now()] reads, the module-level [RESULTS], and the
    lines written by [console.log]. *)
Record Harness : Type := {
  clock : Z;
  RESULTS : list TestResult;
  console : list string;
}.

Section Runner.

(** [error.slice(0, 80)], on the UTF-16 code units of the message. *)
Variable slice80 : string -> string.

Definition test (category name method : string) (fn : Body) (skipped : bool)
           (h : Harness) : Harness :=
  if skipped then
    {| clock := clock h;
       RESULTS := (RESULTS h ++
                   [{| category := category; name := name; method := method;
                       status := skip; error := None; duration := 0 |}])%list;
       console := (console h ++ [("    ⏭️  " ++ name)%string])%list |}
  else
    let start := clock h in
    let finish := start + Z.of_N (takes fn) in
    match settles fn with
    | Return _ =>
        {| clock := finish;
           RESULTS := (RESULTS h ++
                       [{| category := category; name := name;
                           method := method; status := pass; error := None;
                           duration := finish - start |}])%list;
           console := (console h ++ [("    ✅ " ++ name)%string])%list |}
    | Throw e =>
        let error := match e with
                     | ThrownError message => message
                     | ThrownValue asString => asString
                     end in
        {| clock := finish;
           RESULTS := (RESULTS h ++
                       [{| category := category; name := name;
                           method := method; status := fail;
                           error := Some error;
                           duration := finish - start |}])%list;
           console := (console h ++
                       [("    ❌ " ++ name ++ ": " ++ slice80 error)%string])%list |}
    end.

End Runner.

(** The counts of the summary and the exit code of [main]. *)
Definition withStatus (s : Status) (results : list TestResult)
  : list TestResult :=
  filter (fun r => Status_eqb (status r) s) results.

Definition passed (results : list TestResult) : nat :=
  List.length (withStatus pass results).

Definition failed (results : list TestResult) : nat :=
  List.length (withStatus fail results).

Definition skipped (results : list TestResult) : nat :=
  List.length (withStatus skip results).

Definition total (results : list TestResult) : nat := List.length results.

(** [process.exit(failed > 0 ? 1 : 0)], the last line of [main]: the code
    the process exits with when [main] gets there. [ApiMain.process] has
    the other way out, the [catch] of [main()]. *)
Definition exitCode (results : list TestResult) : Z :=
  if (0 <? failed results)%nat then 1 else 0.

(** The lists of the report written to disk. *)
Definition working (results : list TestResult) : list string :=
  List.map method (withStatus pass results).

Definition notWorking (results : list TestResult)
  : list (string * option string) :=
  List.map (fun r => (method r, error r)) (withStatus fail results).

Definition skippedMethods (results : list TestResult) : list string :=
  List.map method (withStatus skip results).

(** A call of [test] in [main]. *)
Record Call : Type := {
  call_category : string;
  call_name : string;
  call_method : string;
  call_fn : Body;
  call_skip : bool;
}.

(** The calls of [test] made one after the other. *)
Definition runCalls (slice80 : string -> string) (calls : list Call)
           (h : Harness) : Harness :=
  fold_left (fun h c =>
               test slice80 (call_category c) (call_name c) (call_method c)
                    (call_fn c) (call_skip c) h)
            calls h.

(** A call whose body is run and throws. *)
Definition throws (c : Call) : bool :=
  negb (call_skip c) &&
  match settles (call_fn c) with
  | Throw _ => true
  | Return _ => false
  end.

(** A call whose body is run and resolves. *)
Definition resolves (c : Call) : bool :=
  negb (call_skip c) &&
  match settles (call_fn c) with
  | Throw _ => false
  | Return _ => true
  end.

(** The status and the error a call is recorded with. *)
Definition statusOf (c : Call) : Status :=
  if call_skip c then skip
  else match settles (call_fn c) with
       | Return _ => pass
       | Throw _ => fail
       end.

Definition errorOf (c : Call) : option string :=
  if call_skip c then None
  else match settles (call_fn c) with
       | Return _ => None
       | Throw (ThrownError message) => Some message
       | Throw (ThrownValue asString) => Some asString
       end.

(** The result [r] records the call [c]. *)
Definition records (c : Call) (r : TestResult) : Prop :=
  category r = call_category c /\ name r = call_name c /\
  method r = call_method c /\ status r = statusOf c /\
  error r = errorOf c.

Definition fresh : Harness := {| clock := 0; RESULTS := []; console := [] |}.

End ApiTest.

(** ** The API compatibility test as a process
       (playwriter/test/playwright-full-api.ts: [test], [main] and the
       [catch] of [main()]) *)

Module ApiMain.
Import JS.

(** How the body of a test ends, and what the [catch] block of [test]
    then does: the body resolves; it throws and the block completes, so
    that the failure is recorded and logged; or the block throws itself,
    at [String(e)] before the result is recorded, or at [error.slice]
    after it. *)
Inductive BodyEnd : Type :=
| BodyResolves
| BodyThrows
| CatchThrows (recorded : bool) (e : Exn).

(** A call of [test] in [main]. *)
Record TestCall : Type := {
  tc_category : string;
  tc_name : string;
  tc_method : string;
  tc_body : BodyEnd;
  tc_skip : bool;
}.

(** What the summary and the exit code read of a [TestResult]. *)
Record Entry : Type := {
  entry_category : string;
  entry_name : string;
  entry_method : string;
  entry_status : ApiTest.Status;
}.

Definition entry (c : TestCall) (s : ApiTest.Status) : Entry :=
  {| entry_category := tc_category c; entry_name := tc_name c;
     entry_method := tc_method c; entry_status := s |}.

(** [test]: [RESULTS] after the call, and what the call rejects with
    when it does. *)
Definition test (c : TestCall) (results : list Entry)
  : list Entry * option Exn :=
  if tc_skip c then ((results ++ [entry c ApiTest.skip])%list, None)
  else
    match tc_body c with
    | BodyResolves => ((results ++ [entry c ApiTest.pass])%list, None)
    | BodyThrows => ((results ++ [entry c ApiTest.fail])%list, None)
    | CatchThrows recorded e =>
        (if recorded then (results ++ [entry c ApiTest.fail])%list else results,
         Some e)
    end.

(** The calls of [test] in [main], each awaited: the first one that
    rejects ends [main]. *)
Fixpoint runTests (calls : list TestCall) (results : list Entry)
  : list Entry * option Exn :=
  match calls with
  | [] => (results, None)
  | c :: rest =>
      match test c results with
      | (results', None) => runTests rest results'
      | (results', Some e) => (results', Some e)
      end
  end.

Definition withStatus (s : ApiTest.Status) (results : list Entry) : list Entry :=
  filter (fun r => ApiTest.Status_eqb (entry_status r) s) results.

(** The report written to [tmp/playwright-api-report.json], without the
    rate and the texts of the errors. *)
Record Report : Type := {
  total : nat;
  passed : nat;
  failed : nat;
  skipped : nat;
  working : list string;
  notWorking : list string;
  skippedMethods : list string;
}.

Definition report (results : list Entry) : Report :=
  {| total := List.length results;
     passed := List.length (withStatus ApiTest.pass results);
     failed := List.length (withStatus ApiTest.fail results);
     skipped := List.length (withStatus ApiTest.skip results);
     working := List.map entry_method (withStatus ApiTest.pass results);
     notWorking := List.map entry_method (withStatus ApiTest.fail results);
     skippedMethods := List.map entry_method (withStatus ApiTest.skip results) |}.

(** A run of the script: how the setup of [main] ends, the calls of
    [test] it makes, and how printing the summary and writing the report
    ends ([JSON.stringify], [mkdirSync], [writeFileSync]). *)
Record Script : Type := {
  setup : Outcome Exn unit;
  calls : list TestCall;
  writeReport : Outcome Exn unit;
}.

(** [main]: the code it exits with and the report it has written, or
    what it rejects with. *)
Definition main (script : Script) : Outcome Exn (Z * Report) :=
  match setup script with
  | Throw e => Throw e
  | Return _ =>
      match runTests (calls script) [] with
      | (_, Some e) => Throw e
      | (results, None) =>
          match writeReport script with
          | Throw e => Throw e
          | Return _ =>
              Return (if (0 <? failed (report results))%nat then 1 else 0,
                      report results)
          end
      end
  end.

(** [main().catch((e) => { ...; process.exit(1) })]: the exit code of the
    process, and the report when one was written. *)
Definition process (script : Script) : Z * option Report :=
  match main script with
  | Return (code, written) => (code, Some written)
  | Throw _ => (1, None)
  end.

(** The call is run and its body resolves, throws, or throws with a
    [catch] block that fails. *)
Definition passes (c : TestCall) : bool :=
  negb (tc_skip c) &&
  match tc_body c with BodyResolves => true | _ => false end.

Definition fails (c : TestCall) : bool :=
  negb (tc_skip c) &&
  match tc_body c with BodyThrows => true | _ => false end.

Definition breaks (c : TestCall) : bool :=
  negb (tc_skip c) &&
  match tc_body c with CatchThrows _ _ => true | _ => false end.

Definition resolved {A} (o : Outcome Exn A) : bool :=
  match o with Return _ => true | Throw _ => false end.

(** The status a call is recorded with when its [catch] block does not
    fail. *)
Definition statusOf (c : TestCall) : ApiTest.Status :=
  if tc_skip c then ApiTest.skip
  else match tc_body c with
       | BodyResolves => ApiTest.pass
       | _ => ApiTest.fail
       end.

(** A call of the harness whose thrown values print, as a call here. *)
Definition ofCall (c : ApiTest.Call) : TestCall :=
  {| tc_category := ApiTest.call_category c;
     tc_name := ApiTest.call_name c;
     tc_method := ApiTest.call_method c;
     tc_body := match ApiTest.settles (ApiTest.call_fn c) with
                | Return _ => BodyResolves
                | Throw _ => BodyThrows
                end;
     tc_skip := ApiTest.call_skip c |}.

Definition ofResult (r : ApiTest.TestResult) : Entry :=
  {| entry_category := ApiTest.category r; entry_name := ApiTest.name r;
     entry_method := ApiTest.method r; entry_status := ApiTest.status r |}.

End ApiMain.

(** ** The worker window of the extension
       (tasks/cdp-cookie-workaround.md, separate window mode, tasks 2 to 6) *)

Module WorkerWindow.
Import JS.

(** A [chrome.tabs.Tab]. *)
Record Tab : Type := {
  tab_id : Z;
  tab_windowId : Z;
  tab_url : string;
}.

(** A [chrome.windows.Window]: [id] and [tabs] are optional. *)
Record Window : Type := {
  win_id : option Z;
  win_tabs : option (list Tab);
}.

Inductive ChromeCall : Type :=
| WindowsGet (windowId : Z)
| TabsCreate (windowId : option Z) (url : string) (active : bool)
| WindowsCreate (url : string) (focused : bool) (width height : Z)
| WindowsRemove (windowId : Z).

(** The browser: what a call settles with after the calls made before.
    The promise of [chrome.windows.remove] is not awaited and its
    rejection is swallowed. *)
Record Chrome : Type := {
  windowsGet : list ChromeCall -> Z -> Outcome Exn unit;
  tabsCreate : list ChromeCall -> option Z -> string -> Outcome Exn Tab;
  windowsCreate : list ChromeCall -> string -> Outcome Exn Window;
}.

(** The part of the store the window mode uses; [tabs] is
    [state.tabs.size]. *)
Record Store : Type := {
  separateWindow : bool;
  workerWindowId : option Z;
  tabs : nat;
}.

(** What the extension sends back on the socket. *)
Record Reply : Type := {
  reply_id : Z;
  reply_success : bool;
}.

(** The store, the calls made to the browser, and the replies sent. *)
Record State : Type := {
  store : Store;
  chromeCalls : list ChromeCall;
  sent : list Reply;
}.

(** [if (workerWindowId)]: there is an id and it is not 0. *)
Definition truthyId (id : option Z) : bool :=
  match id with
  | Some n => negb (n =? 0)
  | None => false
  end.

Definition call (c : ChromeCall) (st : State) : State :=
  {| store := store st;
     chromeCalls := (chromeCalls st ++ [c])%list;
     sent := sent st |}.

(** The store with another [workerWindowId]. *)
Definition setWorkerWindowId (id : option Z) (st : State) : State :=
  {| store := {| separateWindow := separateWindow (store st);
                 workerWindowId := id;
                 tabs := tabs (store st) |};
     chromeCalls := chromeCalls st;
     sent := sent st |}.

(** The subscriber of the store, told the number of tabs: when the mode
    is on, no tab is left and there is a worker window, the window is
    removed and forgotten. The notification its own [setState] causes
    finds no worker window. *)
Definition onTabsChange (tabsSize : nat) (st : State) : State :=
  match workerWindowId (store st) with
  | Some n =>
      if separateWindow (store st) && (tabsSize =? 0)%nat && truthyId (Some n)
      then setWorkerWindowId None (call (WindowsRemove n) st)
      else st
  | None => st
  end.

(** What every [store.setState] ends with: the subscriber is run on the
    new state. *)
Definition notify (st : State) : State := onTabsChange (tabs (store st)) st.

(** [store.setState({ workerWindowId: id })]. *)
Definition storeWorkerWindowId (id : option Z) (st : State) : State :=
  notify (setWorkerWindowId id st).

(** The map of tabs of the store changes, by code outside these
    handlers, and [n] tabs are left. *)
Definition storeTabs (n : nat) (st : State) : State :=
  notify {| store := {| separateWindow := separateWindow (store st);
                        workerWindowId := workerWindowId (store st);
                        tabs := n |};
            chromeCalls := chromeCalls st;
            sent := sent st |}.

Section Background.

Variable chrome : Chrome.

(** The end of [createTabInWorkerWindow]: a new worker window with its
    first tab. The result is [win.tabs![0]], [None] when the list is
    empty. *)
Definition createWorkerWindow (url : string) (st : State)
  : Outcome Exn (option Tab) * State :=
  let st1 := call (WindowsCreate url false 1200 800) st in
  match windowsCreate chrome (chromeCalls st) url with
  | Throw e => (Throw e, st1)
  | Return win =>
      let st2 := storeWorkerWindowId (win_id win) st1 in
      match win_tabs win with
      | Some tabs => (Return (nth_error tabs 0), st2)
      | None => (Throw TypeError_, st2)
      end
  end.

Definition createTabInWorkerWindow (url : string) (st : State)
  : Outcome Exn (option Tab) * State :=
  let id := workerWindowId (store st) in
  if truthyId id then
    match id with
    | Some n =>
        let st1 := call (WindowsGet n) st in
        match windowsGet chrome (chromeCalls st) n with
        | Return _ =>
            let st2 := call (TabsCreate (Some n) url false) st1 in
            match tabsCreate chrome (chromeCalls st1) (Some n) url with
            | Return tab => (Return (Some tab), st2)
            | Throw _ => createWorkerWindow url (storeWorkerWindowId None st2)
            end
        | Throw _ => createWorkerWindow url (storeWorkerWindowId None st1)
        end
    | None => createWorkerWindow url st
    end
  else createWorkerWindow url st.

(** The tab of the [createInitialTab] and [Target.createTarget]
    handlers. *)
Definition createTab (url : string) (st : State)
  : Outcome Exn (option Tab) * State :=
  if separateWindow (store st) then createTabInWorkerWindow url st
  else
    let st1 := call (TabsCreate None url false) st in
    match tabsCreate chrome (chromeCalls st) None url with
    | Return tab => (Return (Some tab), st1)
    | Throw e => (Throw e, st1)
    end.

End Background.

(** The handler of the [setWindowMode] message. *)
Definition setWindowMode (id : Z) (separate : bool) (st : State) : State :=
  let st1 :=
    notify {| store := {| separateWindow := separate; workerWindowId := None;
                          tabs := tabs (store st) |};
              chromeCalls := chromeCalls st;
              sent := sent st |} in
  {| store := store st1;
     chromeCalls := chromeCalls st1;
     sent := (sent st1 ++ [{| reply_id := id; reply_success := true |}])%list |}.

(** [ConnectionManager.handleClose()]. *)
Definition handleClose (st : State) : State :=
  let st1 :=
    match workerWindowId (store st) with
    | Some n => if truthyId (Some n) then call (WindowsRemove n) st else st
    | None => st
    end in
  notify {| store := {| separateWindow := false; workerWindowId := None;
                        tabs := tabs (store st1) |};
            chromeCalls := chromeCalls st1;
            sent := sent st1 |}.

(** What happens in the extension, one event after the other. *)
Inductive Event : Type :=
| SetWindowMode (id : Z) (separate : bool)
| CreateTab (url : string)
| Closed
| TabsChanged (tabsSize : nat).

Definition step (chrome : Chrome) (st : State) (ev : Event) : State :=
  match ev with
  | SetWindowMode id separate => setWindowMode id separate st
  | CreateTab url => snd (createTab chrome url st)
  | Closed => handleClose st
  | TabsChanged n => storeTabs n st
  end.

Definition run (chrome : Chrome) (events : list Event) (st : State) : State :=
  fold_left (step chrome) events st.

Definition isWindowsCreate (c : ChromeCall) : bool :=
  match c with
  | WindowsCreate _ _ _ _ => true
  | _ => false
  end.

Definition isWindowsRemove (c : ChromeCall) : bool :=
  match c with
  | WindowsRemove _ => true
  | _ => false
  end.

Definition isCreateTab (ev : Event) : bool :=
  match ev with
  | CreateTab _ => true
  | _ => false
  end.

(** An event that leaves the window mode on and a tab in the store. *)
Definition keepsTabs (ev : Event) : bool :=
  match ev with
  | CreateTab _ => true
  | TabsChanged n => negb (n =? 0)%nat
  | SetWindowMode _ _ | Closed => false
  end.

(** The tab [createTabInWorkerWindow] makes in the worker window of the
    store, when there is one, Chrome still knows it and the tab can be
    created in it. *)
Definition reusedTab (chrome : Chrome) (url : string) (st : State)
  : option Tab :=
  match workerWindowId (store st) with
  | Some n =>
      if truthyId (Some n) then
        match windowsGet chrome (chromeCalls st) n with
        | Return _ =>
            match tabsCreate chrome (chromeCalls st ++ [WindowsGet n]) (Some n)
                    url with
            | Return tab => Some tab
            | Throw _ => None
            end
        | Throw _ => None
        end
      else None
  | None => None
  end.

(** The calls made on the worker window of the store before a new window
    is opened. *)
Definition attempts (chrome : Chrome) (url : string) (st : State)
  : list ChromeCall :=
  match workerWindowId (store st) with
  | Some n =>
      if truthyId (Some n) then
        match windowsGet chrome (chromeCalls st) n with
        | Return _ => [WindowsGet n; TabsCreate (Some n) url false]
        | Throw _ => [WindowsGet n]
        end
      else []
  | None => []
  end.

(** The subscriber removes the window [id] as soon as it is stored: the
    mode is on and the store holds no tab. *)
Definition lostAtOnce (st : State) (id : option Z) : bool :=
  separateWindow (store st) && (tabs (store st) =? 0)%nat && truthyId id.

(** The calls a run added. *)
Definition callsSince (before after : State) : list ChromeCall :=
  skipn (length (chromeCalls before)) (chromeCalls after).

(** The window [n] was returned by a [chrome.windows.create] among the
    [calls]. *)
Definition created (chrome : Chrome) (calls : list ChromeCall) (n : Z)
  : Prop :=
  exists before url rest win,
    calls = (before ++ WindowsCreate url false 1200 800 :: rest)%list /\
    windowsCreate chrome before url = Return win /\
    win_id win = Some n.

(** The window a call acts on, when it acts on one. *)
Definition windowOf (c : ChromeCall) : option Z :=
  match c with
  | WindowsGet n => Some n
  | TabsCreate windowId _ _ => windowId
  | WindowsCreate _ _ _ _ => None
  | WindowsRemove n => Some n
  end.

(** The worker window of the store, and every window a call acted on,
    was created by the extension before. *)
Definition ownWindows (chrome : Chrome) (st : State) : Prop :=
  (forall n, workerWindowId (store st) = Some n ->
             created chrome (chromeCalls st) n) /\
  (forall before c rest n,
     chromeCalls st = (before ++ c :: rest)%list ->
     windowOf c = Some n -> created chrome before n).

(** A browser in which every call resolves: the [k]-th call creates the
    tab or the window of id [k + 1]. *)
Definition steady : Chrome :=
  {| windowsGet := fun _ _ => Return tt;
     tabsCreate := fun calls windowId url =>
       Return {| tab_id := Z.of_nat (S (length calls));
                 tab_windowId := match windowId with Some n => n | None => 1 end;
                 tab_url := url |};
     windowsCreate := fun calls url =>
       Return {| win_id := Some (Z.of_nat (S (length calls)));
                 win_tabs := Some [{| tab_id := Z.of_nat (S (length calls));
                                      tab_windowId := Z.of_nat (S (length calls));
                                      tab_url := url |}] |} |}.

(** The extension when it starts. *)
Definition initial : State :=
  {| store := {| separateWindow := false; workerWindowId := None; tabs := 0 |};
     chromeCalls := [];
     sent := [] |}.

End WorkerWindow.

(** ** Notions for what the supervisor does *)

Module EffectNotions.
Import PersistentRelay.

Definition isKill (e : Effect) : bool :=
  match e with
  | KillPortProcess _ => true
  | _ => false
  end.

Definition isSpawn (e : Effect) : bool :=
  match e with
  | Spawn _ _ _ _ => true
  | _ => false
  end.

Definition isFetch (e : Effect) : bool :=
  match e with
  | Fetch _ _ => true
  | _ => false
  end.

(** Whether the version found by the first probe makes
    [ensurePersistentRelay] leave the server alone. *)
Definition upToDate (VERSION : string) (existing : option string) : bool :=
  match existing with
  | Some v => 0 <=? Version.compareVersions v VERSION
  | None => false
  end.

(** The effects a run added to the log. *)
Definition added (before after : World) : list Effect :=
  skipn (length (effects before)) (effects after).

End EffectNotions.

(* ===================================================================== *)
(** * Part II. Properties *)
(* ===================================================================== *)

Import CdpRelay Notions.

(** ** The router *)

Section RouterFacts.

Variable extension : Extension.
Variable connectedTargets : Map ConnectedTarget.

Lemma targetSessionIdOf_available sid s sent :
  availableSession connectedTargets sid = Some s ->
  targetSessionIdOf connectedTargets sid sent = (Return s, sent).
Proof.
  unfold availableSession, targetSessionIdOf.
  destruct (or_else_string sid (getAnyActiveSessionId connectedTargets)) as [t|];
    simpl; [|discriminate].
  destruct (negb (t =? EmptyString)%string); [|discriminate].
  now intros [= ->].
Qed.

Lemma targetSessionIdOf_unavailable sid sent :
  availableSession connectedTargets sid = None ->
  targetSessionIdOf connectedTargets sid sent = (Throw (Error_ NO_PAGES), sent).
Proof.
  unfold availableSession, targetSessionIdOf.
  destruct (or_else_string sid (getAnyActiveSessionId connectedTargets)) as [t|];
    simpl; [|reflexivity].
  now destruct (negb (t =? EmptyString)%string).
Qed.

Lemma deleteCookie_object session fields sent :
  deleteCookie extension session (JObject fields) sent =
  (match extension sent (deleteMessage session (JObject fields)) with
   | Resolved _ => Return tt
   | Rejected e => Throw e
   end, (sent ++ [deleteMessage session (JObject fields)])%list).
Proof.
  unfold deleteCookie, bind, get_member, sendToExtension, deleteMessage,
    deleteCookiesParams; simpl.
  now destruct (extension sent _).
Qed.

(** When every deletion resolves, the loop sends one request per cookie,
    in the order of the list. *)
Lemma deleteEach_all_resolve session cookies : forall sent,
  forallb isObject cookies = true ->
  allResolve extension sent (deleteMessages session cookies) = true ->
  deleteEach extension session cookies sent =
  (Return tt, (sent ++ deleteMessages session cookies)%list).
Proof.
  induction cookies as [|cookie rest IH]; intros sent Hobj Hall; simpl.
  - now rewrite app_nil_r.
  - simpl in Hobj, Hall.
    apply andb_prop in Hobj as [Hc Hrest]. apply andb_prop in Hall as [Hr Hall].
    destruct cookie; try discriminate.
    unfold bind. rewrite deleteCookie_object.
    destruct (extension sent _); [|discriminate].
    rewrite (IH _ Hrest Hall). now rewrite <- app_assoc.
Qed.

(** The loop stops at the first deletion that is rejected, with its
    reason; the cookies after it are not touched. *)
Lemma deleteEach_first_rejection session before cookie after reason : forall sent,
  forallb isObject before = true ->
  isObject cookie = true ->
  allResolve extension sent (deleteMessages session before) = true ->
  extension (sent ++ deleteMessages session before)%list
            (deleteMessage session cookie) = Rejected reason ->
  deleteEach extension session (before ++ cookie :: after)%list sent =
  (Throw reason,
   (sent ++ deleteMessages session before ++ [deleteMessage session cookie])%list).
Proof.
  induction before as [|b rest IH]; intros sent Hobj Hc Hall Hrej; simpl.
  - simpl in Hrej. rewrite app_nil_r in Hrej.
    destruct cookie; try discriminate.
    unfold bind. rewrite deleteCookie_object. now rewrite Hrej.
  - simpl in Hobj, Hall.
    apply andb_prop in Hobj as [Hb Hrest]. apply andb_prop in Hall as [Hr Hall].
    destruct b; try discriminate.
    unfold bind. rewrite deleteCookie_object.
    destruct (extension sent _); [|discriminate].
    simpl in Hrej.
    rewrite (app_assoc sent [_] (deleteMessages session rest) : (sent ++ _ :: _ = _)%list) in Hrej.
    rewrite (IH _ Hrest Hc Hall Hrej). now rewrite <- app_assoc.
Qed.

End RouterFacts.

Section RouteFacts.

Variable extension : Extension.
Variable connectedTargets : Map ConnectedTarget.
Variable existingCases : string -> JSValue -> option string -> Relay JSValue.

Lemma route_getCookies params sid :
  routeCdpCommand extension connectedTargets existingCases
    "Storage.getCookies" params sid =
  storageGetCookies extension connectedTargets sid.
Proof. reflexivity. Qed.

Lemma route_setCookies params sid :
  routeCdpCommand extension connectedTargets existingCases
    "Storage.setCookies" params sid =
  storageSetCookies extension connectedTargets params sid.
Proof. reflexivity. Qed.

Lemma route_clearCookies params sid :
  routeCdpCommand extension connectedTargets existingCases
    "Storage.clearCookies" params sid =
  storageClearCookies extension connectedTargets sid.
Proof. reflexivity. Qed.

(** The three cookie commands, one by one. *)
Lemma cookieMethod_cases method :
  cookieMethod method = true ->
  method = "Storage.getCookies" \/ method = "Storage.setCookies" \/
  method = "Storage.clearCookies".
Proof.
  unfold cookieMethod. intros H.
  apply orb_prop in H as [H|H]; [apply orb_prop in H as [H|H]|];
    apply String.eqb_eq in H; auto.
Qed.

Lemma returnedCookies_items result cookies :
  returnedCookies result = Some cookies ->
  nullish result = false /\
  or_else (get_member_opt result "cookies") (JArray []) = JArray cookies /\
  or_else (member result "cookies") (JArray []) = JArray cookies /\
  forallb isObject cookies = true.
Proof.
  unfold returnedCookies. destruct result; try discriminate.
  unfold get_member_opt; simpl.
  destruct (assoc "cookies" fields) eqn:E; try discriminate.
  - intros [= <-]. now rewrite ?E.
  - destruct (forallb isObject items) eqn:F; [|discriminate].
    intros [= <-]. now rewrite ?E.
Qed.

(** [Storage.clearCookies] with a session and a well-typed reply: the
    cookies are fetched, then deleted by the loop. *)
Lemma storageClearCookies_run sid session result cookies sent :
  availableSession connectedTargets sid = Some session ->
  extension sent (getCookiesMessage session) = Resolved result ->
  returnedCookies result = Some cookies ->
  storageClearCookies extension connectedTargets sid sent =
  match deleteEach extension session cookies
          (sent ++ [getCookiesMessage session])%list with
  | (Return _, sent') => (Return (JObject []), sent')
  | (Throw e, sent') => (Throw e, sent')
  end.
Proof.
  intros Hs Hget Hret.
  apply returnedCookies_items in Hret as (_ & Hc & _ & _).
  unfold storageClearCookies, bind.
  rewrite targetSessionIdOf_available with (s := session) by exact Hs.
  unfold sendToExtension. fold (getCookiesMessage session). rewrite Hget.
  rewrite Hc. simpl.
  now destruct (deleteEach _ _ _ _) as [[[]|e] sent'].
Qed.

End RouteFacts.

(** Either every deletion resolves, or there is a first one that is
    rejected. *)
Lemma first_rejection extension session cookies : forall sent,
  allResolve extension sent (deleteMessages session cookies) = false ->
  exists before cookie after reason,
    cookies = (before ++ cookie :: after)%list /\
    allResolve extension sent (deleteMessages session before) = true /\
    extension (sent ++ deleteMessages session before)%list
              (deleteMessage session cookie) = Rejected reason.
Proof.
  induction cookies as [|c rest IH]; intros sent H; simpl in H; [discriminate|].
  destruct (extension sent (deleteMessage session c)) as [r|reason] eqn:E.
  - simpl in H. destruct (IH _ H) as (before & cookie & after & e & -> & Hb & Hr).
    exists (c :: before), cookie, after, e. simpl. rewrite E. simpl.
    repeat split; auto.
    now rewrite (app_assoc sent [_] _ : (sent ++ _ :: _ = _)%list).
  - exists [], c, rest, reason. simpl. rewrite app_nil_r. auto.
Qed.


Import Examples ClientLink.

(** ** [Storage.clearCookies] *)

(** C1, as the claim states it, does not hold. With one partitioned
    cookie and an extension that resolves every request, the
    [Network.deleteCookies] request carries the name, the domain and the
    path of the cookie and no [partitionKey]. And when the deletion of the
    first of two cookies is rejected, the second cookie gets no request and
    the command ends with the rejection instead of the empty result. *)
Lemma clearCookies_without_partitionKey :
  routeCdpCommand (obliging [partitioned]) onePage noOtherCase
    "Storage.clearCookies" JUndefined None [] =
  (Return (JObject []),
   [forwardCDPCommand "S1" "Network.getCookies" (JObject []);
    forwardCDPCommand "S1" "Network.deleteCookies"
      (JObject [("name", JString "s"); ("domain", JString "example.com");
                ("path", JString "/")])]) /\
  ~ carries (forwardCDPCommand "S1" "Network.deleteCookies"
               (JObject [("name", JString "s");
                         ("domain", JString "example.com");
                         ("path", JString "/")]))
            partitioned "partitionKey" /\
  routeCdpCommand (refusing [partitioned; plain] "s") onePage noOtherCase
    "Storage.clearCookies" JUndefined None [] =
  (Throw (CdpError (-32000) "Cookie could not be deleted"),
   [forwardCDPCommand "S1" "Network.getCookies" (JObject []);
    forwardCDPCommand "S1" "Network.deleteCookies"
      (JObject [("name", JString "s"); ("domain", JString "example.com");
                ("path", JString "/")])]).
Proof.
  split; [reflexivity|]. split; [|reflexivity].
  unfold carries; simpl. intros H.
  assert (E : JUndefined =
              JObject [("topLevelSite", JString "https://example.com");
                       ("hasCrossSiteAncestor", JBool false)])
    by (apply H; discriminate).
  discriminate E.
Qed.

(** C1, amended: for every [Storage.clearCookies] handled while a session
    is available and whose extension calls all resolve, the relay sends one
    [Network.getCookies], then one [Network.deleteCookies] per returned
    cookie, in the order of the returned list, each with the name, the
    domain and the path of its cookie, and returns the empty result; with
    an empty cookie list the [Network.getCookies] is the only call. *)
Theorem clearCookies_fan_out extension connectedTargets existingCases
        params sid sent session result cookies :
  availableSession connectedTargets sid = Some session ->
  extension sent (getCookiesMessage session) = Resolved result ->
  returnedCookies result = Some cookies ->
  allResolve extension (sent ++ [getCookiesMessage session])%list
             (deleteMessages session cookies) = true ->
  routeCdpCommand extension connectedTargets existingCases
    "Storage.clearCookies" params sid sent =
  (Return (JObject []),
   (sent ++ forwardCDPCommand session "Network.getCookies" (JObject [])
         :: List.map
              (fun cookie =>
                 forwardCDPCommand session "Network.deleteCookies"
                   (JObject [("name", member cookie "name");
                             ("domain", member cookie "domain");
                             ("path", member cookie "path")]))
              cookies)%list) /\
  (cookies = [] ->
   snd (routeCdpCommand extension connectedTargets existingCases
          "Storage.clearCookies" params sid sent) =
   (sent ++ [forwardCDPCommand session "Network.getCookies" (JObject [])])%list).
Proof.
  intros Hs Hget Hret Hall.
  assert (Hrun :
    routeCdpCommand extension connectedTargets existingCases
      "Storage.clearCookies" params sid sent =
    (Return (JObject []),
     (sent ++ getCookiesMessage session :: deleteMessages session cookies)%list)).
  { rewrite route_clearCookies.
    rewrite storageClearCookies_run with (1 := Hs) (2 := Hget) (3 := Hret).
    apply returnedCookies_items in Hret as (_ & _ & _ & Hobj).
    rewrite (deleteEach_all_resolve extension session cookies _ Hobj Hall).
    now rewrite <- app_assoc. }
  split; [exact Hrun|].
  intros ->. now rewrite Hrun.
Qed.

Lemma clearCookies_fan_out_witness :
  routeCdpCommand (obliging [partitioned; plain]) onePage noOtherCase
    "Storage.clearCookies" JUndefined None [] =
  (Return (JObject []),
   [forwardCDPCommand "S1" "Network.getCookies" (JObject []);
    forwardCDPCommand "S1" "Network.deleteCookies"
      (JObject [("name", JString "s"); ("domain", JString "example.com");
                ("path", JString "/")]);
    forwardCDPCommand "S1" "Network.deleteCookies"
      (JObject [("name", JString "t"); ("domain", JString "example.com");
                ("path", JString "/")])]).
Proof.
  refine (proj1 (clearCookies_fan_out (obliging [partitioned; plain]) onePage
                   noOtherCase JUndefined None [] "S1"
                   (JObject [("cookies", JArray [partitioned; plain])])
                   [partitioned; plain] _ _ _ _));
    reflexivity.
Defined.

(** C2, as the claim states it, does not hold. With two cookies, when the
    first deletion resolves and the second is rejected, the command ends
    with the rejection, not with the empty result; and when the first
    deletion is rejected, the second cookie gets no request at all. *)
Lemma clearCookies_no_continuation :
  routeCdpCommand (refusing [partitioned; plain] "t") onePage noOtherCase
    "Storage.clearCookies" JUndefined None [] =
  (Throw (CdpError (-32000) "Cookie could not be deleted"),
   [forwardCDPCommand "S1" "Network.getCookies" (JObject []);
    forwardCDPCommand "S1" "Network.deleteCookies"
      (JObject [("name", JString "s"); ("domain", JString "example.com");
                ("path", JString "/")]);
    forwardCDPCommand "S1" "Network.deleteCookies"
      (JObject [("name", JString "t"); ("domain", JString "example.com");
                ("path", JString "/")])]) /\
  refusing [partitioned; plain] "t"
    [forwardCDPCommand "S1" "Network.getCookies" (JObject [])]
    (deleteMessage "S1" partitioned) = Resolved (JObject []) /\
  routeCdpCommand (refusing [partitioned; plain] "s") onePage noOtherCase
    "Storage.clearCookies" JUndefined None [] =
  (Throw (CdpError (-32000) "Cookie could not be deleted"),
   [forwardCDPCommand "S1" "Network.getCookies" (JObject []);
    forwardCDPCommand "S1" "Network.deleteCookies"
      (JObject [("name", JString "s"); ("domain", JString "example.com");
                ("path", JString "/")])]).
Proof. repeat split. Qed.

(** C2, amended: when a [Network.deleteCookies] is rejected the relay
    stops there. The request of the first rejected deletion is the last
    one it sends, and the command ends with the reason of that rejection,
    however many deletions resolved before it; the empty result is
    returned exactly when every deletion resolved. *)
Theorem clearCookies_first_failure extension connectedTargets existingCases
        params sid sent session result cookies :
  availableSession connectedTargets sid = Some session ->
  extension sent (getCookiesMessage session) = Resolved result ->
  returnedCookies result = Some cookies ->
  (allResolve extension (sent ++ [getCookiesMessage session])%list
              (deleteMessages session cookies) = true /\
   routeCdpCommand extension connectedTargets existingCases
     "Storage.clearCookies" params sid sent =
   (Return (JObject []),
    (sent ++ getCookiesMessage session :: deleteMessages session cookies)%list))
  \/
  (exists before cookie after reason,
     cookies = (before ++ cookie :: after)%list /\
     allResolve extension (sent ++ [getCookiesMessage session])%list
                (deleteMessages session before) = true /\
     extension
       (sent ++ getCookiesMessage session :: deleteMessages session before)%list
       (deleteMessage session cookie) = Rejected reason /\
     routeCdpCommand extension connectedTargets existingCases
       "Storage.clearCookies" params sid sent =
     (Throw reason,
      (sent ++ getCookiesMessage session
            :: deleteMessages session before ++ [deleteMessage session cookie])%list)).
Proof.
  intros Hs Hget Hret.
  rewrite route_clearCookies.
  rewrite storageClearCookies_run with (1 := Hs) (2 := Hget) (3 := Hret).
  apply returnedCookies_items in Hret as (_ & _ & _ & Hobj).
  destruct (allResolve extension (sent ++ [getCookiesMessage session])%list
              (deleteMessages session cookies)) eqn:Hall.
  - left. split; [reflexivity|].
    rewrite (deleteEach_all_resolve extension session cookies _ Hobj Hall).
    now rewrite <- app_assoc.
  - right.
    destruct (first_rejection extension session cookies _ Hall)
      as (before & cookie & after & reason & -> & Hb & Hr).
    exists before, cookie, after, reason.
    rewrite forallb_app in Hobj. apply andb_prop in Hobj as [Hob Hoc].
    simpl in Hoc. apply andb_prop in Hoc as [Hoc _].
    rewrite deleteEach_first_rejection
      with (1 := Hob) (2 := Hoc) (3 := Hb) (4 := Hr).
    rewrite <- !app_assoc in *. simpl in *. auto.
Qed.

Lemma clearCookies_first_failure_witness :
  (allResolve (refusing [partitioned; plain] "t")
     [getCookiesMessage "S1"] (deleteMessages "S1" [partitioned; plain]) = true /\
   routeCdpCommand (refusing [partitioned; plain] "t") onePage noOtherCase
     "Storage.clearCookies" JUndefined None [] =
   (Return (JObject []),
    [getCookiesMessage "S1"; deleteMessage "S1" partitioned;
     deleteMessage "S1" plain]))
  \/
  (exists before cookie after reason,
     [partitioned; plain] = (before ++ cookie :: after)%list /\
     allResolve (refusing [partitioned; plain] "t")
       [getCookiesMessage "S1"] (deleteMessages "S1" before) = true /\
     refusing [partitioned; plain] "t"
       (getCookiesMessage "S1" :: deleteMessages "S1" before)
       (deleteMessage "S1" cookie) = Rejected reason /\
     routeCdpCommand (refusing [partitioned; plain] "t") onePage noOtherCase
       "Storage.clearCookies" JUndefined None [] =
     (Throw reason,
      getCookiesMessage "S1"
        :: (deleteMessages "S1" before ++ [deleteMessage "S1" cookie])%list)).
Proof.
  refine (clearCookies_first_failure (refusing [partitioned; plain] "t") onePage
            noOtherCase JUndefined None [] "S1"
            (JObject [("cookies", JArray [partitioned; plain])])
            [partitioned; plain] _ _ _);
    reflexivity.
Defined.

(** ** No session *)

(** C3, as the claim states it, does not hold. With no target attached,
    [{id: 3, method: "Storage.getCookies"}] is answered with code -32000
    and nothing is sent to the extension, but the message reads
    "No pages available ...": it does not contain "no page". *)
Lemma no_session_message_is_capitalised :
  handleCommand (obliging []) [] noOtherCase
    {| cmd_id := 3; cmd_method := "Storage.getCookies";
       cmd_params := JUndefined; cmd_sessionId := None |} [] =
  (Some (ErrorFrame 3 (-32000)
     "No pages available for cookie operation. Click the playwriter extension icon on a tab first."),
   []) /\
  includes
    "No pages available for cookie operation. Click the playwriter extension icon on a tab first."
    "no page" = false.
Proof. split; reflexivity. Qed.

(** C3, amended: whenever a Storage cookie command arrives carrying no
    sessionId and no session is available, the relay answers the client
    with a CDP error of code -32000 whose message names the missing page
    context, "No pages available ..." (it contains "no page" up to the
    case of the first letter), without sending anything to the
    extension. *)
Theorem no_session_error extension connectedTargets existingCases frame sent :
  cookieMethod (cmd_method frame) = true ->
  cmd_sessionId frame = None ->
  availableSession connectedTargets None = None ->
  handleCommand extension connectedTargets existingCases frame sent =
  (Some (ErrorFrame (cmd_id frame) (-32000) NO_PAGES), sent) /\
  includes NO_PAGES "No pages available" = true /\
  includes (toLowerCase NO_PAGES) "no page" = true.
Proof.
  intros Hm Hsid Hnone. split; [|split; reflexivity].
  destruct frame as [id method params sid]; simpl in *. subst sid.
  unfold handleCommand; simpl.
  destruct (cookieMethod_cases _ Hm) as [ -> | [ -> | -> ] ];
    [rewrite route_getCookies; unfold storageGetCookies
    |rewrite route_setCookies; unfold storageSetCookies
    |rewrite route_clearCookies; unfold storageClearCookies];
    unfold bind; now rewrite targetSessionIdOf_unavailable.
Qed.

Lemma no_session_error_witness :
  handleCommand (obliging []) [] noOtherCase
    {| cmd_id := 3; cmd_method := "Storage.clearCookies";
       cmd_params := JUndefined; cmd_sessionId := None |} [] =
  (Some (ErrorFrame 3 (-32000) NO_PAGES), []) /\
  includes NO_PAGES "No pages available" = true /\
  includes (toLowerCase NO_PAGES) "no page" = true.
Proof.
  refine (no_session_error (obliging []) [] noOtherCase
            {| cmd_id := 3; cmd_method := "Storage.clearCookies";
               cmd_params := JUndefined; cmd_sessionId := None |} [] _ _ _);
    reflexivity.
Defined.

(** The design of [specs/features.md] answers the same way: each of its
    three cases throws before anything is sent. *)
Lemma design_no_session extension extensionWs activeSessions params sid sent :
  availableSessionF extensionWs activeSessions sid = None ->
  FeaturesDesign.storageGetCookies extension extensionWs activeSessions sid sent =
    (Throw (Error_ FeaturesDesign.NO_PAGES), sent) /\
  FeaturesDesign.storageSetCookies extension extensionWs activeSessions params
    sid sent = (Throw (Error_ FeaturesDesign.NO_PAGES), sent) /\
  FeaturesDesign.storageClearCookies extension extensionWs activeSessions
    sid sent = (Throw (Error_ FeaturesDesign.NO_PAGES), sent) /\
  replyFrame 3 (Throw (Error_ FeaturesDesign.NO_PAGES)) =
    Some (ErrorFrame 3 (-32000) FeaturesDesign.NO_PAGES) /\
  includes (toLowerCase FeaturesDesign.NO_PAGES) "no page" = true.
Proof.
  intros H.
  assert (E : FeaturesDesign.sessionOr extensionWs activeSessions sid sent =
              (Throw (Error_ FeaturesDesign.NO_PAGES), sent)).
  { unfold availableSessionF in H. unfold FeaturesDesign.sessionOr.
    destruct sid as [s|]; simpl in *.
    - destruct (negb (s =? EmptyString)%string); [discriminate|].
      unfold FeaturesDesign.getAnyActiveSession.
      destruct extensionWs, activeSessions; try discriminate; reflexivity.
    - unfold FeaturesDesign.getAnyActiveSession.
      destruct extensionWs, activeSessions; try discriminate; reflexivity. }
  unfold FeaturesDesign.storageGetCookies, FeaturesDesign.storageSetCookies,
    FeaturesDesign.storageClearCookies, bind.
  rewrite E. repeat split.
Qed.

(** ** The session a cookie command runs on *)

Lemma deleteEach_on_session extension session cookies : forall sent,
  exists requests,
    snd (deleteEach extension session cookies sent) = (sent ++ requests)%list /\
    Forall (onSession session) requests.
Proof.
  induction cookies as [|cookie rest IH]; intros sent; simpl.
  - exists []. now rewrite app_nil_r.
  - unfold bind, deleteCookie, get_member.
    destruct (nullish cookie); simpl.
    + exists []. now rewrite app_nil_r.
    + unfold bind, sendToExtension; simpl.
      destruct (extension sent _); simpl.
      * destruct (IH (sent ++ [forwardCDPCommand session "Network.deleteCookies"
                                 (deleteCookiesParams (member cookie "name")
                                    (member cookie "domain")
                                    (member cookie "path"))])%list)
          as (requests & E & F).
        eexists (_ :: requests). rewrite E, <- app_assoc. simpl.
        split; [reflexivity|]. constructor; [reflexivity|exact F].
      * eexists [_]. split; [reflexivity|]. repeat constructor.
Qed.

(** Every cookie command that finds a session sends its first request,
    and all the others, on that session. *)
Lemma cookie_command_on_session extension connectedTargets existingCases
      method params sid sent session :
  cookieMethod method = true ->
  availableSession connectedTargets sid = Some session ->
  exists first others,
    snd (routeCdpCommand extension connectedTargets existingCases
           method params sid sent) = (sent ++ first :: others)%list /\
    Forall (onSession session) (first :: others).
Proof.
  intros Hm Hs.
  destruct (cookieMethod_cases _ Hm) as [ -> | [ -> | -> ] ].
  - rewrite route_getCookies. unfold storageGetCookies, bind.
    rewrite targetSessionIdOf_available with (1 := Hs).
    eexists _, []. split; [reflexivity|]. repeat constructor.
  - rewrite route_setCookies. unfold storageSetCookies, bind.
    rewrite targetSessionIdOf_available with (1 := Hs).
    eexists _, []. split; [reflexivity|]. repeat constructor.
  - rewrite route_clearCookies. unfold storageClearCookies, bind.
    rewrite targetSessionIdOf_available with (1 := Hs).
    unfold sendToExtension at 1.
    destruct (extension sent _) as [result|reason].
    + destruct (iterate _ _) as [[items|e] sent'] eqn:Hit.
      * assert (sent' = (sent ++ [forwardCDPCommand session "Network.getCookies"
                                    (JObject [])])%list) as ->.
        { unfold iterate in Hit.
          destruct (or_else _ _); unfold ret, throw in Hit; congruence. }
        destruct (deleteEach_on_session extension session items
                    (sent ++ [forwardCDPCommand session "Network.getCookies"
                                (JObject [])])%list) as (requests & E & F).
        destruct (deleteEach _ _ _ _) as [[[]|e] sent''] eqn:Hd;
          simpl in E; subst sent''; simpl;
          exists (forwardCDPCommand session "Network.getCookies" (JObject [])),
                 requests; rewrite <- app_assoc;
          (split; [reflexivity|constructor; [reflexivity|exact F]]).
      * assert (sent' = (sent ++ [forwardCDPCommand session "Network.getCookies"
                                    (JObject [])])%list) as ->.
        { unfold iterate in Hit.
          destruct (or_else _ _); unfold ret, throw in Hit; congruence. }
        eexists _, []. split; [reflexivity|]. repeat constructor.
    + eexists _, []. split; [reflexivity|]. repeat constructor.
Qed.

(** A target attached under a new key goes last in the registry. *)
Lemma Map_values_set_new {V} (m : Map V) k v :
  Map_has m k = false ->
  Map_values (Map_set m k v) = (Map_values m ++ [v])%list.
Proof.
  unfold Map_values. induction m as [|[k' v'] rest IH]; simpl; [reflexivity|].
  destruct (k =? k')%string; simpl; [discriminate|].
  intros H. now rewrite IH.
Qed.

(** The registry keeps every target with its session: the empty registry
    does, and so does a registry after a target is attached with its
    session or detached. *)
Lemma sessionsBound_attach connectedTargets key target :
  sessionsBound connectedTargets = true ->
  hasOpenSession target = true ->
  sessionsBound (Map_set connectedTargets key target) = true.
Proof.
  unfold sessionsBound, Map_values. intros Hb Ht.
  induction connectedTargets as [|[k' v'] rest IH]; simpl in *.
  - now rewrite Ht.
  - apply andb_prop in Hb as [Hv Hrest].
    destruct (key =? k')%string; simpl.
    + now rewrite Ht, Hrest.
    + now rewrite Hv, IH.
Qed.

Lemma sessionsBound_detach connectedTargets key :
  sessionsBound connectedTargets = true ->
  sessionsBound (Map_delete connectedTargets key) = true.
Proof.
  unfold sessionsBound, Map_values. intros Hb.
  induction connectedTargets as [|[k' v'] rest IH]; simpl in *; [reflexivity|].
  apply andb_prop in Hb as [Hv Hrest].
  destruct (key =? k')%string; simpl; [exact Hrest|].
  now rewrite Hv, IH.
Qed.

(** C4: for every rewritten Storage cookie command that carries no
    sessionId, when at least one target has an open session, the session
    chosen is the one bound to the earliest-attached target that has an
    open session, for every state of the target registry: every request
    of the command is sent on that session, and a target attached later
    does not change the choice. The registry holds each target with the
    session it was attached on. *)
Theorem earliest_target_session connectedTargets :
  sessionsBound connectedTargets = true ->
  existsb hasOpenSession (Map_values connectedTargets) = true ->
  exists chosen,
    earliestOpenSession connectedTargets = Some chosen /\
    getAnyActiveSessionId connectedTargets = Some chosen /\
    availableSession connectedTargets None = Some chosen /\
    (forall extension existingCases method params sent,
       cookieMethod method = true ->
       exists request more,
         snd (routeCdpCommand extension connectedTargets existingCases
                method params None sent) = (sent ++ request :: more)%list /\
         Forall (onSession chosen) (request :: more)) /\
    (forall key later,
       Map_has connectedTargets key = false ->
       earliestOpenSession (Map_set connectedTargets key later) = Some chosen /\
       availableSession (Map_set connectedTargets key later) None = Some chosen).
Proof.
  intros Hbound Hsome.
  destruct (Map_values connectedTargets) as [|first others] eqn:Hv;
    [discriminate|].
  assert (Hopen : hasOpenSession first = true).
  { unfold sessionsBound in Hbound. rewrite Hv in Hbound. simpl in Hbound.
    now apply andb_prop in Hbound as [H _]. }
  assert (Hchoice : forall registry rest,
            Map_values registry = first :: rest ->
            earliestOpenSession registry = Some (sessionId first) /\
            getAnyActiveSessionId registry = Some (sessionId first) /\
            availableSession registry None = Some (sessionId first)).
  { intros registry rest Hr.
    assert (Hg : getAnyActiveSessionId registry = Some (sessionId first)).
    { unfold getAnyActiveSessionId, Map_first_value. now rewrite Hr. }
    split; [unfold earliestOpenSession; rewrite Hr; simpl; now rewrite Hopen|].
    split; [exact Hg|].
    unfold availableSession. rewrite Hg.
    unfold hasOpenSession in Hopen. simpl. now rewrite Hopen. }
  destruct (Hchoice connectedTargets others Hv) as (He & Hg & Ha).
  exists (sessionId first).
  split; [exact He|]. split; [exact Hg|]. split; [exact Ha|]. split.
  - intros extension existingCases method params sent Hm.
    now apply cookie_command_on_session.
  - intros key later Hnew.
    destruct (Hchoice (Map_set connectedTargets key later)
                (others ++ [later])%list) as (He' & _ & Ha').
    { now rewrite (Map_values_set_new connectedTargets key later Hnew), Hv. }
    split; assumption.
Qed.

Lemma earliest_target_session_witness :
  exists chosen,
    earliestOpenSession twoPages = Some chosen /\
    getAnyActiveSessionId twoPages = Some chosen /\
    availableSession twoPages None = Some chosen /\
    (forall extension existingCases method params sent,
       cookieMethod method = true ->
       exists request more,
         snd (routeCdpCommand extension twoPages existingCases
                method params None sent) = (sent ++ request :: more)%list /\
         Forall (onSession chosen) (request :: more)) /\
    (forall key later,
       Map_has twoPages key = false ->
       earliestOpenSession (Map_set twoPages key later) = Some chosen /\
       availableSession (Map_set twoPages key later) None = Some chosen).
Proof.
  refine (earliest_target_session twoPages _ _); reflexivity.
Defined.

(** ** [Storage.getCookies] *)

(** C5: for every [Storage.getCookies] handled while a session is
    available, the relay sends the extension one [Network.getCookies] with
    empty parameters (no [urls]) on the chosen session, and when the
    extension replies, its result goes to the client unchanged under the
    id of the client's request. *)
Theorem getCookies_rewrite extension connectedTargets existingCases frame sent
        session result :
  cmd_method frame = "Storage.getCookies" ->
  availableSession connectedTargets (cmd_sessionId frame) = Some session ->
  extension sent (forwardCDPCommand session "Network.getCookies" (JObject []))
    = Resolved result ->
  routeCdpCommand extension connectedTargets existingCases
    (cmd_method frame) (cmd_params frame) (cmd_sessionId frame) sent =
  (Return result,
   (sent ++ [forwardCDPCommand session "Network.getCookies" (JObject [])])%list) /\
  handleCommand extension connectedTargets existingCases frame sent =
  (Some (ResultFrame (cmd_id frame) result),
   (sent ++ [forwardCDPCommand session "Network.getCookies" (JObject [])])%list) /\
  member (JObject []) "urls" = JUndefined.
Proof.
  intros Hm Hs Hr.
  assert (E : routeCdpCommand extension connectedTargets existingCases
                (cmd_method frame) (cmd_params frame) (cmd_sessionId frame) sent =
              (Return result,
               (sent ++ [forwardCDPCommand session "Network.getCookies"
                           (JObject [])])%list)).
  { rewrite Hm, route_getCookies. unfold storageGetCookies, bind.
    rewrite targetSessionIdOf_available with (1 := Hs).
    unfold sendToExtension. now rewrite Hr. }
  split; [exact E|]. split; [|reflexivity].
  unfold handleCommand. now rewrite E.
Qed.

Lemma getCookies_rewrite_witness :
  handleCommand (obliging [plain]) onePage noOtherCase
    {| cmd_id := 1; cmd_method := "Storage.getCookies";
       cmd_params := JUndefined; cmd_sessionId := None |} [] =
  (Some (ResultFrame 1 (JObject [("cookies", JArray [plain])])),
   [forwardCDPCommand "S1" "Network.getCookies" (JObject [])]).
Proof.
  refine (proj1 (proj2 (getCookies_rewrite (obliging [plain]) onePage noOtherCase
            {| cmd_id := 1; cmd_method := "Storage.getCookies";
               cmd_params := JUndefined; cmd_sessionId := None |} []
            "S1" (JObject [("cookies", JArray [plain])]) _ _ _)));
    reflexivity.
Defined.

(** ** Versions *)

Import Version.

Lemma partAt_tl parts i : partAt parts (S i) = partAt (tl parts) i.
Proof.
  unfold partAt. destruct parts as [|x rest]; simpl; [|reflexivity].
  now destruct i.
Qed.

Lemma compareFrom_tl remaining : forall parts1 parts2 i,
  compareFrom parts1 parts2 (S i) remaining =
  compareFrom (tl parts1) (tl parts2) i remaining.
Proof.
  induction remaining as [|r IH]; intros parts1 parts2 i; simpl; [reflexivity|].
  rewrite !partAt_tl, IH. reflexivity.
Qed.

(** Swapping the arguments changes the sign of the result. *)
Lemma compareFrom_swap remaining : forall parts1 parts2 i,
  compareFrom parts1 parts2 i remaining = - compareFrom parts2 parts1 i remaining.
Proof.
  induction remaining as [|r IH]; intros parts1 parts2 i; simpl; [reflexivity|].
  rewrite (Z.eqb_sym (partAt parts2 i)).
  destruct (partAt parts1 i =? partAt parts2 i); simpl; [apply IH|lia].
Qed.

(** Parts that agree at every index compare equal. *)
Lemma compareFrom_agree remaining : forall parts1 parts2 i,
  (forall j, partAt parts1 j = partAt parts2 j) ->
  compareFrom parts1 parts2 i remaining = 0.
Proof.
  induction remaining as [|r IH]; intros parts1 parts2 i H; simpl; [reflexivity|].
  rewrite H, Z.eqb_refl. simpl. now apply IH.
Qed.






Lemma compareVersions_swap v1 v2 :
  compareVersions v1 v2 = - compareVersions v2 v1.
Proof.
  unfold compareVersions. rewrite Nat.max_comm. apply compareFrom_swap.
Qed.

Lemma compareVersions_refl v : compareVersions v v = 0.
Proof. unfold compareVersions. now apply compareFrom_agree. Qed.


(** On a numeric version [Number] reads every component as its value. *)
Lemma numeric_parts v :
  numericVersion v = true ->
  List.map Number (split v) = List.map Num (components v).
Proof.
  unfold numericVersion, components. rewrite map_map.
  induction (split v) as [|s rest IH]; simpl; [reflexivity|].
  intros H. apply andb_prop in H as [Hs Hrest].
  rewrite IH by exact Hrest. f_equal.
  unfold isDigits in Hs. apply andb_prop in Hs as [_ Hs].
  unfold Number, componentValue. now destruct (decimal 0 s).
Qed.

Lemma padTo_cons n a :
  (List.length a <= S n)%nat ->
  padTo (S n) a = hd 0 a :: padTo n (tl a).
Proof.
  unfold padTo. destruct a as [|x a]; simpl; [|reflexivity].
  now rewrite Nat.sub_0_r.
Qed.

(** The loop of [compareVersions] and the order of versions agree: the
    sign of the number returned is the comparison of the padded lists. *)
Lemma compareFrom_lexCompare n : forall a b,
  (List.length a <= n)%nat -> (List.length b <= n)%nat ->
  (compareFrom (List.map Num a) (List.map Num b) 0 n ?= 0) =
  lexCompare (padTo n a) (padTo n b).
Proof.
  induction n as [|n IH]; intros a b Ha Hb.
  - destruct a, b; simpl in *; try lia. reflexivity.
  - rewrite !padTo_cons by assumption. simpl.
    rewrite compareFrom_tl.
    assert (Hp : forall l, partAt (List.map Num l) 0 = hd 0 l)
      by (intros [|x l]; reflexivity).
    assert (Ht : forall l, tl (List.map Num l) = List.map Num (tl l))
      by (intros [|x l]; reflexivity).
    rewrite !Hp, !Ht.
    destruct (Z.eqb_spec (hd 0 a) (hd 0 b)) as [E|E]; simpl.
    + rewrite E, Z.compare_refl. apply IH.
      * destruct a; simpl in *; lia.
      * destruct b; simpl in *; lia.
    + rewrite <- Z.compare_sub.
      destruct (hd 0 a ?= hd 0 b) eqn:C; try reflexivity.
      apply Z.compare_eq in C. contradiction.
Qed.

Lemma compareVersions_versionCompare v1 v2 :
  numericVersion v1 = true -> numericVersion v2 = true ->
  (compareVersions v1 v2 ?= 0) = versionCompare (components v1) (components v2).
Proof.
  intros H1 H2. unfold compareVersions, versionCompare.
  rewrite (numeric_parts v1 H1), (numeric_parts v2 H2), !length_map.
  apply compareFrom_lexCompare; lia.
Qed.

(** ** The lifecycle supervisor *)

Import Errors ExtensionStatus PersistentRelay SupervisorNotions.

Section SupervisorFacts.

Variable VERSION : string.
Variable LOG_FILE_PATH : string.
Variable host : Host.

Lemma getServerVersion_run p w :
  getServerVersion host p w =
  (versionAt host (fetches w),
   {| now := now w + Z.of_N (latency host (fetches w));
      fetches := S (fetches w);
      effects := (effects w ++ [Fetch (versionUrl p) 500])%list |}).
Proof.
  unfold getServerVersion, fetch, versionAt.
  destruct (versionReply host (fetches w)) as [r|]; [|reflexivity].
  now destruct (ok r).
Qed.

Lemma pollStatus_run p w :
  pollStatus host p w =
  (statusAt host (fetches w),
   {| now := now w + Z.of_N (latency host (fetches w));
      fetches := S (fetches w);
      effects := (effects w ++ [Fetch (statusUrl p) 1000])%list |}).
Proof.
  unfold pollStatus, fetch, statusAt.
  destruct (statusReply host (fetches w)) as [r|]; [|reflexivity].
  now destruct (ok r).
Qed.

Lemma pollBound_enough timeout : timeout <= 500 * Z.of_nat (pollBound timeout).
Proof.
  unfold pollBound. rewrite Nat2Z.inj_succ.
  destruct (Z.le_gt_cases timeout 0) as [H|H]; [lia|].
  rewrite Z2Nat.id by (apply Z.div_pos; lia).
  pose proof (Z.mul_succ_div_gt timeout 500). lia.
Qed.

(** The loop of [ensurePersistentRelay] sleeps and probes, turn after
    turn: it returns at the first probe that meets the expected version,
    and throws once the timeout has elapsed without one. It never runs out
    of turns. *)
Lemma pollVersion_run p timeout startTime fuel : forall w,
  timeout - (now w - startTime) <= 500 * Z.of_nat fuel ->
  exists k w',
    effects w' = (effects w ++ versionPolls p k)%list /\
    (((0 < k)%nat /\
      versionAt host (fetches w + k - 1) = Some VERSION /\
      pollVersion VERSION LOG_FILE_PATH host fuel p timeout startTime w =
        (Some (Return {| started := true; version := VERSION;
                         result_port := p |}), w'))
     \/
     (pollVersion VERSION LOG_FILE_PATH host fuel p timeout startTime w =
        (Some (Throw (RelayServerStartError LOG_FILE_PATH p)), w') /\
      timeout <= now w' - startTime /\
      now w <= now w')).
Proof.
  induction fuel as [|fuel IH]; intros w Hfuel.
  - exists O, w. simpl.
    destruct (Z.ltb_spec (now w - startTime) timeout) as [Hlt|Hge]; [lia|].
    rewrite app_nil_r. split; [reflexivity|]. right.
    split; [reflexivity|]. split; lia.
  - cbn [pollVersion].
    destruct (Z.ltb_spec (now w - startTime) timeout) as [Hlt|Hge].
    + rewrite getServerVersion_run. cbn [sleep now fetches effects].
      pose proof (N2Z.is_nonneg (latency host (fetches w))) as Hlat.
      set (w2 := {| now := now w + Z.max 0 500 +
                           Z.of_N (latency host (fetches w));
                    fetches := S (fetches w);
                    effects := ((effects w ++ [Sleep 500]) ++
                                [Fetch (versionUrl p) 500])%list |}).
      assert (Hcontinue : exists k w',
        effects w' = (effects w ++ versionPolls p k)%list /\
        (((0 < k)%nat /\
          versionAt host (fetches w + k - 1) = Some VERSION /\
          pollVersion VERSION LOG_FILE_PATH host fuel p timeout startTime w2 =
            (Some (Return {| started := true; version := VERSION;
                             result_port := p |}), w'))
         \/
         (pollVersion VERSION LOG_FILE_PATH host fuel p timeout startTime w2 =
            (Some (Throw (RelayServerStartError LOG_FILE_PATH p)), w') /\
          timeout <= now w' - startTime /\
          now w <= now w'))).
      { destruct (IH w2) as (k & w' & Heff & Hend).
        - subst w2. cbn [now]. rewrite Nat2Z.inj_succ in Hfuel. lia.
        - exists (S k), w'. split.
          + rewrite Heff. unfold versionPolls. simpl. now rewrite <- !app_assoc.
          + destruct Hend as [(Hk & Hv & Hrun)|(Hrun & Hout & Hnow)].
            * left. split; [lia|]. split; [|exact Hrun].
              cbn [fetches w2] in Hv.
              replace (fetches w + S k - 1)%nat
                with (S (fetches w) + k - 1)%nat by lia.
              exact Hv.
            * right. split; [exact Hrun|]. cbn [now w2] in Hnow.
              split; lia. }
      destruct (versionAt host (fetches w)) as [s|] eqn:Hv; [|exact Hcontinue].
      destruct (String.eqb_spec s VERSION) as [->|_]; [|exact Hcontinue].
      exists 1%nat, w2. split.
      * unfold versionPolls. simpl. now rewrite <- !app_assoc.
      * left. split; [lia|]. split; [|reflexivity].
        now replace (fetches w + 1 - 1)%nat with (fetches w) by lia.
    + exists O, w. rewrite app_nil_r. split; [reflexivity|]. right.
      split; [reflexivity|]. split; lia.
Qed.

(** When the version served compares greater than or equal to the
    expected one, nothing but the first probe happens. *)
Lemma ensurePersistentRelay_current options w reported :
  versionAt host (fetches w) = Some reported ->
  0 <= compareVersions reported VERSION ->
  exists w',
    ensurePersistentRelay VERSION LOG_FILE_PATH host options w =
      (Some (Return {| started := false; version := reported;
                       result_port := portOf options |}), w') /\
    effects w' = (effects w ++ [Fetch (versionUrl (portOf options)) 500])%list.
Proof.
  intros Hv Hcmp. unfold ensurePersistentRelay.
  rewrite getServerVersion_run, Hv.
  destruct (Z.leb_spec 0 (compareVersions reported VERSION)) as [_|H]; [|lia].
  eexists. split; reflexivity.
Qed.

End SupervisorFacts.

Import Hosts.

(** C6: whenever the probe of [/version] succeeds and the version it
    reports is the expected one or strictly greater,
    [ensurePersistentRelay] returns [{ started: false }] with the reported
    version and the port; the probe is all it does: no process is killed
    and none is spawned. *)
Theorem ensurePersistentRelay_up_to_date VERSION LOG_FILE_PATH host options w
        reported :
  versionAt host (fetches w) = Some reported ->
  equalOrGreater reported VERSION ->
  exists w',
    ensurePersistentRelay VERSION LOG_FILE_PATH host options w =
      (Some (Return {| started := false; version := reported;
                       result_port := portOf options |}), w') /\
    effects w' = (effects w ++ [Fetch (versionUrl (portOf options)) 500])%list.
Proof.
  intros Hv Hge. apply ensurePersistentRelay_current; [exact Hv|].
  destruct Hge as [->|(Hr & He & Hgt)].
  - rewrite compareVersions_refl. lia.
  - rewrite <- (compareVersions_versionCompare reported VERSION Hr He) in Hgt.
    apply Z.compare_gt_iff in Hgt. lia.
Qed.

Lemma ensurePersistentRelay_up_to_date_witness :
  exists w',
    ensurePersistentRelay "0.0.47" "/tmp/playwriter/relay-server.log"
      (serving "0.1.0") None boot =
      (Some (Return {| started := false; version := "0.1.0";
                       result_port := 19988 |}), w') /\
    effects w' = [Fetch "http://127.0.0.1:19988/version" 500].
Proof.
  refine (ensurePersistentRelay_up_to_date "0.0.47"
            "/tmp/playwriter/relay-server.log" (serving "0.1.0") None boot
            "0.1.0" _ _).
  - reflexivity.
  - right. repeat split.
Defined.

(** C7: once the detached child is spawned, [ensurePersistentRelay]
    polls [/version], each time after a sleep of 500 ms; if none of the
    polls it makes before the timeout has elapsed meets the expected
    version, it does not return: it throws a [RelayServerStartError] that
    carries the port. *)
Theorem ensurePersistentRelay_start_timeout VERSION LOG_FILE_PATH host options w :
  match versionAt host (fetches w) with
  | Some existing => compareVersions existing VERSION < 0
  | None => True
  end ->
  exists k w' outcome,
    ensurePersistentRelay VERSION LOG_FILE_PATH host options w =
      (Some outcome, w') /\
    effects w' =
      (effects w ++ Fetch (versionUrl (portOf options)) 500
         :: startEffects host (portOf options) (versionAt host (fetches w))
         ++ versionPolls (portOf options) k)%list /\
    ((forall j, (1 <= j <= k)%nat ->
                versionAt host (fetches w + j) <> Some VERSION) ->
     outcome = Throw (RelayServerStartError LOG_FILE_PATH (portOf options)) /\
     startTimeoutOf options <= now w' - now w) /\
    port (RelayServerStartError LOG_FILE_PATH (portOf options)) = portOf options /\
    name (RelayServerStartError LOG_FILE_PATH (portOf options)) =
      "RelayServerStartError" /\
    message (RelayServerStartError LOG_FILE_PATH (portOf options)) =
      "[Playwriter] Failed to start relay server. Check logs at: "
        ++ LOG_FILE_PATH ++ " (port " ++ number_to_string (portOf options) ++ ")".
Proof.
  intros Hold.
  unfold ensurePersistentRelay. rewrite getServerVersion_run.
  fold (portOf options). fold (startTimeoutOf options).
  set (p := portOf options). set (timeout := startTimeoutOf options).
  set (w1 := {| now := now w + Z.of_N (latency host (fetches w));
                fetches := S (fetches w);
                effects := (effects w ++ [Fetch (versionUrl p) 500])%list |}).
  pose proof (N2Z.is_nonneg (latency host (fetches w))) as Hlat.
  assert (Hpoll : forall w3,
    fetches w3 = S (fetches w) -> now w1 <= now w3 ->
    effects w3 = (effects w1 ++
                  startEffects host p (versionAt host (fetches w)))%list ->
    exists k w' outcome,
      pollVersion VERSION LOG_FILE_PATH host (pollBound timeout) p timeout
        (now w3) w3 = (Some outcome, w') /\
      effects w' =
        (effects w ++ Fetch (versionUrl p) 500
           :: startEffects host p (versionAt host (fetches w))
           ++ versionPolls p k)%list /\
      ((forall j, (1 <= j <= k)%nat ->
                  versionAt host (fetches w + j) <> Some VERSION) ->
       outcome = Throw (RelayServerStartError LOG_FILE_PATH p) /\
       timeout <= now w' - now w) /\
      port (RelayServerStartError LOG_FILE_PATH p) = p /\
      name (RelayServerStartError LOG_FILE_PATH p) = "RelayServerStartError" /\
      message (RelayServerStartError LOG_FILE_PATH p) =
        "[Playwriter] Failed to start relay server. Check logs at: "
          ++ LOG_FILE_PATH ++ " (port " ++ number_to_string p ++ ")").
  { intros w3 Hf Hn He.
    destruct (pollVersion_run VERSION LOG_FILE_PATH host p timeout (now w3)
                (pollBound timeout) w3) as (k & w' & Heff & Hend).
    - pose proof (pollBound_enough timeout). lia.
    - assert (Heff' : effects w' =
                (effects w ++ Fetch (versionUrl p) 500
                   :: startEffects host p (versionAt host (fetches w))
                   ++ versionPolls p k)%list).
      { rewrite Heff, He. simpl. rewrite <- !app_assoc. reflexivity. }
      destruct Hend as [(Hk & Hv & Hrun)|(Hrun & Hout & Hnow)].
      + exists k, w', (Return {| started := true; version := VERSION;
                                 result_port := p |}).
        split; [exact Hrun|]. split; [exact Heff'|]. split.
        * intros Hnever. exfalso. apply (Hnever k); [lia|].
          rewrite Hf in Hv.
          now replace (fetches w + k)%nat with (S (fetches w) + k - 1)%nat by lia.
        * split; [reflexivity|]. split; reflexivity.
      + exists k, w', (Throw (RelayServerStartError LOG_FILE_PATH p)).
        split; [exact Hrun|]. split; [exact Heff'|]. split.
        * intros _. split; [reflexivity|]. simpl in Hn. lia.
        * split; [reflexivity|]. split; reflexivity. }
  destruct (versionAt host (fetches w)) as [existing|] eqn:Hv.
  - destruct (Z.leb_spec 0 (compareVersions existing VERSION)) as [H|_]; [lia|].
    apply Hpoll; unfold spawnServer, killOldVersion, startEffects;
      destruct (killPortProcessThrows host), (development host); simpl;
      rewrite <- ?app_assoc; simpl; try reflexivity; lia.
  - apply Hpoll; unfold spawnServer, startEffects;
      destruct (development host); simpl;
      rewrite <- ?app_assoc; simpl; try reflexivity; lia.
Qed.

Lemma ensurePersistentRelay_start_timeout_witness :
  exists k w' outcome,
    ensurePersistentRelay "0.0.47" "/tmp/playwriter/relay-server.log"
      silent quick boot = (Some outcome, w') /\
    effects w' =
      ([] ++ Fetch (versionUrl 19988) 500
          :: startEffects silent 19988 None ++ versionPolls 19988 k)%list /\
    ((forall j, (1 <= j <= k)%nat -> versionAt silent (0 + j) <> Some "0.0.47") ->
     outcome = Throw (RelayServerStartError "/tmp/playwriter/relay-server.log"
                        19988) /\
     1000 <= now w' - 0) /\
    port (RelayServerStartError "/tmp/playwriter/relay-server.log" 19988)
      = 19988 /\
    name (RelayServerStartError "/tmp/playwriter/relay-server.log" 19988)
      = "RelayServerStartError" /\
    message (RelayServerStartError "/tmp/playwriter/relay-server.log" 19988) =
      "[Playwriter] Failed to start relay server. Check logs at: "
        ++ "/tmp/playwriter/relay-server.log" ++ " (port "
        ++ number_to_string 19988 ++ ")".
Proof.
  refine (ensurePersistentRelay_start_timeout "0.0.47"
            "/tmp/playwriter/relay-server.log" silent quick boot _).
  exact I.
Defined.



(** ** Waiting for the extension *)

Section WaitFacts.

Variable host : Host.

Lemma waitBound_enough timeout interval :
  0 < interval ->
  timeout <= interval * Z.of_nat (waitBound timeout interval).
Proof.
  intros Hi. unfold waitBound. rewrite Nat2Z.inj_succ.
  destruct (Z.le_gt_cases timeout 0) as [H|H]; [nia|].
  rewrite Z2Nat.id by (apply Z.div_pos; lia).
  pose proof (Z.mul_succ_div_gt timeout interval Hi). lia.
Qed.

(** The loop of [waitForExtension] returns at the first poll that reports
    a connected extension with a page, without sleeping again; when no
    poll does before the timeout has elapsed, it throws. It never runs out
    of turns when the interval is positive. *)
Lemma pollExtension_run p timeout interval startTime fuel : forall w,
  0 < interval ->
  timeout - (now w - startTime) <= interval * Z.of_nat fuel ->
  exists k w',
    (forall j, (j < k)%nat -> readyAt host (fetches w + j) = false) /\
    ((exists st,
        statusAt host (fetches w + k) = Some st /\ ready st = true /\
        pollExtension host fuel p timeout interval startTime w =
          (Some (Return {| wait_connected := true;
                           wait_pageCount := pageCount st |}), w') /\
        effects w' = (effects w ++ statusPolls p interval k
                        ++ [Fetch (statusUrl p) 1000])%list)
     \/
     (pollExtension host fuel p timeout interval startTime w =
        (Some (Throw (ExtensionNotConnectedError p)), w') /\
      timeout <= now w' - startTime /\
      now w <= now w' /\
      effects w' = (effects w ++ statusPolls p interval k)%list)).
Proof.
  induction fuel as [|fuel IH]; intros w Hi Hfuel.
  - exists O, w. split; [intros j Hj; lia|]. right. simpl.
    destruct (Z.ltb_spec (now w - startTime) timeout) as [Hlt|Hge]; [lia|].
    rewrite app_nil_r. split; [reflexivity|]. split; [lia|]. split; [lia|reflexivity].
  - cbn [pollExtension].
    destruct (Z.ltb_spec (now w - startTime) timeout) as [Hlt|Hge].
    + rewrite pollStatus_run.
      set (w1 := {| now := now w + Z.of_N (latency host (fetches w));
                    fetches := S (fetches w);
                    effects := (effects w ++ [Fetch (statusUrl p) 1000])%list |}).
      pose proof (N2Z.is_nonneg (latency host (fetches w))) as Hlat.
      assert (Hnext : exists k w',
        (forall j, (j < k)%nat ->
                   readyAt host (fetches (sleep interval w1) + j) = false) /\
        ((exists st,
            statusAt host (fetches (sleep interval w1) + k) = Some st /\
            ready st = true /\
            pollExtension host fuel p timeout interval startTime
              (sleep interval w1) =
              (Some (Return {| wait_connected := true;
                               wait_pageCount := pageCount st |}), w') /\
            effects w' = (effects (sleep interval w1)
                            ++ statusPolls p interval k
                            ++ [Fetch (statusUrl p) 1000])%list)
         \/
         (pollExtension host fuel p timeout interval startTime
            (sleep interval w1) =
            (Some (Throw (ExtensionNotConnectedError p)), w') /\
          timeout <= now w' - startTime /\
          now (sleep interval w1) <= now w' /\
          effects w' = (effects (sleep interval w1)
                          ++ statusPolls p interval k)%list))).
      { apply IH; [exact Hi|]. cbn [sleep now w1].
        rewrite Nat2Z.inj_succ in Hfuel. lia. }
      assert (Hcontinue : readyAt host (fetches w) = false ->
        exists k w',
          (forall j, (j < k)%nat -> readyAt host (fetches w + j) = false) /\
          ((exists st,
              statusAt host (fetches w + k) = Some st /\ ready st = true /\
              pollExtension host fuel p timeout interval startTime
                (sleep interval w1) =
                (Some (Return {| wait_connected := true;
                                 wait_pageCount := pageCount st |}), w') /\
              effects w' = (effects w ++ statusPolls p interval k
                              ++ [Fetch (statusUrl p) 1000])%list)
           \/
           (pollExtension host fuel p timeout interval startTime
              (sleep interval w1) =
              (Some (Throw (ExtensionNotConnectedError p)), w') /\
            timeout <= now w' - startTime /\
            now w <= now w' /\
            effects w' = (effects w ++ statusPolls p interval k)%list))).
      { intros Hnot.
        destruct Hnext as (k & w' & Hbefore & Hend).
        exists (S k), w'. split.
        - intros [|j] Hj; [now rewrite Nat.add_0_r|].
          replace (fetches w + S j)%nat with (S (fetches w) + j)%nat by lia.
          apply Hbefore. lia.
        - replace (fetches w + S k)%nat with (S (fetches w) + k)%nat by lia.
          destruct Hend as [(st & Hst & Hr & Hrun & Heff)|(Hrun & Hout & Hnow & Heff)].
          + left. exists st. repeat (split; [assumption|]).
            rewrite Heff. unfold statusPolls. simpl. now rewrite <- !app_assoc.
          + right. split; [exact Hrun|]. split; [exact Hout|].
            cbn [sleep now w1] in Hnow. split; [lia|].
            rewrite Heff. unfold statusPolls. simpl. now rewrite <- !app_assoc. }
      unfold readyAt in Hcontinue.
      destruct (statusAt host (fetches w)) as [st|] eqn:Hst.
      * destruct (ready st) eqn:Hr.
        -- exists O, w1. split; [intros j Hj; lia|]. left. exists st.
           rewrite Nat.add_0_r. repeat (split; [assumption || reflexivity|]).
           reflexivity.
        -- now apply Hcontinue.
      * now apply Hcontinue.
    + exists O, w. split; [intros j Hj; lia|]. right.
      rewrite app_nil_r. split; [reflexivity|]. split; [lia|]. split; [lia|reflexivity].
Qed.

Lemma afterPolls_effects p interval k : forall w,
  effects (afterPolls host p interval k w) =
    (effects w ++ statusPolls p interval k)%list.
Proof.
  induction k as [|k IH]; intros w; cbn [afterPolls].
  - unfold statusPolls. simpl. now rewrite app_nil_r.
  - rewrite IH, pollStatus_run. cbn [snd sleep effects].
    unfold statusPolls. simpl. now rewrite <- !app_assoc.
Qed.

(** The clock never runs backwards from one poll to the next. *)
Lemma afterPolls_now p interval k : forall w,
  now w <= now (afterPolls host p interval k w).
Proof.
  induction k as [|k IH]; intros w; cbn [afterPolls]; [lia|].
  etransitivity; [|apply IH].
  rewrite pollStatus_run. cbn [snd sleep now].
  pose proof (N2Z.is_nonneg (latency host (fetches w))). lia.
Qed.

Lemma afterPolls_later p interval j : forall k w,
  (k <= j)%nat ->
  now (afterPolls host p interval k w) <= now (afterPolls host p interval j w).
Proof.
  induction j as [|j IH]; intros k w Hk.
  - replace k with O by lia. lia.
  - destruct k as [|k]; [apply afterPolls_now|].
    cbn [afterPolls]. apply IH. lia.
Qed.

(** The loop of [waitForExtension], turn by turn: a poll is made as long
    as the timeout has not passed, the first poll that reports a connected
    extension with a page ends the call, and the call throws at the first
    turn that starts with the timeout passed. *)
Lemma pollExtension_exact p timeout interval startTime fuel : forall w,
  0 < interval ->
  timeout - (now w - startTime) <= interval * Z.of_nat fuel ->
  exists k,
    (forall j, (j < k)%nat ->
       now (afterPolls host p interval j w) - startTime < timeout /\
       readyAt host (fetches w + j) = false) /\
    ((exists st,
        now (afterPolls host p interval k w) - startTime < timeout /\
        statusAt host (fetches w + k) = Some st /\ ready st = true /\
        pollExtension host fuel p timeout interval startTime w =
          (Some (Return {| wait_connected := true;
                           wait_pageCount := pageCount st |}),
           snd (pollStatus host p (afterPolls host p interval k w))))
     \/
     (timeout <= now (afterPolls host p interval k w) - startTime /\
      pollExtension host fuel p timeout interval startTime w =
        (Some (Throw (ExtensionNotConnectedError p)),
         afterPolls host p interval k w))).
Proof.
  induction fuel as [|fuel IH]; intros w Hi Hfuel.
  - exists O. split; [intros j Hj; lia|]. right. simpl.
    destruct (Z.ltb_spec (now w - startTime) timeout) as [Hlt|Hge]; [lia|].
    split; [lia|reflexivity].
  - cbn [pollExtension].
    destruct (Z.ltb_spec (now w - startTime) timeout) as [Hlt|Hge].
    + assert (Hcontinue : readyAt host (fetches w) = false ->
        exists k,
          (forall j, (j < k)%nat ->
             now (afterPolls host p interval j w) - startTime < timeout /\
             readyAt host (fetches w + j) = false) /\
          ((exists st,
              now (afterPolls host p interval k w) - startTime < timeout /\
              statusAt host (fetches w + k) = Some st /\ ready st = true /\
              pollExtension host fuel p timeout interval startTime
                (sleep interval (snd (pollStatus host p w))) =
                (Some (Return {| wait_connected := true;
                                 wait_pageCount := pageCount st |}),
                 snd (pollStatus host p (afterPolls host p interval k w))))
           \/
           (timeout <= now (afterPolls host p interval k w) - startTime /\
            pollExtension host fuel p timeout interval startTime
              (sleep interval (snd (pollStatus host p w))) =
              (Some (Throw (ExtensionNotConnectedError p)),
               afterPolls host p interval k w)))).
      { intros Hnot.
        destruct (IH (sleep interval (snd (pollStatus host p w))) Hi)
          as (k & Hbefore & Hend).
        { rewrite pollStatus_run. cbn [snd sleep now].
          pose proof (N2Z.is_nonneg (latency host (fetches w))).
          rewrite Nat2Z.inj_succ in Hfuel. lia. }
        assert (Hf : fetches (sleep interval (snd (pollStatus host p w))) =
                     S (fetches w))
          by (rewrite pollStatus_run; reflexivity).
        rewrite Hf in Hbefore, Hend.
        exists (S k). split.
        - intros [|j] Hj.
          + cbn [afterPolls]. rewrite Nat.add_0_r. split; [lia|exact Hnot].
          + cbn [afterPolls].
            replace (fetches w + S j)%nat with (S (fetches w) + j)%nat by lia.
            apply Hbefore. lia.
        - cbn [afterPolls].
          replace (fetches w + S k)%nat with (S (fetches w) + k)%nat by lia.
          exact Hend. }
      assert (Hw1 : snd (pollStatus host p w) =
                    {| now := now w + Z.of_N (latency host (fetches w));
                       fetches := S (fetches w);
                       effects := (effects w ++ [Fetch (statusUrl p) 1000])%list |})
        by (rewrite pollStatus_run; reflexivity).
      rewrite Hw1 in Hcontinue. rewrite pollStatus_run.
      unfold readyAt in Hcontinue.
      destruct (statusAt host (fetches w)) as [st|] eqn:Hst.
      * destruct (ready st) eqn:Hr.
        -- exists O. split; [intros j Hj; lia|]. left. exists st.
           cbn [afterPolls]. rewrite Nat.add_0_r, pollStatus_run.
           split; [lia|]. split; [exact Hst|]. split; [exact Hr|reflexivity].
        -- now apply Hcontinue.
      * now apply Hcontinue.
    + exists O. split; [intros j Hj; lia|]. right.
      split; [cbn [afterPolls]; lia|reflexivity].
Qed.

End WaitFacts.

(** C8: [waitForExtension] polls [/extension-status] as long as its
    timeout has not passed and returns as soon as a poll reports
    [connected && pageCount > 0]: at the first such poll, with its page
    count and without polling or sleeping again, so that a poll that
    reports it and starts before the deadline always ends the call with a
    result. Otherwise it throws, at the first turn that starts with the
    timeout passed, an [ExtensionNotConnectedError] whose port and message
    carry the port. Between two polls it sleeps for the poll interval of
    the options, 500 ms when none is given. *)
Theorem waitForExtension_polls host options w :
  0 < pollIntervalOf options ->
  pollIntervalOf None = 500 /\
  exists k,
    (forall j, (j < k)%nat ->
       now (afterPolls host (portOf options) (pollIntervalOf options) j w)
         - now w < waitTimeoutOf options /\
       readyAt host (fetches w + j) = false) /\
    ((exists st,
        now (afterPolls host (portOf options) (pollIntervalOf options) k w)
          - now w < waitTimeoutOf options /\
        statusAt host (fetches w + k) = Some st /\ ready st = true /\
        waitForExtension host options w =
          (Some (Return {| wait_connected := true;
                           wait_pageCount := pageCount st |}),
           snd (pollStatus host (portOf options)
                  (afterPolls host (portOf options) (pollIntervalOf options)
                     k w))) /\
        effects (snd (pollStatus host (portOf options)
                        (afterPolls host (portOf options)
                           (pollIntervalOf options) k w))) =
          (effects w
             ++ statusPolls (portOf options) (pollIntervalOf options) k
             ++ [Fetch (statusUrl (portOf options)) 1000])%list)
     \/
     (waitTimeoutOf options
        <= now (afterPolls host (portOf options) (pollIntervalOf options) k w)
           - now w /\
      waitForExtension host options w =
        (Some (Throw (ExtensionNotConnectedError (portOf options))),
         afterPolls host (portOf options) (pollIntervalOf options) k w) /\
      effects (afterPolls host (portOf options) (pollIntervalOf options) k w) =
        (effects w
           ++ statusPolls (portOf options) (pollIntervalOf options) k)%list /\
      port (ExtensionNotConnectedError (portOf options)) = portOf options /\
      message (ExtensionNotConnectedError (portOf options)) =
        "[Playwriter] Extension not connected. Please click the Playwriter extension icon on a Chrome tab. (port "
          ++ number_to_string (portOf options) ++ ")")) /\
    (forall j,
       readyAt host (fetches w + j) = true ->
       now (afterPolls host (portOf options) (pollIntervalOf options) j w)
         - now w < waitTimeoutOf options ->
       (k <= j)%nat /\
       exists st,
         statusAt host (fetches w + k) = Some st /\ ready st = true /\
         waitForExtension host options w =
           (Some (Return {| wait_connected := true;
                            wait_pageCount := pageCount st |}),
            snd (pollStatus host (portOf options)
                   (afterPolls host (portOf options)
                      (pollIntervalOf options) k w)))).
Proof.
  intros Hi. split; [reflexivity|].
  unfold waitForExtension.
  fold (portOf options) (waitTimeoutOf options) (pollIntervalOf options).
  destruct (pollExtension_exact host (portOf options) (waitTimeoutOf options)
              (pollIntervalOf options) (now w)
              (waitBound (waitTimeoutOf options) (pollIntervalOf options)) w Hi)
    as (k & Hbefore & Hend).
  { pose proof (waitBound_enough (waitTimeoutOf options) (pollIntervalOf options) Hi).
    lia. }
  exists k. split; [exact Hbefore|]. split.
  - destruct Hend as [(st & Hin & Hst & Hr & Hrun)|(Hout & Hrun)].
    + left. exists st. repeat (split; [assumption|]).
      rewrite pollStatus_run. cbn [snd effects].
      rewrite afterPolls_effects, <- app_assoc. reflexivity.
    + right. repeat (split; [assumption|]).
      split; [apply afterPolls_effects|]. split; reflexivity.
  - intros j Hready Hin.
    assert (Hk : (k <= j)%nat).
    { destruct (le_lt_dec k j) as [Hle|Hlt]; [exact Hle|].
      destruct (Hbefore j Hlt) as (_ & Hnot). congruence. }
    split; [exact Hk|].
    destruct Hend as [(st & _ & Hst & Hr & Hrun)|(Hout & _)].
    + exists st. repeat (split; [assumption|]). assumption.
    + pose proof (afterPolls_later host (portOf options) (pollIntervalOf options)
                    j k w Hk). lia.
Qed.

Lemma waitForExtension_polls_witness :
  pollIntervalOf None = 500 /\
  exists k,
    (forall j, (j < k)%nat ->
       now (afterPolls connecting (portOf quick) (pollIntervalOf quick) j boot)
         - now boot < waitTimeoutOf quick /\
       readyAt connecting (fetches boot + j) = false) /\
    ((exists st,
        now (afterPolls connecting (portOf quick) (pollIntervalOf quick) k boot)
          - now boot < waitTimeoutOf quick /\
        statusAt connecting (fetches boot + k) = Some st /\ ready st = true /\
        waitForExtension connecting quick boot =
          (Some (Return {| wait_connected := true;
                           wait_pageCount := pageCount st |}),
           snd (pollStatus connecting (portOf quick)
                  (afterPolls connecting (portOf quick) (pollIntervalOf quick)
                     k boot))) /\
        effects (snd (pollStatus connecting (portOf quick)
                        (afterPolls connecting (portOf quick)
                           (pollIntervalOf quick) k boot))) =
          (effects boot
             ++ statusPolls (portOf quick) (pollIntervalOf quick) k
             ++ [Fetch (statusUrl (portOf quick)) 1000])%list)
     \/
     (waitTimeoutOf quick
        <= now (afterPolls connecting (portOf quick) (pollIntervalOf quick) k boot)
           - now boot /\
      waitForExtension connecting quick boot =
        (Some (Throw (ExtensionNotConnectedError (portOf quick))),
         afterPolls connecting (portOf quick) (pollIntervalOf quick) k boot) /\
      effects (afterPolls connecting (portOf quick) (pollIntervalOf quick) k boot) =
        (effects boot
           ++ statusPolls (portOf quick) (pollIntervalOf quick) k)%list /\
      port (ExtensionNotConnectedError (portOf quick)) = portOf quick /\
      message (ExtensionNotConnectedError (portOf quick)) =
        "[Playwriter] Extension not connected. Please click the Playwriter extension icon on a Chrome tab. (port "
          ++ number_to_string (portOf quick) ++ ")")) /\
    (forall j,
       readyAt connecting (fetches boot + j) = true ->
       now (afterPolls connecting (portOf quick) (pollIntervalOf quick) j boot)
         - now boot < waitTimeoutOf quick ->
       (k <= j)%nat /\
       exists st,
         statusAt connecting (fetches boot + k) = Some st /\ ready st = true /\
         waitForExtension connecting quick boot =
           (Some (Return {| wait_connected := true;
                            wait_pageCount := pageCount st |}),
            snd (pollStatus connecting (portOf quick)
                   (afterPolls connecting (portOf quick)
                      (pollIntervalOf quick) k boot)))).
Proof.
  refine (waitForExtension_polls connecting quick boot _). reflexivity.
Defined.

(** ** The extension status *)





(** ** The design of [specs/features.md] *)

Lemma design_deleteEach extension session cookies : forall sent,
  FeaturesDesign.deleteEach extension session cookies sent =
  deleteEach extension session cookies sent.
Proof.
  induction cookies as [|cookie rest IH]; intros sent; simpl; [reflexivity|].
  unfold bind.
  change (FeaturesDesign.deleteCookie extension session cookie sent)
    with (deleteCookie extension session cookie sent).
  destruct (deleteCookie extension session cookie sent) as [[[]|e] sent'];
    [apply IH|reflexivity].
Qed.

Lemma design_sessionOr extensionWs activeSessions sid session sent :
  availableSessionF extensionWs activeSessions sid = Some session ->
  FeaturesDesign.sessionOr extensionWs activeSessions sid sent =
  (Return session, sent).
Proof.
  unfold availableSessionF, FeaturesDesign.sessionOr,
    FeaturesDesign.getAnyActiveSession.
  destruct sid as [s|]; simpl.
  - destruct (negb (s =? EmptyString)%string); [now intros [= ->]|].
    destruct extensionWs, activeSessions; try discriminate; now intros [= ->].
  - destruct extensionWs, activeSessions; try discriminate; now intros [= ->].
Qed.

(** The sketch of the specification document fans out in the same way as
    the implementation of the task list. *)
Lemma design_clearCookies_fan_out extension extensionWs activeSessions sid sent
      session result cookies :
  availableSessionF extensionWs activeSessions sid = Some session ->
  extension sent (getCookiesMessage session) = Resolved result ->
  returnedCookies result = Some cookies ->
  allResolve extension (sent ++ [getCookiesMessage session])%list
             (deleteMessages session cookies) = true ->
  FeaturesDesign.storageClearCookies extension extensionWs activeSessions sid sent =
  (Return (JObject []),
   (sent ++ getCookiesMessage session :: deleteMessages session cookies)%list).
Proof.
  intros Hs Hget Hret Hall.
  apply returnedCookies_items in Hret as (Hn & _ & Hc & Hobj).
  unfold FeaturesDesign.storageClearCookies, bind.
  rewrite design_sessionOr with (1 := Hs).
  unfold FeaturesDesign.sendToExtension, sendToExtension.
  fold (getCookiesMessage session). rewrite Hget.
  unfold get_member. rewrite Hn. unfold ret at 1. rewrite Hc. simpl.
  rewrite design_deleteEach.
  rewrite (deleteEach_all_resolve extension session cookies _ Hobj Hall).
  now rewrite <- app_assoc.
Qed.

(** ** Runs *)

Example setCookies_strips_browserContextId :
  storageSetCookies (obliging []) onePage
    (JObject [("cookies", JArray [plain]); ("browserContextId", JString "ctx")])
    None [] =
  (Return (JObject []),
   [forwardCDPCommand "S1" "Network.setCookies"
      (JObject [("cookies", JArray [plain])])]).
Proof. reflexivity. Qed.

Example clearCookies_without_cookies :
  routeCdpCommand (obliging []) onePage noOtherCase "Storage.clearCookies"
    JUndefined None [] =
  (Return (JObject []), [forwardCDPCommand "S1" "Network.getCookies" (JObject [])]).
Proof. reflexivity. Qed.

Example relay_starts_and_times_out :
  ensurePersistentRelay "0.0.47" "/tmp/playwriter/relay-server.log"
    silent quick boot =
  (Some (Throw
     {| name := "RelayServerStartError";
        message := "[Playwriter] Failed to start relay server. Check logs at: /tmp/playwriter/relay-server.log (port 19988)";
        port := 19988 |}),
   {| now := 1030; fetches := 3;
      effects := [Fetch "http://127.0.0.1:19988/version" 500;
                  Spawn "/usr/bin/node" "./start-relay-server.js" true "ignore";
                  Unref;
                  Sleep 500; Fetch "http://127.0.0.1:19988/version" 500;
                  Sleep 500; Fetch "http://127.0.0.1:19988/version" 500] |}).
Proof. reflexivity. Qed.

Example old_relay_is_replaced :
  effects (snd (ensurePersistentRelay "0.0.47" "/tmp/playwriter/relay-server.log"
                  (serving "0.0.46") quick boot)) =
  [Fetch "http://127.0.0.1:19988/version" 500;
   KillPortProcess 19988; Sleep 500;
   Spawn "/usr/bin/node" "./start-relay-server.js" true "ignore"; Unref;
   Sleep 500; Fetch "http://127.0.0.1:19988/version" 500;
   Sleep 500; Fetch "http://127.0.0.1:19988/version" 500].
Proof. reflexivity. Qed.

Example extension_connects_at_third_poll :
  waitForExtension connecting quick boot =
  (Some (Return {| wait_connected := true; wait_pageCount := 1 |}),
   {| now := 530; fetches := 3;
      effects := [Fetch "http://127.0.0.1:19988/extension-status" 1000;
                  Sleep 250;
                  Fetch "http://127.0.0.1:19988/extension-status" 1000;
                  Sleep 250;
                  Fetch "http://127.0.0.1:19988/extension-status" 1000] |}).
Proof. reflexivity. Qed.

Example extension_never_connects :
  fst (waitForExtension silent quick boot) =
  Some (Throw
     {| name := "ExtensionNotConnectedError";
        message := "[Playwriter] Extension not connected. Please click the Playwriter extension icon on a Chrome tab. (port 19988)";
        port := 19988 |}).
Proof. reflexivity. Qed.

Example versions_compare :
  compareVersions "1.2" "1.10.3" = -8 /\
  compareVersions "0.0.48" "0.0.47" = 1 /\
  compareVersions "1.2.0.0" "1.2" = 0.
Proof. repeat split. Qed.

(* ===================================================================== *)
(** * Part III. Further properties of the code *)
(* ===================================================================== *)

Import RequestNotions.

(** ** The cookie cases of the router *)

(** X1: [Storage.setCookies] with a session sends one
    [Network.setCookies] on it whose parameters hold the [cookies] of the
    command and nothing else ([browserContextId] and any other field are
    dropped), an empty array when the command has no parameters or no
    cookies; the command ends as that request settles. *)
Theorem setCookies_forwards_cookies_only extension connectedTargets
        existingCases params sid sent session :
  availableSession connectedTargets sid = Some session ->
  exists cookies,
    routeCdpCommand extension connectedTargets existingCases
      "Storage.setCookies" params sid sent =
    (settled (extension sent
                (forwardCDPCommand session "Network.setCookies"
                   (JObject [("cookies", cookies)]))),
     (sent ++ [forwardCDPCommand session "Network.setCookies"
                 (JObject [("cookies", cookies)])])%list) /\
    (truthy (member params "cookies") = true ->
     cookies = member params "cookies") /\
    (truthy (member params "cookies") = false -> cookies = JArray []) /\
    (forall key, key <> "cookies" ->
                 member (JObject [("cookies", cookies)]) key = JUndefined).
Proof.
  intros Hs.
  exists (or_else (get_member_opt params "cookies") (JArray [])).
  assert (Hm : get_member_opt params "cookies" = member params "cookies")
    by (unfold get_member_opt; now destruct params).
  split; [|split; [|split]].
  - rewrite route_setCookies. unfold storageSetCookies, bind.
    rewrite targetSessionIdOf_available with (1 := Hs).
    unfold sendToExtension, settled. reflexivity.
  - intros Ht. rewrite Hm. unfold or_else. now rewrite Ht.
  - intros Ht. rewrite Hm. unfold or_else. now rewrite Ht.
  - intros key Hk. simpl.
    destruct (String.eqb_spec key "cookies") as [E|_]; [contradiction|reflexivity].
Qed.

Lemma setCookies_forwards_cookies_only_witness :
  exists cookies,
    routeCdpCommand (obliging []) onePage noOtherCase "Storage.setCookies"
      (JObject [("cookies", JArray [plain]);
                ("browserContextId", JString "ctx")]) None [] =
    (settled (obliging [] []
                (forwardCDPCommand "S1" "Network.setCookies"
                   (JObject [("cookies", cookies)]))),
     ([] ++ [forwardCDPCommand "S1" "Network.setCookies"
               (JObject [("cookies", cookies)])])%list) /\
    (truthy (member (JObject [("cookies", JArray [plain]);
                              ("browserContextId", JString "ctx")])
               "cookies") = true ->
     cookies = member (JObject [("cookies", JArray [plain]);
                                ("browserContextId", JString "ctx")])
                 "cookies") /\
    (truthy (member (JObject [("cookies", JArray [plain]);
                              ("browserContextId", JString "ctx")])
               "cookies") = false -> cookies = JArray []) /\
    (forall key, key <> "cookies" ->
                 member (JObject [("cookies", cookies)]) key = JUndefined).
Proof.
  refine (setCookies_forwards_cookies_only (obliging []) onePage noOtherCase
            (JObject [("cookies", JArray [plain]);
                      ("browserContextId", JString "ctx")]) None [] "S1" _).
  reflexivity.
Defined.

(** X2: a cookie command that carries a session id runs on that session,
    whatever the registry holds: the registry is consulted only when the
    command has none. *)
Theorem explicit_session_wins extension connectedTargets existingCases
        method params session sent :
  cookieMethod method = true ->
  session <> EmptyString ->
  availableSession connectedTargets (Some session) = Some session /\
  exists first others,
    snd (routeCdpCommand extension connectedTargets existingCases
           method params (Some session) sent) = (sent ++ first :: others)%list /\
    Forall (onSession session) (first :: others).
Proof.
  intros Hm Hne.
  assert (Ha : availableSession connectedTargets (Some session) = Some session).
  { unfold availableSession, or_else_string. simpl.
    destruct (String.eqb_spec session EmptyString) as [E|_]; [contradiction|].
    simpl. destruct (String.eqb_spec session EmptyString) as [E|_];
      [contradiction|reflexivity]. }
  split; [exact Ha|].
  now apply cookie_command_on_session.
Qed.

Lemma explicit_session_wins_witness :
  availableSession twoPages (Some "S2") = Some "S2" /\
  exists first others,
    snd (routeCdpCommand (obliging [plain]) twoPages noOtherCase
           "Storage.clearCookies" JUndefined (Some "S2") []) =
      ([] ++ first :: others)%list /\
    Forall (onSession "S2") (first :: others).
Proof.
  refine (explicit_session_wins (obliging [plain]) twoPages noOtherCase
            "Storage.clearCookies" JUndefined "S2" [] _ _).
  - reflexivity.
  - discriminate.
Defined.

(** X3: when the extension rejects the [Network.getCookies] of a
    [Storage.getCookies] or of a [Storage.clearCookies], the command ends
    with the reason of the rejection, and that request is the only one
    sent: no cookie is deleted. *)
Theorem rejected_getCookies_is_returned extension connectedTargets
        existingCases params sid sent session reason :
  availableSession connectedTargets sid = Some session ->
  extension sent (getCookiesMessage session) = Rejected reason ->
  routeCdpCommand extension connectedTargets existingCases
    "Storage.getCookies" params sid sent =
    (Throw reason, (sent ++ [getCookiesMessage session])%list) /\
  routeCdpCommand extension connectedTargets existingCases
    "Storage.clearCookies" params sid sent =
    (Throw reason, (sent ++ [getCookiesMessage session])%list).
Proof.
  intros Hs Hr. split.
  - rewrite route_getCookies. unfold storageGetCookies, bind.
    rewrite targetSessionIdOf_available with (1 := Hs).
    unfold sendToExtension. fold (getCookiesMessage session). now rewrite Hr.
  - rewrite route_clearCookies. unfold storageClearCookies, bind.
    rewrite targetSessionIdOf_available with (1 := Hs).
    unfold sendToExtension. fold (getCookiesMessage session). now rewrite Hr.
Qed.

Lemma rejected_getCookies_is_returned_witness :
  routeCdpCommand (fun _ _ => Rejected (CdpError (-32000) "Not attached"))
    onePage noOtherCase "Storage.getCookies" JUndefined None [] =
    (Throw (CdpError (-32000) "Not attached"),
     ([] ++ [getCookiesMessage "S1"])%list) /\
  routeCdpCommand (fun _ _ => Rejected (CdpError (-32000) "Not attached"))
    onePage noOtherCase "Storage.clearCookies" JUndefined None [] =
    (Throw (CdpError (-32000) "Not attached"),
     ([] ++ [getCookiesMessage "S1"])%list).
Proof.
  refine (rejected_getCookies_is_returned
            (fun _ _ => Rejected (CdpError (-32000) "Not attached"))
            onePage noOtherCase JUndefined None [] "S1"
            (CdpError (-32000) "Not attached") _ _);
    reflexivity.
Defined.

(** X4: [Storage.clearCookies] treats a reply without cookies as an empty
    list: when the reply is [undefined] or [null], has no [cookies], or
    has a [cookies] that is falsy or an empty array, the command returns
    the empty result after its single [Network.getCookies]. *)
Theorem clearCookies_tolerates_missing_cookies extension connectedTargets
        existingCases params sid sent session result :
  availableSession connectedTargets sid = Some session ->
  extension sent (getCookiesMessage session) = Resolved result ->
  truthy (member result "cookies") = false \/
  member result "cookies" = JArray [] ->
  routeCdpCommand extension connectedTargets existingCases
    "Storage.clearCookies" params sid sent =
  (Return (JObject []), (sent ++ [getCookiesMessage session])%list).
Proof.
  intros Hs Hget Hc.
  rewrite route_clearCookies. unfold storageClearCookies, bind.
  rewrite targetSessionIdOf_available with (1 := Hs).
  unfold sendToExtension. fold (getCookiesMessage session). rewrite Hget.
  assert (Hm : get_member_opt result "cookies" = member result "cookies")
    by (unfold get_member_opt; now destruct result).
  rewrite Hm.
  assert (E : or_else (member result "cookies") (JArray []) = JArray []).
  { unfold or_else. destruct Hc as [Hf|Hz]; [now rewrite Hf|now rewrite Hz]. }
  rewrite E. reflexivity.
Qed.

Lemma clearCookies_tolerates_missing_cookies_witness :
  routeCdpCommand (fun _ _ => Resolved JUndefined) onePage noOtherCase
    "Storage.clearCookies" JUndefined None [] =
  (Return (JObject []), ([] ++ [getCookiesMessage "S1"])%list).
Proof.
  refine (clearCookies_tolerates_missing_cookies
            (fun _ _ => Resolved JUndefined) onePage noOtherCase
            JUndefined None [] "S1" JUndefined _ _ _).
  - reflexivity.
  - reflexivity.
  - left. reflexivity.
Defined.

Lemma deleteEach_discipline extension session cookies : forall sent,
  exists deletions,
    snd (deleteEach extension session cookies sent) = (sent ++ deletions)%list /\
    Forall (isDeletion session) deletions /\
    (List.length deletions <= List.length cookies)%nat.
Proof.
  induction cookies as [|cookie rest IH]; intros sent; simpl.
  - exists []. rewrite app_nil_r. repeat split; auto.
  - unfold bind, deleteCookie, get_member.
    destruct (nullish cookie); simpl.
    + exists []. rewrite app_nil_r. repeat split; auto. simpl. lia.
    + unfold bind, sendToExtension; simpl.
      destruct (extension sent _); simpl.
      * destruct (IH (sent ++ [forwardCDPCommand session "Network.deleteCookies"
                                 (deleteCookiesParams (member cookie "name")
                                    (member cookie "domain")
                                    (member cookie "path"))])%list)
          as (deletions & E & F & L).
        eexists (_ :: deletions). rewrite E, <- app_assoc. simpl.
        split; [reflexivity|]. split; [|lia].
        constructor; [repeat split|exact F].
      * eexists [_]. split; [reflexivity|]. split; [|simpl; lia].
        repeat constructor.
Qed.

(** X5: whatever the extension answers, well typed or not,
    [Storage.clearCookies] with a session sends [Network.getCookies]
    first, and after it nothing but [Network.deleteCookies] on the same
    session, never more of them than the reply lists cookies. *)
Theorem clearCookies_sends_only_deletions extension connectedTargets
        existingCases params sid sent session :
  availableSession connectedTargets sid = Some session ->
  exists deletions,
    snd (routeCdpCommand extension connectedTargets existingCases
           "Storage.clearCookies" params sid sent) =
      (sent ++ getCookiesMessage session :: deletions)%list /\
    Forall (isDeletion session) deletions /\
    (forall result items,
       extension sent (getCookiesMessage session) = Resolved result ->
       member result "cookies" = JArray items ->
       (List.length deletions <= List.length items)%nat) /\
    (forall reason,
       extension sent (getCookiesMessage session) = Rejected reason ->
       deletions = []).
Proof.
  intros Hs.
  rewrite route_clearCookies. unfold storageClearCookies, bind.
  rewrite targetSessionIdOf_available with (1 := Hs).
  unfold sendToExtension at 1. fold (getCookiesMessage session).
  destruct (extension sent (getCookiesMessage session)) as [result|reason] eqn:Hget.
  - assert (Hm : get_member_opt result "cookies" = member result "cookies")
      by (unfold get_member_opt; now destruct result).
    rewrite Hm.
    destruct (iterate (or_else (member result "cookies") (JArray []))
                (sent ++ [getCookiesMessage session])%list)
      as [[items|e] sent'] eqn:Hit.
    + assert (sent' = (sent ++ [getCookiesMessage session])%list) as ->.
      { unfold iterate in Hit.
        destruct (or_else _ _); unfold ret, throw in Hit; congruence. }
      destruct (deleteEach_discipline extension session items
                  (sent ++ [getCookiesMessage session])%list)
        as (deletions & E & F & L).
      exists deletions.
      destruct (deleteEach _ _ _ _) as [[[]|e] sent''] eqn:Hd;
        simpl in E; subst sent''; simpl; rewrite <- app_assoc;
        (split; [reflexivity|]); (split; [exact F|]);
        (split; [|intros reason Hr; discriminate Hr]);
        intros result' items' [= <-] Hi;
        unfold or_else in Hit; rewrite Hi in Hit; simpl in Hit;
        unfold ret in Hit; injection Hit as <-; exact L.
    + assert (sent' = (sent ++ [getCookiesMessage session])%list) as ->.
      { unfold iterate in Hit.
        destruct (or_else _ _); unfold ret, throw in Hit; congruence. }
      exists []. split; [reflexivity|]. split; [constructor|].
      split; [intros; simpl; lia|reflexivity].
  - exists []. split; [reflexivity|]. split; [constructor|].
    split; [intros result items Hr; discriminate Hr|reflexivity].
Qed.

Lemma clearCookies_sends_only_deletions_witness :
  exists deletions,
    snd (routeCdpCommand (refusing [partitioned; plain] "t") onePage noOtherCase
           "Storage.clearCookies" JUndefined None []) =
      ([] ++ getCookiesMessage "S1" :: deletions)%list /\
    Forall (isDeletion "S1") deletions /\
    (forall result items,
       refusing [partitioned; plain] "t" [] (getCookiesMessage "S1")
         = Resolved result ->
       member result "cookies" = JArray items ->
       (List.length deletions <= List.length items)%nat) /\
    (forall reason,
       refusing [partitioned; plain] "t" [] (getCookiesMessage "S1")
         = Rejected reason ->
       deletions = []).
Proof.
  refine (clearCookies_sends_only_deletions (refusing [partitioned; plain] "t")
            onePage noOtherCase JUndefined None [] "S1" _).
  reflexivity.
Defined.

(** X6: the implementation of the task list and the sketch of
    [specs/features.md] are the same function wherever the sketch is
    defined: given the same session, they send the same requests and end
    the same way for [Storage.getCookies], for [Storage.clearCookies] when
    the reply of the extension is neither [undefined] nor [null], and for
    [Storage.setCookies] when the command has cookies. *)
Theorem implementation_matches_design extension connectedTargets extensionWs
        activeSessions params sid sent session :
  availableSession connectedTargets sid = Some session ->
  availableSessionF extensionWs activeSessions sid = Some session ->
  storageGetCookies extension connectedTargets sid sent =
    FeaturesDesign.storageGetCookies extension extensionWs activeSessions
      sid sent /\
  ((forall result,
      extension sent (getCookiesMessage session) = Resolved result ->
      nullish result = false) ->
   storageClearCookies extension connectedTargets sid sent =
     FeaturesDesign.storageClearCookies extension extensionWs activeSessions
       sid sent) /\
  (truthy (member params "cookies") = true ->
   storageSetCookies extension connectedTargets params sid sent =
     FeaturesDesign.storageSetCookies extension extensionWs activeSessions
       params sid sent).
Proof.
  intros Hs Hf. split; [|split].
  - unfold storageGetCookies, FeaturesDesign.storageGetCookies, bind.
    rewrite targetSessionIdOf_available with (1 := Hs).
    now rewrite design_sessionOr with (1 := Hf).
  - intros Hres.
    unfold storageClearCookies, FeaturesDesign.storageClearCookies, bind.
    rewrite targetSessionIdOf_available with (1 := Hs).
    rewrite design_sessionOr with (1 := Hf).
    unfold FeaturesDesign.sendToExtension, sendToExtension.
    change (forwardCDPCommand session "Network.getCookies" (JObject []))
      with (getCookiesMessage session).
    destruct (extension sent (getCookiesMessage session)) as [result|reason] eqn:Hget;
      [|reflexivity].
    specialize (Hres result eq_refl).
    unfold get_member, get_member_opt. rewrite Hres. unfold ret at 2.
    destruct (iterate (or_else (member result "cookies") (JArray []))
                (sent ++ [getCookiesMessage session])%list)
      as [[items|e] sent'']; [|reflexivity].
    destruct (design_deleteEach extension session items sent'').
    reflexivity.
  - intros Ht.
    assert (Hn : nullish params = false) by (now destruct params).
    unfold storageSetCookies, FeaturesDesign.storageSetCookies, bind.
    rewrite targetSessionIdOf_available with (1 := Hs).
    rewrite design_sessionOr with (1 := Hf).
    unfold get_member, get_member_opt. rewrite Hn. unfold ret at 1.
    unfold or_else. now rewrite Ht.
Qed.

Lemma implementation_matches_design_witness :
  storageGetCookies (obliging [plain]) onePage None [] =
    FeaturesDesign.storageGetCookies (obliging [plain])
      (Some (FeaturesDesign.WS 1)) ["S1"] None [] /\
  ((forall result,
      obliging [plain] [] (getCookiesMessage "S1") = Resolved result ->
      nullish result = false) ->
   storageClearCookies (obliging [plain]) onePage None [] =
     FeaturesDesign.storageClearCookies (obliging [plain])
       (Some (FeaturesDesign.WS 1)) ["S1"] None []) /\
  (truthy (member (JObject [("cookies", JArray [plain])]) "cookies") = true ->
   storageSetCookies (obliging [plain]) onePage
     (JObject [("cookies", JArray [plain])]) None [] =
     FeaturesDesign.storageSetCookies (obliging [plain])
       (Some (FeaturesDesign.WS 1)) ["S1"]
       (JObject [("cookies", JArray [plain])]) None []).
Proof.
  refine (implementation_matches_design (obliging [plain]) onePage
            (Some (FeaturesDesign.WS 1)) ["S1"]
            (JObject [("cookies", JArray [plain])]) None [] "S1" _ _);
    reflexivity.
Defined.

(** ** The error classes *)

Lemma substring_prefix_append b : forall c,
  substring 0 (String.length b) (b ++ c) = b.
Proof.
  induction b as [|x b IH]; intros c; simpl.
  - now destruct c.
  - now rewrite IH.
Qed.

Lemma substring_skip_append a : forall b c,
  substring (String.length a) (String.length b) (a ++ b ++ c) = b.
Proof.
  induction a as [|x a IH]; intros b c; simpl.
  - apply substring_prefix_append.
  - apply IH.
Qed.

Lemma string_app_assoc a : forall b c, (a ++ b) ++ c = a ++ b ++ c.
Proof. induction a as [|x a IH]; intros b c; simpl; [reflexivity|now rewrite IH]. Qed.

Lemma string_app_nil_r a : a ++ EmptyString = a.
Proof. induction a as [|x a IH]; simpl; [reflexivity|now rewrite IH]. Qed.

(** A text includes each of the parts it is appended from. *)
Lemma includes_middle a b c : includes (a ++ b ++ c) b = true.
Proof.
  unfold includes.
  destruct (index 0 b (a ++ b ++ c)) as [n|] eqn:E; [reflexivity|].
  exfalso.
  destruct (string_dec b EmptyString) as [->|Hne].
  - apply index_correct4 in E. lia.
  - apply (index_correct3 0 (String.length a) b (a ++ b ++ c) E Hne);
      [lia|apply substring_skip_append].
Qed.

Lemma append_cancel_l (s a b : string) : s ++ a = s ++ b -> a = b.
Proof.
  induction s as [|c s IH]; simpl; intros H; [exact H|].
  injection H as H. now apply IH.
Qed.

Lemma append_length (a b : string) :
  String.length (a ++ b) = (String.length a + String.length b)%nat.
Proof. induction a as [|c a IH]; simpl; [reflexivity|now rewrite IH]. Qed.

Lemma append_cancel_r (c : string) : forall a b : string,
  a ++ c = b ++ c -> a = b.
Proof.
  assert (Hsame : forall a b : string,
            String.length a = String.length b -> a ++ c = b ++ c -> a = b).
  { induction a as [|x a IH]; intros [|y b] Hlen H; simpl in *;
      try discriminate; [reflexivity|].
    injection H as -> H. f_equal. apply IH; [lia|exact H]. }
  intros a b H. apply Hsame; [|exact H].
  apply (f_equal String.length) in H. rewrite !append_length in H. lia.
Qed.

Lemma prefix_append (s t : string) : prefix s (s ++ t) = true.
Proof.
  induction s as [|c s IH]; simpl.
  - now destruct t.
  - destruct (ascii_dec c c) as [_|H]; [exact IH|contradiction].
Qed.

(** The digits of a number are digits. *)
Lemma string_of_uint_digits (d : Decimal.uint) :
  forallb (fun c => match Version.digit c with
                    | Some _ => true
                    | None => false
                    end)
          (list_ascii_of_string (NilEmpty.string_of_uint d)) = true.
Proof. induction d; simpl; try exact IHd; reflexivity. Qed.

(** A port number is written as its decimal numeral, and the numeral
    reads back as the port. *)
Lemma number_to_string_decimal p :
  0 <= p ->
  ErrorNotions.decimalNumeral (number_to_string p) = true /\
  ErrorNotions.readDecimal (number_to_string p) = Some p.
Proof.
  intros Hp. unfold number_to_string, ErrorNotions.readDecimal. split.
  - unfold ErrorNotions.decimalNumeral.
    destruct p as [|q|q]; [reflexivity| |lia].
    cbn [Z.to_int NilZero.string_of_int].
    unfold NilZero.string_of_uint.
    pose proof (Unsigned.to_uint_nonnil q) as Hnil.
    destruct (Pos.to_uint q) eqn:E; try contradiction;
      rewrite <- E; rewrite string_of_uint_digits, andb_true_r;
      rewrite E; reflexivity.
  - rewrite NilZero.isi.
    + cbn [option_map]. now rewrite DecimalZ.of_to.
    + destruct p as [|q|q]; cbn; try discriminate.
      intros [= H]. now apply (Unsigned.to_uint_nonnil q).
    + destruct p as [|q|q]; cbn; try discriminate. lia.
Qed.

(** X7: the three error classes. Each keeps the port it is built with and
    has the name of its class, so that the names tell the three apart. The
    message is [[Playwriter] ] followed by the text of the class and by
    [(port N)], where N is the decimal numeral of the port; the text of a
    RelayServerStartError holds the path of the log file. The port can be
    read off the message: errors of one class built for different ports
    have different messages. *)
Theorem error_messages_carry_the_port LOG_FILE_PATH p msg :
  0 <= p <= 65535 ->
  (port (newRelayServerError msg p) = p /\
   port (ExtensionNotConnectedError p) = p /\
   port (RelayServerStartError LOG_FILE_PATH p) = p) /\
  (name (newRelayServerError msg p) = "RelayServerError" /\
   name (ExtensionNotConnectedError p) = "ExtensionNotConnectedError" /\
   name (RelayServerStartError LOG_FILE_PATH p) = "RelayServerStartError" /\
   name (newRelayServerError msg p) <> name (ExtensionNotConnectedError p) /\
   name (newRelayServerError msg p) <>
     name (RelayServerStartError LOG_FILE_PATH p) /\
   name (ExtensionNotConnectedError p) <>
     name (RelayServerStartError LOG_FILE_PATH p)) /\
  (message (newRelayServerError msg p) =
     "[Playwriter] " ++ msg ++ " (port " ++ number_to_string p ++ ")" /\
   message (ExtensionNotConnectedError p) =
     "[Playwriter] Extension not connected. Please click the Playwriter extension icon on a Chrome tab. (port "
       ++ number_to_string p ++ ")" /\
   message (RelayServerStartError LOG_FILE_PATH p) =
     "[Playwriter] Failed to start relay server. Check logs at: "
       ++ LOG_FILE_PATH ++ " (port " ++ number_to_string p ++ ")") /\
  (prefix "[Playwriter] " (message (newRelayServerError msg p)) = true /\
   prefix "[Playwriter] " (message (ExtensionNotConnectedError p)) = true /\
   prefix "[Playwriter] " (message (RelayServerStartError LOG_FILE_PATH p))
     = true) /\
  (includes (message (newRelayServerError msg p))
            ("(port " ++ number_to_string p ++ ")") = true /\
   includes (message (ExtensionNotConnectedError p))
            ("(port " ++ number_to_string p ++ ")") = true /\
   includes (message (RelayServerStartError LOG_FILE_PATH p))
            ("(port " ++ number_to_string p ++ ")") = true /\
   includes (message (newRelayServerError msg p)) msg = true /\
   includes (message (RelayServerStartError LOG_FILE_PATH p)) LOG_FILE_PATH
     = true) /\
  (ErrorNotions.decimalNumeral (number_to_string p) = true /\
   ErrorNotions.readDecimal (number_to_string p) = Some p) /\
  (forall q, 0 <= q <= 65535 ->
     (message (newRelayServerError msg p) = message (newRelayServerError msg q)
      \/ message (ExtensionNotConnectedError p) =
         message (ExtensionNotConnectedError q)
      \/ message (RelayServerStartError LOG_FILE_PATH p) =
         message (RelayServerStartError LOG_FILE_PATH q)) ->
     p = q).
Proof.
  intros Hp.
  assert (Hport : forall m,
    includes (message (newRelayServerError m p))
             ("(port " ++ number_to_string p ++ ")") = true).
  { intros m. unfold newRelayServerError; cbn [message].
    replace ("[Playwriter] " ++ m ++ " (port " ++ number_to_string p ++ ")")
      with (("[Playwriter] " ++ m ++ " ")
              ++ ("(port " ++ number_to_string p ++ ")") ++ EmptyString).
    - apply includes_middle.
    - rewrite !string_app_assoc, string_app_nil_r. reflexivity. }
  assert (Hread : forall m q, 0 <= q ->
    message (newRelayServerError m p) = message (newRelayServerError m q) ->
    p = q).
  { intros m q Hq H. unfold newRelayServerError in H; cbn [message] in H.
    apply (append_cancel_l "[Playwriter] ") in H.
    apply append_cancel_l in H.
    apply (append_cancel_l " (port ") in H.
    apply append_cancel_r in H.
    destruct (number_to_string_decimal p) as (_ & Hrp); [lia|].
    destruct (number_to_string_decimal q Hq) as (_ & Hrq).
    rewrite H in Hrp. congruence. }
  split; [split; [|split]; reflexivity|].
  split; [split; [|split; [|split; [|split; [|split]]]];
          try reflexivity; discriminate|].
  split; [split; [|split]; reflexivity|].
  split; [split; [|split]; apply prefix_append|].
  split; [|split].
  - split; [apply Hport|]. split; [apply Hport|]. split; [apply Hport|]. split.
    + unfold newRelayServerError; cbn [message].
      apply (includes_middle "[Playwriter] " msg).
    + unfold RelayServerStartError, named, newRelayServerError; cbn [message].
      replace ("[Playwriter] "
                 ++ ("Failed to start relay server. Check logs at: " ++ LOG_FILE_PATH)
                 ++ " (port " ++ number_to_string p ++ ")")
        with ("[Playwriter] Failed to start relay server. Check logs at: "
                ++ LOG_FILE_PATH ++ (" (port " ++ number_to_string p ++ ")"))
        by reflexivity.
      apply includes_middle.
  - apply number_to_string_decimal. lia.
  - intros q Hq [H|[H|H]].
    + apply (Hread msg q); [lia|exact H].
    + apply (Hread "Extension not connected. Please click the Playwriter extension icon on a Chrome tab."
               q); [lia|exact H].
    + apply (Hread ("Failed to start relay server. Check logs at: "
                      ++ LOG_FILE_PATH) q); [lia|exact H].
Qed.

Lemma error_messages_carry_the_port_witness :
  (port (newRelayServerError "test message" 12345) = 12345 /\
   port (ExtensionNotConnectedError 12345) = 12345 /\
   port (RelayServerStartError "/tmp/playwriter/relay-server.log" 12345) = 12345) /\
  (name (newRelayServerError "test message" 12345) = "RelayServerError" /\
   name (ExtensionNotConnectedError 12345) = "ExtensionNotConnectedError" /\
   name (RelayServerStartError "/tmp/playwriter/relay-server.log" 12345)
     = "RelayServerStartError" /\
   name (newRelayServerError "test message" 12345) <>
     name (ExtensionNotConnectedError 12345) /\
   name (newRelayServerError "test message" 12345) <>
     name (RelayServerStartError "/tmp/playwriter/relay-server.log" 12345) /\
   name (ExtensionNotConnectedError 12345) <>
     name (RelayServerStartError "/tmp/playwriter/relay-server.log" 12345)) /\
  (message (newRelayServerError "test message" 12345) =
     "[Playwriter] " ++ "test message" ++ " (port " ++ number_to_string 12345 ++ ")" /\
   message (ExtensionNotConnectedError 12345) =
     "[Playwriter] Extension not connected. Please click the Playwriter extension icon on a Chrome tab. (port "
       ++ number_to_string 12345 ++ ")" /\
   message (RelayServerStartError "/tmp/playwriter/relay-server.log" 12345) =
     "[Playwriter] Failed to start relay server. Check logs at: "
       ++ "/tmp/playwriter/relay-server.log" ++ " (port "
       ++ number_to_string 12345 ++ ")") /\
  (prefix "[Playwriter] " (message (newRelayServerError "test message" 12345))
     = true /\
   prefix "[Playwriter] " (message (ExtensionNotConnectedError 12345)) = true /\
   prefix "[Playwriter] "
     (message (RelayServerStartError "/tmp/playwriter/relay-server.log" 12345))
     = true) /\
  (includes (message (newRelayServerError "test message" 12345))
            ("(port " ++ number_to_string 12345 ++ ")") = true /\
   includes (message (ExtensionNotConnectedError 12345))
            ("(port " ++ number_to_string 12345 ++ ")") = true /\
   includes (message (RelayServerStartError "/tmp/playwriter/relay-server.log"
                        12345))
            ("(port " ++ number_to_string 12345 ++ ")") = true /\
   includes (message (newRelayServerError "test message" 12345)) "test message"
     = true /\
   includes (message (RelayServerStartError "/tmp/playwriter/relay-server.log"
                        12345))
            "/tmp/playwriter/relay-server.log" = true) /\
  (ErrorNotions.decimalNumeral (number_to_string 12345) = true /\
   ErrorNotions.readDecimal (number_to_string 12345) = Some 12345) /\
  (forall q, 0 <= q <= 65535 ->
     (message (newRelayServerError "test message" 12345) =
        message (newRelayServerError "test message" q)
      \/ message (ExtensionNotConnectedError 12345) =
         message (ExtensionNotConnectedError q)
      \/ message (RelayServerStartError "/tmp/playwriter/relay-server.log" 12345) =
         message (RelayServerStartError "/tmp/playwriter/relay-server.log" q)) ->
     12345 = q).
Proof.
  refine (error_messages_carry_the_port "/tmp/playwriter/relay-server.log"
            12345 "test message" _).
  lia.
Defined.

(** ** The comparison of versions *)

Import VersionNotions.

Lemma compareFrom_agree_from remaining : forall parts1 parts2 i,
  (forall j, (i <= j)%nat -> partAt parts1 j = partAt parts2 j) ->
  compareFrom parts1 parts2 i remaining = 0.
Proof.
  induction remaining as [|r IH]; intros parts1 parts2 i H; simpl; [reflexivity|].
  rewrite (H i (Nat.le_refl i)), Z.eqb_refl. simpl.
  apply IH. intros j Hj. apply H. lia.
Qed.

(** The loop returns the difference at the first index where the parts
    differ, and zero when it meets none. *)
Lemma compareFrom_first_difference remaining : forall parts1 parts2 i,
  (compareFrom parts1 parts2 i remaining = 0 /\
   forall j, (i <= j < i + remaining)%nat -> partAt parts1 j = partAt parts2 j)
  \/
  (exists d, (i <= d < i + remaining)%nat /\
     (forall j, (i <= j < d)%nat -> partAt parts1 j = partAt parts2 j) /\
     partAt parts1 d <> partAt parts2 d /\
     compareFrom parts1 parts2 i remaining = partAt parts1 d - partAt parts2 d).
Proof.
  induction remaining as [|r IH]; intros parts1 parts2 i; simpl.
  - left. split; [reflexivity|]. intros j Hj. lia.
  - destruct (Z.eqb_spec (partAt parts1 i) (partAt parts2 i)) as [E|E]; simpl.
    + destruct (IH parts1 parts2 (S i)) as [[Hz Hall]|(d & Hd & Hbefore & Hne & Hv)].
      * left. split; [exact Hz|]. intros j Hj.
        destruct (Nat.eq_dec j i) as [->|Hji]; [exact E|apply Hall; lia].
      * right. exists d. split; [lia|]. split; [|split; assumption].
        intros j Hj.
        destruct (Nat.eq_dec j i) as [->|Hji]; [exact E|apply Hbefore; lia].
    + right. exists i. split; [lia|]. split; [intros j Hj; lia|].
      split; [exact E|reflexivity].
Qed.

Lemma partAt_beyond parts j :
  (List.length parts <= j)%nat -> partAt parts j = 0.
Proof.
  intros H. unfold partAt. now rewrite (proj2 (nth_error_None parts j) H).
Qed.

(** X8: [compareVersions] returns the difference of the two versions at
    their first differing component, a missing component counting as zero,
    and zero exactly when no component differs. *)
Theorem compareVersions_first_difference v1 v2 :
  numericVersion v1 = true ->
  numericVersion v2 = true ->
  (compareVersions v1 v2 = 0 <-> forall i, component v1 i = component v2 i) /\
  (compareVersions v1 v2 <> 0 ->
   exists d,
     (forall j, (j < d)%nat -> component v1 j = component v2 j) /\
     component v1 d <> component v2 d /\
     compareVersions v1 v2 = component v1 d - component v2 d).
Proof.
  intros _ _. unfold compareVersions, component.
  set (parts1 := List.map Number (split v1)).
  set (parts2 := List.map Number (split v2)).
  set (len := Nat.max (List.length parts1) (List.length parts2)).
  destruct (compareFrom_first_difference len parts1 parts2 0)
    as [[Hz Hall]|(d & Hd & Hbefore & Hne & Hv)].
  - split.
    + split; [|intros _; exact Hz].
      intros _ i. destruct (Nat.lt_ge_cases i len) as [Hi|Hi].
      * apply Hall. lia.
      * rewrite !partAt_beyond; [reflexivity|subst len; lia|subst len; lia].
    + intros Hnz. contradiction.
  - split.
    + split.
      * intros Hz. rewrite Hz in Hv. exfalso. lia.
      * intros Hall. exfalso. apply Hne, Hall.
    + intros _. exists d. split; [|split; assumption].
      intros j Hj. apply Hbefore. lia.
Qed.

Lemma compareVersions_first_difference_witness :
  (compareVersions "1.2" "1.10.3" = 0 <->
   forall i, component "1.2" i = component "1.10.3" i) /\
  (compareVersions "1.2" "1.10.3" <> 0 ->
   exists d,
     (forall j, (j < d)%nat -> component "1.2" j = component "1.10.3" j) /\
     component "1.2" d <> component "1.10.3" d /\
     compareVersions "1.2" "1.10.3" = component "1.2" d - component "1.10.3" d).
Proof.
  refine (compareVersions_first_difference "1.2" "1.10.3" _ _); reflexivity.
Defined.

Lemma lexCompare_le_trans a : forall b c,
  List.length a = List.length b -> List.length b = List.length c ->
  lexCompare a b <> Gt -> lexCompare b c <> Gt -> lexCompare a c <> Gt.
Proof.
  induction a as [|x a IH]; intros [|y b] [|z c] Hab Hbc H1 H2;
    simpl in *; try discriminate; try congruence.
  destruct (Z.compare_spec x y) as [Exy|Lxy|Gxy]; [|clear H1|congruence].
  - subst y. destruct (Z.compare_spec x z) as [Exz|Lxz|Gxz]; try congruence.
    apply (IH b c); congruence.
  - destruct (Z.compare_spec y z) as [Eyz|Lyz|Gyz]; [| |congruence].
    + subst z. destruct (Z.compare_spec x y); try congruence; lia.
    + destruct (Z.compare_spec x z); try congruence; lia.
Qed.

Lemma padTo_length n l :
  (List.length l <= n)%nat -> List.length (padTo n l) = n.
Proof.
  intros H. unfold padTo. rewrite length_app, repeat_length. lia.
Qed.

(** Looking at more components than either version has changes nothing. *)
Lemma compareFrom_longer parts1 parts2 n :
  (Nat.max (List.length parts1) (List.length parts2) <= n)%nat ->
  compareFrom parts1 parts2 0 n =
  compareFrom parts1 parts2 0 (Nat.max (List.length parts1) (List.length parts2)).
Proof.
  intros Hn.
  set (len := Nat.max (List.length parts1) (List.length parts2)) in *.
  assert (Hrest : forall j, (len <= j)%nat -> partAt parts1 j = partAt parts2 j).
  { intros j Hj. rewrite !partAt_beyond; [reflexivity|subst len; lia|subst len; lia]. }
  destruct (compareFrom_first_difference n parts1 parts2 0)
    as [[Hz Hall]|(d & Hd & Hbefore & Hne & Hv)];
    destruct (compareFrom_first_difference len parts1 parts2 0)
      as [[Hz' Hall']|(d' & Hd' & Hbefore' & Hne' & Hv')].
  - congruence.
  - exfalso. apply Hne', Hall. lia.
  - exfalso. apply Hne.
    destruct (Nat.lt_ge_cases d len) as [Hlt|Hge]; [apply Hall'; lia|now apply Hrest].
  - assert (d = d') as ->; [|congruence].
    destruct (Nat.lt_trichotomy d d') as [Hlt|[Heq|Hgt]]; [|exact Heq|].
    + exfalso. apply Hne, Hbefore'. lia.
    + exfalso. apply Hne', Hbefore. lia.
Qed.

Lemma compare_le_iff z : (z ?= 0) <> Gt <-> z <= 0.
Proof. destruct (Z.compare_spec z 0); split; intros; try lia; congruence. Qed.

(** X9: on numeric versions [compareVersions] is a total preorder: of two
    versions one is at most the other, and "at most" is transitive, so
    that it can order any list of versions. *)
Theorem compareVersions_total_preorder v1 v2 v3 :
  numericVersion v1 = true ->
  numericVersion v2 = true ->
  numericVersion v3 = true ->
  compareVersions v1 v1 = 0 /\
  (compareVersions v1 v2 <= 0 \/ compareVersions v2 v1 <= 0) /\
  (compareVersions v1 v2 <= 0 -> compareVersions v2 v3 <= 0 ->
   compareVersions v1 v3 <= 0).
Proof.
  intros H1 H2 H3. split; [apply compareVersions_refl|]. split.
  - rewrite (compareVersions_swap v2 v1). lia.
  - intros H12 H23.
    set (n := Nat.max (List.length (components v1))
                (Nat.max (List.length (components v2))
                         (List.length (components v3)))).
    assert (Hat : forall u w,
      numericVersion u = true -> numericVersion w = true ->
      (List.length (components u) <= n)%nat ->
      (List.length (components w) <= n)%nat ->
      (compareVersions u w ?= 0) =
      lexCompare (padTo n (components u)) (padTo n (components w))).
    { intros u w Hu Hw Lu Lw. unfold compareVersions.
      rewrite (numeric_parts u Hu), (numeric_parts w Hw).
      rewrite <- (compareFrom_longer (List.map Num (components u))
                    (List.map Num (components w)) n)
        by (rewrite !length_map; lia).
      apply compareFrom_lexCompare; assumption. }
    apply (proj1 (compare_le_iff (compareVersions v1 v3))).
    rewrite (Hat v1 v3 H1 H3) by (subst n; lia).
    apply (lexCompare_le_trans (padTo n (components v1))
             (padTo n (components v2)) (padTo n (components v3))).
    + rewrite !padTo_length; subst n; lia.
    + rewrite !padTo_length; subst n; lia.
    + rewrite <- (Hat v1 v2 H1 H2) by (subst n; lia).
      exact (proj2 (compare_le_iff (compareVersions v1 v2)) H12).
    + rewrite <- (Hat v2 v3 H2 H3) by (subst n; lia).
      exact (proj2 (compare_le_iff (compareVersions v2 v3)) H23).
Qed.

Lemma compareVersions_total_preorder_witness :
  compareVersions "0.0.9" "0.0.9" = 0 /\
  (compareVersions "0.0.9" "0.0.10" <= 0 \/ compareVersions "0.0.10" "0.0.9" <= 0) /\
  (compareVersions "0.0.9" "0.0.10" <= 0 -> compareVersions "0.0.10" "0.1" <= 0 ->
   compareVersions "0.0.9" "0.1" <= 0).
Proof.
  refine (compareVersions_total_preorder "0.0.9" "0.0.10" "0.1" _ _ _);
    reflexivity.
Defined.

(** X10: on numeric versions the sign of [compareVersions] is the order of
    versions: the components are compared as numbers from the left, the
    shorter version padded with zeros; "1.10" is greater than "1.9". *)
Theorem compareVersions_is_the_version_order v1 v2 :
  numericVersion v1 = true ->
  numericVersion v2 = true ->
  (compareVersions v1 v2 < 0 <->
   versionCompare (components v1) (components v2) = Lt) /\
  (compareVersions v1 v2 = 0 <->
   versionCompare (components v1) (components v2) = Eq) /\
  (compareVersions v1 v2 > 0 <->
   versionCompare (components v1) (components v2) = Gt).
Proof.
  intros H1 H2.
  rewrite <- (compareVersions_versionCompare v1 v2 H1 H2).
  destruct (Z.compare_spec (compareVersions v1 v2) 0);
    repeat split; intros; try lia; try congruence.
Qed.

Lemma compareVersions_is_the_version_order_witness :
  (compareVersions "1.10" "1.9" < 0 <->
   versionCompare (components "1.10") (components "1.9") = Lt) /\
  (compareVersions "1.10" "1.9" = 0 <->
   versionCompare (components "1.10") (components "1.9") = Eq) /\
  (compareVersions "1.10" "1.9" > 0 <->
   versionCompare (components "1.10") (components "1.9") = Gt).
Proof.
  refine (compareVersions_is_the_version_order "1.10" "1.9" _ _); reflexivity.
Defined.

(** ** The supervisor, in full *)

Import EffectNotions.

Section SupervisorRuns.

Variable VERSION : string.
Variable LOG_FILE_PATH : string.
Variable host : Host.

(** The polling loop, turn by turn: how many polls it makes, how long
    they take, and which of them ends it. *)
Lemma pollVersion_trace p timeout startTime fuel : forall w,
  timeout - (now w - startTime) <= 500 * Z.of_nat fuel ->
  exists k w',
    effects w' = (effects w ++ versionPolls p k)%list /\
    fetches w' = (fetches w + k)%nat /\
    now w + 500 * Z.of_nat k <= now w' /\
    ((0 < k)%nat -> 500 * (Z.of_nat k - 1) < timeout - (now w - startTime)) /\
    (forall j, (S j < k)%nat -> versionAt host (fetches w + j) <> Some VERSION) /\
    (((0 < k)%nat /\
      versionAt host (fetches w + k - 1) = Some VERSION /\
      pollVersion VERSION LOG_FILE_PATH host fuel p timeout startTime w =
        (Some (Return {| started := true; version := VERSION;
                         result_port := p |}), w'))
     \/
     (pollVersion VERSION LOG_FILE_PATH host fuel p timeout startTime w =
        (Some (Throw (RelayServerStartError LOG_FILE_PATH p)), w') /\
      timeout <= now w' - startTime /\
      forall j, (j < k)%nat -> versionAt host (fetches w + j) <> Some VERSION)).
Proof.
  induction fuel as [|fuel IH]; intros w Hfuel.
  - exists O, w. simpl.
    destruct (Z.ltb_spec (now w - startTime) timeout) as [Hlt|Hge]; [lia|].
    rewrite app_nil_r.
    split; [reflexivity|]. split; [lia|]. split; [lia|].
    split; [intros H; lia|]. split; [intros j Hj; lia|].
    right. split; [reflexivity|]. split; [lia|intros j Hj; lia].
  - cbn [pollVersion].
    destruct (Z.ltb_spec (now w - startTime) timeout) as [Hlt|Hge].
    + rewrite getServerVersion_run. cbn [sleep now fetches effects].
      pose proof (N2Z.is_nonneg (latency host (fetches w))) as Hlat.
      set (w2 := {| now := now w + Z.max 0 500 +
                           Z.of_N (latency host (fetches w));
                    fetches := S (fetches w);
                    effects := ((effects w ++ [Sleep 500]) ++
                                [Fetch (versionUrl p) 500])%list |}).
      destruct (versionAt host (fetches w)) as [s|] eqn:Hv.
      * destruct (String.eqb_spec s VERSION) as [->|Hs].
        -- exists 1%nat, w2.
           split; [unfold versionPolls; simpl; now rewrite <- !app_assoc|].
           split; [simpl; lia|]. split; [simpl; lia|].
           split; [intros _; simpl; lia|]. split; [intros j Hj; lia|].
           left. split; [lia|]. split; [|reflexivity].
           now replace (fetches w + 1 - 1)%nat with (fetches w) by lia.
        -- destruct (IH w2) as (k & w' & He & Hf & Hn & Hb & Hfirst & Hend).
           { subst w2. cbn [now]. rewrite Nat2Z.inj_succ in Hfuel. lia. }
           exists (S k), w'.
           split; [rewrite He; unfold versionPolls; simpl;
                   now rewrite <- !app_assoc|].
           split; [rewrite Hf; simpl; lia|].
           split; [cbn [now w2] in Hn; rewrite Nat2Z.inj_succ; lia|].
           split.
           { intros _. rewrite Nat2Z.inj_succ.
             destruct k as [|k']; [simpl; lia|].
             assert (Hk : (0 < S k')%nat) by lia.
             specialize (Hb Hk). cbn [now w2] in Hb. lia. }
           split.
           { intros [|j] Hj.
             - rewrite Nat.add_0_r, Hv. congruence.
             - replace (fetches w + S j)%nat with (S (fetches w) + j)%nat by lia.
               apply Hfirst. lia. }
           destruct Hend as [(Hk & Hlast & Hrun)|(Hrun & Hout & Hnone)].
           ++ left. split; [lia|]. split; [|exact Hrun].
              cbn [fetches w2] in Hlast.
              now replace (fetches w + S k - 1)%nat
                with (S (fetches w) + k - 1)%nat by lia.
           ++ right. split; [exact Hrun|]. split; [exact Hout|].
              intros [|j] Hj.
              ** rewrite Nat.add_0_r, Hv. congruence.
              ** replace (fetches w + S j)%nat
                   with (S (fetches w) + j)%nat by lia.
                 apply Hnone. lia.
      * destruct (IH w2) as (k & w' & He & Hf & Hn & Hb & Hfirst & Hend).
        { subst w2. cbn [now]. rewrite Nat2Z.inj_succ in Hfuel. lia. }
        exists (S k), w'.
        split; [rewrite He; unfold versionPolls; simpl;
                now rewrite <- !app_assoc|].
        split; [rewrite Hf; simpl; lia|].
        split; [cbn [now w2] in Hn; rewrite Nat2Z.inj_succ; lia|].
        split.
        { intros _. rewrite Nat2Z.inj_succ.
          destruct k as [|k']; [simpl; lia|].
          assert (Hk : (0 < S k')%nat) by lia.
          specialize (Hb Hk). cbn [now w2] in Hb. lia. }
        split.
        { intros [|j] Hj.
          - rewrite Nat.add_0_r, Hv. discriminate.
          - replace (fetches w + S j)%nat with (S (fetches w) + j)%nat by lia.
            apply Hfirst. lia. }
        destruct Hend as [(Hk & Hlast & Hrun)|(Hrun & Hout & Hnone)].
        -- left. split; [lia|]. split; [|exact Hrun].
           cbn [fetches w2] in Hlast.
           now replace (fetches w + S k - 1)%nat
             with (S (fetches w) + k - 1)%nat by lia.
        -- right. split; [exact Hrun|]. split; [exact Hout|].
           intros [|j] Hj.
           ++ rewrite Nat.add_0_r, Hv. discriminate.
           ++ replace (fetches w + S j)%nat
                with (S (fetches w) + j)%nat by lia.
              apply Hnone. lia.
    + exists O, w. rewrite app_nil_r.
      split; [reflexivity|]. split; [lia|]. split; [lia|].
      split; [intros H; lia|]. split; [intros j Hj; lia|].
      right. split; [reflexivity|]. split; [lia|intros j Hj; lia].
Qed.

(** Every run of [ensurePersistentRelay]: either the server found is up
    to date and the probe is all that happens, or the old server, if any,
    is killed, a new one spawned, and the polling loop decides. *)
Lemma ensurePersistentRelay_runs options w :
  (exists existing w',
     versionAt host (fetches w) = Some existing /\
     0 <= compareVersions existing VERSION /\
     ensurePersistentRelay VERSION LOG_FILE_PATH host options w =
       (Some (Return {| started := false; version := existing;
                        result_port := portOf options |}), w') /\
     effects w' = (effects w ++ [Fetch (versionUrl (portOf options)) 500])%list /\
     fetches w' = S (fetches w) /\ now w <= now w')
  \/
  (upToDate VERSION (versionAt host (fetches w)) = false /\
   exists k w' outcome,
     ensurePersistentRelay VERSION LOG_FILE_PATH host options w =
       (Some outcome, w') /\
     effects w' =
       (effects w ++ Fetch (versionUrl (portOf options)) 500
          :: startEffects host (portOf options) (versionAt host (fetches w))
          ++ versionPolls (portOf options) k)%list /\
     fetches w' = (S (fetches w) + k)%nat /\
     now w + 500 * Z.of_nat k <= now w' /\
     ((0 < k)%nat -> 500 * (Z.of_nat k - 1) < startTimeoutOf options) /\
     (forall j, (1 <= j < k)%nat -> versionAt host (fetches w + j) <> Some VERSION) /\
     (((0 < k)%nat /\
       versionAt host (fetches w + k) = Some VERSION /\
       outcome = Return {| started := true; version := VERSION;
                           result_port := portOf options |})
      \/
      (outcome = Throw (RelayServerStartError LOG_FILE_PATH (portOf options)) /\
       startTimeoutOf options <= now w' - now w /\
       forall j, (1 <= j <= k)%nat ->
                 versionAt host (fetches w + j) <> Some VERSION))).
Proof.
  unfold ensurePersistentRelay. rewrite getServerVersion_run.
  fold (portOf options). fold (startTimeoutOf options).
  set (p := portOf options). set (timeout := startTimeoutOf options).
  set (w1 := {| now := now w + Z.of_N (latency host (fetches w));
                fetches := S (fetches w);
                effects := (effects w ++ [Fetch (versionUrl p) 500])%list |}).
  pose proof (N2Z.is_nonneg (latency host (fetches w))) as Hlat.
  assert (Hpoll : forall w3,
    fetches w3 = S (fetches w) -> now w1 <= now w3 ->
    effects w3 = (effects w1 ++
                  startEffects host p (versionAt host (fetches w)))%list ->
    exists k w' outcome,
      pollVersion VERSION LOG_FILE_PATH host (pollBound timeout) p timeout
        (now w3) w3 = (Some outcome, w') /\
      effects w' =
        (effects w ++ Fetch (versionUrl p) 500
           :: startEffects host p (versionAt host (fetches w))
           ++ versionPolls p k)%list /\
      fetches w' = (S (fetches w) + k)%nat /\
      now w + 500 * Z.of_nat k <= now w' /\
      ((0 < k)%nat -> 500 * (Z.of_nat k - 1) < timeout) /\
      (forall j, (1 <= j < k)%nat -> versionAt host (fetches w + j) <> Some VERSION) /\
      (((0 < k)%nat /\
        versionAt host (fetches w + k) = Some VERSION /\
        outcome = Return {| started := true; version := VERSION;
                            result_port := p |})
       \/
       (outcome = Throw (RelayServerStartError LOG_FILE_PATH p) /\
        timeout <= now w' - now w /\
        forall j, (1 <= j <= k)%nat ->
                  versionAt host (fetches w + j) <> Some VERSION))).
  { intros w3 Hf Hn He.
    destruct (pollVersion_trace p timeout (now w3) (pollBound timeout) w3)
      as (k & w' & Heff & Hfe & Hnow & Hb & Hfirst & Hend).
    { pose proof (pollBound_enough timeout). lia. }
    assert (Heff' : effects w' =
              (effects w ++ Fetch (versionUrl p) 500
                 :: startEffects host p (versionAt host (fetches w))
                 ++ versionPolls p k)%list).
    { rewrite Heff, He. simpl. rewrite <- !app_assoc. reflexivity. }
    simpl in Hn.
    assert (Hidx : forall j, (1 <= j)%nat ->
                     (fetches w + j = fetches w3 + (j - 1))%nat)
      by (intros j Hj; rewrite Hf; lia).
    destruct Hend as [(Hk & Hlast & Hrun)|(Hrun & Hout & Hnone)].
    - exists k, w', (Return {| started := true; version := VERSION;
                               result_port := p |}).
      split; [exact Hrun|]. split; [exact Heff'|].
      split; [rewrite Hfe, Hf; reflexivity|]. split; [lia|].
      split; [intros H0; specialize (Hb H0); lia|].
      split.
      + intros j Hj. rewrite Hidx by lia. apply Hfirst. lia.
      + left. split; [exact Hk|]. split; [|reflexivity].
        rewrite Hidx by lia.
        now replace (fetches w3 + (k - 1))%nat with (fetches w3 + k - 1)%nat by lia.
    - exists k, w', (Throw (RelayServerStartError LOG_FILE_PATH p)).
      split; [exact Hrun|]. split; [exact Heff'|].
      split; [rewrite Hfe, Hf; reflexivity|]. split; [lia|].
      split; [intros H0; specialize (Hb H0); lia|].
      split.
      + intros j Hj. rewrite Hidx by lia. apply Hnone. lia.
      + right. split; [reflexivity|]. split; [lia|].
        intros j Hj. rewrite Hidx by lia. apply Hnone. lia. }
  destruct (versionAt host (fetches w)) as [existing|] eqn:Hv.
  - destruct (Z.leb_spec 0 (compareVersions existing VERSION)) as [Hge|Hlt].
    + left. exists existing, w1. repeat split; try reflexivity; simpl; lia.
    + right. split.
      { simpl. destruct (Z.leb_spec 0 (compareVersions existing VERSION)); [lia|reflexivity]. }
      apply Hpoll; unfold spawnServer, killOldVersion, startEffects;
        destruct (killPortProcessThrows host), (development host); simpl;
        rewrite <- ?app_assoc; simpl; try reflexivity; lia.
  - right. split; [reflexivity|].
    apply Hpoll; unfold spawnServer, startEffects;
      destruct (development host); simpl;
      rewrite <- ?app_assoc; simpl; try reflexivity; lia.
Qed.

End SupervisorRuns.

Lemma added_app (w w' : World) l :
  effects w' = (effects w ++ l)%list -> added w w' = l.
Proof.
  intros H. unfold added. rewrite H, skipn_app, skipn_all, Nat.sub_diag.
  reflexivity.
Qed.

Lemma versionPolls_no_kill p k : filter isKill (versionPolls p k) = [].
Proof. induction k as [|k IH]; [reflexivity|exact IH]. Qed.

Lemma versionPolls_no_spawn p k : filter isSpawn (versionPolls p k) = [].
Proof. induction k as [|k IH]; [reflexivity|exact IH]. Qed.

Lemma filter_nil_not_in {A} (f : A -> bool) l x :
  filter f l = [] -> f x = true -> ~ In x l.
Proof.
  intros Hnil Hx Hin.
  assert (Hf : In x (filter f l)) by (apply filter_In; auto).
  rewrite Hnil in Hf. exact Hf.
Qed.

(** ** The supervisor and a server that answers anything *)

Section UncheckedRuns.

Variable VERSION : string.
Variable LOG_FILE_PATH : string.
Variable server : Unchecked.Server.
Variable host : Host.

(** The host is a typed reading of the server: the same machine, and
    the answers of [/version] that are strings. *)
Hypothesis same_latency : forall n,
  latency host n = latency (Unchecked.machine server) n.
Hypothesis same_kill :
  killPortProcessThrows host = killPortProcessThrows (Unchecked.machine server).
Hypothesis same_development :
  development host = development (Unchecked.machine server).
Hypothesis same_execPath : execPath host = execPath (Unchecked.machine server).
Hypothesis same_versions : forall n,
  versionAt host n = Unchecked.textOf (Unchecked.versionAnswer server n).

Lemma getServerVersion_answer p w :
  Unchecked.getServerVersion server p w =
  (Unchecked.versionAnswer server (fetches w),
   {| now := now w + Z.of_N (latency host (fetches w));
      fetches := S (fetches w);
      effects := (effects w ++ [Fetch (versionUrl p) 500])%list |}).
Proof.
  unfold Unchecked.getServerVersion, fetch, Unchecked.versionAnswer.
  rewrite same_latency.
  destruct (Unchecked.versionBody server (fetches w)) as [r|]; [|reflexivity].
  destruct (ok r); [|reflexivity]. cbn [negb].
  destruct (json r) as [data|]; [|reflexivity].
  now destruct (JS.nullish data).
Qed.

Lemma spawnServer_same w :
  spawnServer (Unchecked.machine server) w = spawnServer host w.
Proof. unfold spawnServer. now rewrite same_development, same_execPath. Qed.

Lemma killOldVersion_same p w :
  killOldVersion (Unchecked.machine server) p w = killOldVersion host p w.
Proof. unfold killOldVersion. now rewrite same_kill. Qed.

(** The polling loop does not tell an answer that is not a string from
    no answer. *)
Lemma pollVersion_unchecked fuel p timeout startTime : forall w,
  Unchecked.pollVersion VERSION LOG_FILE_PATH server fuel p timeout startTime w =
  Unchecked.unchecked
    (pollVersion VERSION LOG_FILE_PATH host fuel p timeout startTime w).
Proof.
  induction fuel as [|fuel IH]; intros w;
    cbn [Unchecked.pollVersion pollVersion];
    destruct (now w - startTime <? timeout); try reflexivity.
  rewrite getServerVersion_answer, getServerVersion_run, same_versions.
  cbn [sleep fetches].
  destruct (Unchecked.versionAnswer server (fetches w)) as [| |b|n|s|items|fields];
    cbn [Unchecked.textOf]; try apply IH.
  destruct (s =? VERSION)%string; [reflexivity|apply IH].
Qed.

(** The first probe does: an answer that is neither [null] nor a string
    ends the call with a TypeError; any other run is the run of the typed
    reading. *)
Lemma ensurePersistentRelay_unchecked options w :
  Unchecked.ensurePersistentRelay VERSION LOG_FILE_PATH server options w =
  if Unchecked.untypedAt server (fetches w)
  then (Some (Throw (Unchecked.Runtime TypeError_)),
        {| now := now w + Z.of_N (latency host (fetches w));
           fetches := S (fetches w);
           effects := (effects w ++ [Fetch (versionUrl (portOf options)) 500])%list |})
  else Unchecked.unchecked
         (ensurePersistentRelay VERSION LOG_FILE_PATH host options w).
Proof.
  unfold Unchecked.ensurePersistentRelay, ensurePersistentRelay,
    Unchecked.untypedAt.
  rewrite getServerVersion_answer, getServerVersion_run, same_versions.
  fold (portOf options).
  destruct (Unchecked.versionAnswer server (fetches w)) as [| |b|n|s|items|fields];
    cbn [Unchecked.textOf]; try reflexivity.
  - rewrite spawnServer_same. apply pollVersion_unchecked.
  - destruct (0 <=? compareVersions s VERSION); [reflexivity|].
    rewrite killOldVersion_same, spawnServer_same. apply pollVersion_unchecked.
Qed.

End UncheckedRuns.

(** X11: ensurePersistentRelay always settles, and in one of four ways,
    whatever the server answers. It resolves with the port asked for and a
    version that does not compare below VERSION: VERSION itself when
    started is true, the answer of the first probe, after that probe
    alone, when started is false. It throws RelayServerStartError for that
    port after one server was spawned and the timeout has passed. Or it
    throws a TypeError right after the first probe: exactly when the
    server answered it with a body whose version is neither a string nor
    null. *)
Theorem ensurePersistentRelay_postcondition
  (VERSION LOG_FILE_PATH : string) (server : Unchecked.Server)
  (options : option Options) (w : World) :
  exists outcome w',
    Unchecked.ensurePersistentRelay VERSION LOG_FILE_PATH server options w =
      (Some outcome, w') /\
    match outcome with
    | Return r =>
        Unchecked.untypedAt server (fetches w) = false /\
        result_port r = portOf options /\
        0 <= compareVersions (version r) VERSION /\
        (started r = true -> version r = VERSION) /\
        (started r = false ->
         Unchecked.versionAnswer server (fetches w) = JS.JString (version r) /\
         added w w' = [Fetch (versionUrl (portOf options)) 500])
    | Throw (Unchecked.Relay e) =>
        Unchecked.untypedAt server (fetches w) = false /\
        e = RelayServerStartError LOG_FILE_PATH (portOf options) /\
        startTimeoutOf options <= now w' - now w /\
        length (filter isSpawn (added w w')) = 1%nat
    | Throw (Unchecked.Runtime e) =>
        Unchecked.untypedAt server (fetches w) = true /\
        e = TypeError_ /\
        added w w' = [Fetch (versionUrl (portOf options)) 500]
    end.
Proof.
  rewrite (ensurePersistentRelay_unchecked VERSION LOG_FILE_PATH server
             (Unchecked.typedOf server)) by reflexivity.
  destruct (Unchecked.untypedAt server (fetches w)) eqn:Huntyped.
  - eexists _, _. split; [reflexivity|].
    split; [reflexivity|]. split; [reflexivity|].
    now apply added_app.
  - destruct (ensurePersistentRelay_runs VERSION LOG_FILE_PATH
                (Unchecked.typedOf server) options w)
      as [(existing & w' & Hv & Hge & Hrun & He & _)
         |(Hup & k & w' & outcome & Hrun & He & _ & _ & _ & _ & Hend)];
      unfold Unchecked.unchecked; rewrite Hrun; cbn [fst snd].
    + eexists _, w'. split; [reflexivity|]. cbn [result_port version started].
      split; [reflexivity|]. split; [reflexivity|]. split; [exact Hge|].
      split; [discriminate|]. intros _. split; [|now apply added_app].
      change (versionAt (Unchecked.typedOf server) (fetches w))
        with (Unchecked.textOf (Unchecked.versionAnswer server (fetches w)))
        in Hv.
      destruct (Unchecked.versionAnswer server (fetches w)); try discriminate.
      now inversion Hv.
    + destruct Hend as [(_ & _ & ->)|(-> & Hout & _)].
      * eexists _, w'. split; [reflexivity|].
        cbn [result_port version started].
        split; [reflexivity|]. split; [reflexivity|].
        split; [rewrite compareVersions_refl; lia|].
        split; [reflexivity|discriminate].
      * eexists _, w'. split; [reflexivity|].
        split; [reflexivity|]. split; [reflexivity|]. split; [exact Hout|].
        rewrite (added_app w w' _ He). cbn [filter isSpawn isFetch].
        unfold startEffects. rewrite !filter_app, versionPolls_no_spawn.
        destruct (versionAt (Unchecked.typedOf server) (fetches w));
          [|reflexivity].
        now destruct (killPortProcessThrows (Unchecked.typedOf server)).
Qed.

(** X29: on a server that answers as typed, the body of [/version] being
    [{ version: v }] with a string [v] whenever it is JSON, the supervisor
    that takes the body as it comes is the supervisor of the typed
    reading: the same result, the same effects, the same clock, and never
    a TypeError. *)
Theorem typed_servers_are_read_as_typed
  (VERSION LOG_FILE_PATH : string) (host : Host)
  (options : option Options) (w : World) :
  Unchecked.ensurePersistentRelay VERSION LOG_FILE_PATH
    (Unchecked.serverOf host) options w =
  Unchecked.unchecked (ensurePersistentRelay VERSION LOG_FILE_PATH host options w)
  /\ forall n, Unchecked.untypedAt (Unchecked.serverOf host) n = false.
Proof.
  assert (Hversions : forall n,
            versionAt host n =
            Unchecked.textOf
              (Unchecked.versionAnswer (Unchecked.serverOf host) n)).
  { intros n. unfold versionAt, Unchecked.versionAnswer, Unchecked.serverOf.
    cbn [Unchecked.versionBody].
    destruct (versionReply host n) as [r|]; [|reflexivity].
    cbn [ok json]. destruct (ok r); [|reflexivity]. cbn [negb].
    now destruct (json r). }
  assert (Htyped : forall n,
            Unchecked.untypedAt (Unchecked.serverOf host) n = false).
  { intros n. unfold Unchecked.untypedAt, Unchecked.versionAnswer,
      Unchecked.serverOf.
    cbn [Unchecked.versionBody].
    destruct (versionReply host n) as [r|]; [|reflexivity].
    cbn [ok json]. destruct (ok r); [|reflexivity]. cbn [negb].
    now destruct (json r). }
  split; [|exact Htyped].
  rewrite (ensurePersistentRelay_unchecked VERSION LOG_FILE_PATH
             (Unchecked.serverOf host) host); try reflexivity;
    [|exact Hversions].
  now rewrite Htyped.
Qed.

(** X12: what ensurePersistentRelay kills and spawns. It calls
    killPortProcess only on the port asked for and only when its first
    probe was answered with a version that compares below VERSION, never
    when the probe failed, and at most once; it spawns one server exactly
    when the first probe did not find an up-to-date server, and none
    otherwise. *)
Theorem ensurePersistentRelay_kills_only_older_versions
  (VERSION LOG_FILE_PATH : string) (host : Host)
  (options : option Options) (w : World) :
  let w' := snd (ensurePersistentRelay VERSION LOG_FILE_PATH host options w) in
  (forall q, In (KillPortProcess q) (added w w') ->
     q = portOf options /\
     exists existing,
       versionAt host (fetches w) = Some existing /\
       compareVersions existing VERSION < 0) /\
  (length (filter isKill (added w w')) <= 1)%nat /\
  length (filter isSpawn (added w w')) =
    (if upToDate VERSION (versionAt host (fetches w)) then 0 else 1)%nat.
Proof.
  destruct (ensurePersistentRelay_runs VERSION LOG_FILE_PATH host options w)
    as [(existing & w' & Hv & Hge & Hrun & He & _)
       |(Hup & k & w' & outcome & Hrun & He & _)];
    rewrite Hrun; cbn [snd]; rewrite (added_app w w' _ He).
  - split; [|split].
    + intros q [Hq|[]]. discriminate.
    + simpl. lia.
    + rewrite Hv. simpl.
      destruct (Z.leb_spec 0 (compareVersions existing VERSION)); [reflexivity|lia].
  - rewrite Hup. split; [|split].
    + intros q [Hq|Hq]; [discriminate|].
      apply in_app_or in Hq. destruct Hq as [Hq|Hq].
      * unfold startEffects in Hq.
        destruct (versionAt host (fetches w)) as [existing|] eqn:Hv.
        -- assert (q = portOf options) as ->.
           { destruct (killPortProcessThrows host); simpl in Hq;
               repeat (destruct Hq as [Hq|Hq]; try discriminate;
                       try (now inversion Hq)); contradiction. }
           split; [reflexivity|]. exists existing. split; [reflexivity|].
           simpl in Hup.
           destruct (Z.leb_spec 0 (compareVersions existing VERSION));
             [discriminate|assumption].
        -- simpl in Hq.
           repeat (destruct Hq as [Hq|Hq]; try discriminate). contradiction.
      * exfalso. revert Hq. apply (filter_nil_not_in isKill);
          [apply versionPolls_no_kill|reflexivity].
    + cbn [filter isKill]. unfold startEffects.
      rewrite !filter_app, versionPolls_no_kill.
      destruct (versionAt host (fetches w)); [|simpl; lia].
      destruct (killPortProcessThrows host); simpl; lia.
    + cbn [filter isSpawn]. unfold startEffects.
      rewrite !filter_app, versionPolls_no_spawn.
      destruct (versionAt host (fetches w)); [|reflexivity].
      now destruct (killPortProcessThrows host).
Qed.

(** X13: how often ensurePersistentRelay asks for the version. After the
    first probe it polls fewer than timeout/500 + 1 times, whatever the
    server answers and however long the answers take; with a timeout of
    zero or less it does not poll at all, so a server that had to be
    spawned is always reported as not started. *)
Theorem ensurePersistentRelay_poll_bound
  (VERSION LOG_FILE_PATH : string) (host : Host)
  (options : option Options) (w : World) :
  let run := ensurePersistentRelay VERSION LOG_FILE_PATH host options w in
  let polls := (fetches (snd run) - S (fetches w))%nat in
  (fetches w < fetches (snd run))%nat /\
  500 * Z.of_nat polls < Z.max 0 (startTimeoutOf options) + 500 /\
  (startTimeoutOf options <= 0 ->
   polls = 0%nat /\
   (upToDate VERSION (versionAt host (fetches w)) = false ->
    fst run = Some (Throw (RelayServerStartError LOG_FILE_PATH
                             (portOf options))))).
Proof.
  destruct (ensurePersistentRelay_runs VERSION LOG_FILE_PATH host options w)
    as [(existing & w' & Hv & Hge & Hrun & He & Hf & _)
       |(Hup & k & w' & outcome & Hrun & He & Hf & _ & Hb & _ & Hend)];
    rewrite Hrun; cbn [snd fst]; rewrite Hf.
  - rewrite Nat.sub_diag. split; [lia|]. split; [simpl; lia|].
    intros _. split; [reflexivity|]. rewrite Hv. simpl.
    destruct (Z.leb_spec 0 (compareVersions existing VERSION));
      [discriminate|lia].
  - replace (S (fetches w) + k - S (fetches w))%nat with k by lia.
    split; [lia|]. split.
    + destruct k as [|k']; [simpl; lia|].
      assert (Hk : (0 < S k')%nat) by lia. specialize (Hb Hk). lia.
    + intros Hle.
      assert (Hk0 : k = 0%nat).
      { destruct k as [|k']; [reflexivity|].
        assert (Hk : (0 < S k')%nat) by lia. specialize (Hb Hk). lia. }
      split; [exact Hk0|]. intros _.
      destruct Hend as [(Hk & _)|(-> & _)]; [lia|reflexivity].
Qed.

(** X14: a result with started true is reached at the first poll that
    meets VERSION. The first probe did not find an up-to-date server, a
    server was spawned, no poll before the last one was answered with
    VERSION, nothing is done after it, and at least 500 ms have passed for
    each poll made. *)
Theorem started_at_first_matching_poll
  (VERSION LOG_FILE_PATH : string) (host : Host)
  (options : option Options) (w w' : World)
  (r : EnsurePersistentRelayResult) :
  ensurePersistentRelay VERSION LOG_FILE_PATH host options w =
    (Some (Return r), w') ->
  started r = true ->
  upToDate VERSION (versionAt host (fetches w)) = false /\
  exists k,
    (0 < k)%nat /\
    versionAt host (fetches w + k) = Some VERSION /\
    (forall j, (1 <= j < k)%nat ->
       versionAt host (fetches w + j) <> Some VERSION) /\
    added w w' =
      (Fetch (versionUrl (portOf options)) 500
         :: startEffects host (portOf options) (versionAt host (fetches w))
         ++ versionPolls (portOf options) k)%list /\
    now w + 500 * Z.of_nat k <= now w'.
Proof.
  intros Hrun Hstarted.
  destruct (ensurePersistentRelay_runs VERSION LOG_FILE_PATH host options w)
    as [(existing & w1 & Hv & Hge & Hrun1 & _)
       |(Hup & k & w1 & outcome & Hrun1 & He & _ & Hn & _ & Hfirst & Hend)];
    rewrite Hrun in Hrun1.
  - inversion Hrun1; subst. discriminate.
  - inversion Hrun1; subst. split; [exact Hup|].
    destruct Hend as [(Hk & Hlast & _)|(Habs & _)]; [|discriminate].
    exists k. split; [exact Hk|]. split; [exact Hlast|].
    split; [exact Hfirst|]. split; [now apply added_app|exact Hn].
Qed.

Lemma started_at_first_matching_poll_witness :
  upToDate "0.0.47" (versionAt upgraded (fetches boot)) = false /\
  exists k,
    (0 < k)%nat /\
    versionAt upgraded (fetches boot + k) = Some "0.0.47" /\
    (forall j, (1 <= j < k)%nat ->
       versionAt upgraded (fetches boot + j) <> Some "0.0.47") /\
    added boot
      {| now := 1020; fetches := 2;
         effects := [Fetch "http://127.0.0.1:19988/version" 500;
                     KillPortProcess 19988; Sleep 500;
                     Spawn "/usr/bin/node" "./start-relay-server.js" true
                       "ignore";
                     Unref;
                     Sleep 500;
                     Fetch "http://127.0.0.1:19988/version" 500] |} =
      (Fetch (versionUrl (portOf quick)) 500
         :: startEffects upgraded (portOf quick)
              (versionAt upgraded (fetches boot))
         ++ versionPolls (portOf quick) k)%list /\
    now boot + 500 * Z.of_nat k <= 1020.
Proof.
  refine (started_at_first_matching_poll "0.0.47"
            "/tmp/playwriter/relay-server.log" upgraded quick boot _
            {| started := true; version := "0.0.47"; result_port := 19988 |}
            _ _); reflexivity.
Defined.

Lemma pollVersion_turn VERSION LOG_FILE_PATH host fuel p timeout startTime w :
  now w - startTime < timeout ->
  pollVersion VERSION LOG_FILE_PATH host (S fuel) p timeout startTime w =
  let w2 := {| now := now w + Z.max 0 500 + Z.of_N (latency host (fetches w));
               fetches := S (fetches w);
               effects := ((effects w ++ [Sleep 500]) ++
                           [Fetch (versionUrl p) 500])%list |} in
  match versionAt host (fetches w) with
  | Some s =>
      if (s =? VERSION)%string
      then (Some (Return {| started := true; version := s;
                            result_port := p |}), w2)
      else pollVersion VERSION LOG_FILE_PATH host fuel p timeout startTime w2
  | None => pollVersion VERSION LOG_FILE_PATH host fuel p timeout startTime w2
  end.
Proof.
  intros Hlt. cbn [pollVersion].
  destruct (Z.ltb_spec (now w - startTime) timeout); [|lia].
  rewrite getServerVersion_run. reflexivity.
Qed.

(** X15: when the first probe does not find an up-to-date server, the
    timeout is positive and the first poll after the spawn is answered
    with VERSION, ensurePersistentRelay resolves with started true,
    VERSION and the port, having slept 500 ms once and polled once. *)
Theorem ensurePersistentRelay_starts_a_server
  (VERSION LOG_FILE_PATH : string) (host : Host)
  (options : option Options) (w : World) :
  upToDate VERSION (versionAt host (fetches w)) = false ->
  0 < startTimeoutOf options ->
  versionAt host (S (fetches w)) = Some VERSION ->
  let run := ensurePersistentRelay VERSION LOG_FILE_PATH host options w in
  fst run = Some (Return {| started := true; version := VERSION;
                            result_port := portOf options |}) /\
  added w (snd run) =
    (Fetch (versionUrl (portOf options)) 500
       :: startEffects host (portOf options) (versionAt host (fetches w))
       ++ [Sleep 500; Fetch (versionUrl (portOf options)) 500])%list.
Proof.
  intros Hup Htimeout Hnext. cbv zeta.
  unfold ensurePersistentRelay. rewrite getServerVersion_run.
  fold (portOf options). fold (startTimeoutOf options).
  unfold pollBound, killOldVersion, startEffects.
  destruct (versionAt host (fetches w)) as [existing|].
  - simpl in Hup. rewrite Hup.
    destruct (killPortProcessThrows host);
      (rewrite pollVersion_turn by lia);
      cbn [fetches sleep spawnServer act effects now];
      rewrite Hnext, String.eqb_refl; cbn [fst snd];
      (split; [reflexivity|]); apply added_app; cbn [effects];
      rewrite <- !app_assoc; reflexivity.
  - rewrite pollVersion_turn by lia.
    cbn [fetches sleep spawnServer act effects now].
    rewrite Hnext, String.eqb_refl. cbn [fst snd].
    split; [reflexivity|]. apply added_app. cbn [effects].
    rewrite <- !app_assoc. reflexivity.
Qed.

Lemma ensurePersistentRelay_starts_a_server_witness :
  let run := ensurePersistentRelay "0.0.47" "/tmp/playwriter/relay-server.log"
               upgraded quick boot in
  fst run = Some (Return {| started := true; version := "0.0.47";
                            result_port := portOf quick |}) /\
  added boot (snd run) =
    (Fetch (versionUrl (portOf quick)) 500
       :: startEffects upgraded (portOf quick)
            (versionAt upgraded (fetches boot))
       ++ [Sleep 500; Fetch (versionUrl (portOf quick)) 500])%list.
Proof.
  refine (ensurePersistentRelay_starts_a_server "0.0.47"
            "/tmp/playwriter/relay-server.log" upgraded quick boot _ _ _);
    reflexivity.
Defined.

(** ** Waiting for the extension, in full *)

Section WaitRuns.

Variable host : Host.

(** The clock and the count of polls of the loop of [waitForExtension]:
    a poll is made only while the timeout has not passed, and each poll
    but the last is followed by a sleep of the interval. *)
Lemma pollExtension_clock p timeout interval startTime fuel : forall w,
  0 < interval ->
  let run := pollExtension host fuel p timeout interval startTime w in
  (fetches w <= fetches (snd run))%nat /\
  now w <= now (snd run) /\
  ((fetches w < fetches (snd run))%nat ->
   interval * (Z.of_nat (fetches (snd run) - fetches w) - 1)
     < timeout - (now w - startTime)) /\
  (timeout - (now w - startTime) <= 0 ->
   run = (Some (Throw (ExtensionNotConnectedError p)), w)).
Proof.
  induction fuel as [|fuel IH]; intros w Hi; cbv zeta.
  - simpl.
    destruct (Z.ltb_spec (now w - startTime) timeout) as [Hlt|Hge]; simpl;
      (split; [lia|]); (split; [lia|]); (split; [lia|]); intros H;
      [lia|reflexivity].
  - cbn [pollExtension].
    destruct (Z.ltb_spec (now w - startTime) timeout) as [Hlt|Hge].
    + rewrite pollStatus_run.
      set (w1 := {| now := now w + Z.of_N (latency host (fetches w));
                    fetches := S (fetches w);
                    effects := (effects w ++ [Fetch (statusUrl p) 1000])%list |}).
      pose proof (N2Z.is_nonneg (latency host (fetches w))) as Hlat.
      assert (Hcontinue :
        let run := pollExtension host fuel p timeout interval startTime
                     (sleep interval w1) in
        (fetches w <= fetches (snd run))%nat /\
        now w <= now (snd run) /\
        ((fetches w < fetches (snd run))%nat ->
         interval * (Z.of_nat (fetches (snd run) - fetches w) - 1)
           < timeout - (now w - startTime)) /\
        (timeout - (now w - startTime) <= 0 ->
         run = (Some (Throw (ExtensionNotConnectedError p)), w))).
      { destruct (IH (sleep interval w1) Hi) as (Hf & Hn & Hb & _).
        cbv zeta. cbn [sleep now fetches w1] in Hf, Hn, Hb.
        split; [lia|]. split; [lia|]. split; [|lia].
        intros _.
        destruct (Nat.eq_dec
                    (fetches (snd (pollExtension host fuel p timeout interval
                                     startTime (sleep interval w1))))
                    (S (fetches w))) as [E|E].
        - rewrite E. replace (S (fetches w) - fetches w)%nat with 1%nat by lia.
          simpl. lia.
        - assert (Hmore : (S (fetches w) <
                   fetches (snd (pollExtension host fuel p timeout interval
                                   startTime (sleep interval w1))))%nat) by lia.
          specialize (Hb Hmore).
          rewrite Nat2Z.inj_sub in Hb by lia.
          rewrite Nat2Z.inj_sub by lia.
          rewrite Nat2Z.inj_succ in Hb. nia. }
      destruct (statusAt host (fetches w)) as [st|].
      * destruct (ready st).
        -- cbn [snd fetches now w1].
           split; [lia|]. split; [lia|]. split; [|lia].
           intros _. replace (S (fetches w) - fetches w)%nat with 1%nat by lia.
           simpl. lia.
        -- exact Hcontinue.
      * exact Hcontinue.
    + cbn [snd]. split; [lia|]. split; [lia|]. split; [lia|]. reflexivity.
Qed.

End WaitRuns.

(** X16: with a positive poll interval waitForExtension always settles.
    A result it resolves with has connected true and a page count of at
    least 1; otherwise it throws ExtensionNotConnectedError for the port
    asked for, once the timeout has passed. It polls fewer than
    timeout/pollInterval + 1 times, and with a timeout of zero or less it
    throws at once, without asking the server. *)
Theorem waitForExtension_postcondition
  (host : Host) (options : option Options) (w : World) :
  0 < pollIntervalOf options ->
  exists outcome w',
    waitForExtension host options w = (Some outcome, w') /\
    match outcome with
    | Return r => wait_connected r = true /\ 1 <= wait_pageCount r
    | Throw e =>
        e = ExtensionNotConnectedError (portOf options) /\
        waitTimeoutOf options <= now w' - now w
    end /\
    pollIntervalOf options * Z.of_nat (fetches w' - fetches w)
      < Z.max 0 (waitTimeoutOf options) + pollIntervalOf options /\
    (waitTimeoutOf options <= 0 ->
     outcome = Throw (ExtensionNotConnectedError (portOf options)) /\ w' = w).
Proof.
  intros Hi.
  pose proof (waitBound_enough (waitTimeoutOf options) (pollIntervalOf options) Hi)
    as Hfuel.
  destruct (pollExtension_run host (portOf options) (waitTimeoutOf options)
              (pollIntervalOf options) (now w)
              (waitBound (waitTimeoutOf options) (pollIntervalOf options)) w Hi)
    as (k & w' & _ & Hend); [lia|].
  destruct (pollExtension_clock host (portOf options) (waitTimeoutOf options)
              (pollIntervalOf options) (now w)
              (waitBound (waitTimeoutOf options) (pollIntervalOf options)) w Hi)
    as (Hf & _ & Hb & Hzero).
  unfold waitForExtension.
  fold (portOf options) (waitTimeoutOf options) (pollIntervalOf options).
  assert (Hbound : forall w1,
            snd (pollExtension host
                   (waitBound (waitTimeoutOf options) (pollIntervalOf options))
                   (portOf options) (waitTimeoutOf options)
                   (pollIntervalOf options) (now w) w) = w1 ->
            pollIntervalOf options * Z.of_nat (fetches w1 - fetches w)
              < Z.max 0 (waitTimeoutOf options) + pollIntervalOf options).
  { intros w1 <-.
    destruct (Nat.eq_dec
                (fetches (snd (pollExtension host
                   (waitBound (waitTimeoutOf options) (pollIntervalOf options))
                   (portOf options) (waitTimeoutOf options)
                   (pollIntervalOf options) (now w) w)))
                (fetches w)) as [E|E].
    - rewrite E, Nat.sub_diag. simpl. lia.
    - assert (Hmore : (fetches w <
                fetches (snd (pollExtension host
                   (waitBound (waitTimeoutOf options) (pollIntervalOf options))
                   (portOf options) (waitTimeoutOf options)
                   (pollIntervalOf options) (now w) w)))%nat) by lia.
      specialize (Hb Hmore). lia. }
  assert (Hat_once : forall outcome w1,
            pollExtension host
              (waitBound (waitTimeoutOf options) (pollIntervalOf options))
              (portOf options) (waitTimeoutOf options)
              (pollIntervalOf options) (now w) w = (Some outcome, w1) ->
            waitTimeoutOf options <= 0 ->
            outcome = Throw (ExtensionNotConnectedError (portOf options)) /\
            w1 = w).
  { intros outcome w1 Hrun Hle. rewrite Hzero in Hrun by lia.
    inversion Hrun. split; reflexivity. }
  destruct Hend as [(st & _ & Hr & Hrun & _)|(Hrun & Hout & _)].
  - exists (Return {| wait_connected := true; wait_pageCount := pageCount st |}), w'.
    split; [exact Hrun|]. split.
    + cbn [wait_connected wait_pageCount]. split; [reflexivity|].
      unfold ready in Hr. apply andb_prop in Hr as [_ Hr].
      apply Z.ltb_lt in Hr. lia.
    + split; [apply Hbound; now rewrite Hrun|now apply Hat_once].
  - exists (Throw (ExtensionNotConnectedError (portOf options))), w'.
    split; [exact Hrun|]. split; [split; [reflexivity|exact Hout]|].
    split; [apply Hbound; now rewrite Hrun|now apply Hat_once].
Qed.

Lemma waitForExtension_postcondition_witness :
  exists outcome w',
    waitForExtension connecting quick boot = (Some outcome, w') /\
    match outcome with
    | Return r => wait_connected r = true /\ 1 <= wait_pageCount r
    | Throw e =>
        e = ExtensionNotConnectedError (portOf quick) /\
        waitTimeoutOf quick <= now w' - now boot
    end /\
    pollIntervalOf quick * Z.of_nat (fetches w' - fetches boot)
      < Z.max 0 (waitTimeoutOf quick) + pollIntervalOf quick /\
    (waitTimeoutOf quick <= 0 ->
     outcome = Throw (ExtensionNotConnectedError (portOf quick)) /\ w' = boot).
Proof.
  refine (waitForExtension_postcondition connecting quick boot _). reflexivity.
Defined.

(** X17: waitForExtension against the handler of /extension-status. When
    the relay answers the first poll from a state in which an extension
    socket is open and the registry holds at least one target, and the
    timeout is positive, waitForExtension resolves after that single poll
    with connected true and the number of targets in the registry. *)
Theorem waitForExtension_meets_a_connected_relay
  (host : Host) (options : option Options) (w : World)
  (ws : FeaturesDesign.WSContext)
  (connectedTargets : Map CdpRelay.ConnectedTarget) :
  0 < waitTimeoutOf options ->
  connectedTargets <> [] ->
  statusAt host (fetches w) =
    Some (extensionStatus (Some ws) connectedTargets) ->
  waitForExtension host options w =
  (Some (Return {| wait_connected := true;
                   wait_pageCount := Z.of_nat (List.length connectedTargets) |}),
   {| now := now w + Z.of_N (latency host (fetches w));
      fetches := S (fetches w);
      effects := (effects w ++ [Fetch (statusUrl (portOf options)) 1000])%list |}).
Proof.
  intros Htimeout Hpages Hstatus.
  unfold waitForExtension, waitBound.
  fold (portOf options) (waitTimeoutOf options) (pollIntervalOf options).
  cbn [pollExtension].
  replace (now w - now w) with 0 by lia.
  destruct (Z.ltb_spec 0 (waitTimeoutOf options)); [|lia].
  rewrite pollStatus_run, Hstatus.
  unfold ready, extensionStatus, Map_size. cbn [connected pageCount].
  destruct connectedTargets as [|t rest]; [contradiction|].
  reflexivity.
Qed.

Lemma waitForExtension_meets_a_connected_relay_witness :
  waitForExtension
    (relayOf (fun _ => (Some (FeaturesDesign.WS 0), Examples.twoPages)))
    quick boot =
  (Some (Return {| wait_connected := true;
                   wait_pageCount := Z.of_nat (List.length Examples.twoPages) |}),
   {| now := now boot +
             Z.of_N (latency
                       (relayOf (fun _ => (Some (FeaturesDesign.WS 0),
                                           Examples.twoPages)))
                       (fetches boot));
      fetches := S (fetches boot);
      effects := (effects boot ++ [Fetch (statusUrl (portOf quick)) 1000])%list |}).
Proof.
  refine (waitForExtension_meets_a_connected_relay
            (relayOf (fun _ => (Some (FeaturesDesign.WS 0), Examples.twoPages)))
            quick boot (FeaturesDesign.WS 0) Examples.twoPages _ _ _);
    [reflexivity|discriminate|reflexivity].
Defined.

(** X18: an extension that is connected but has attached no page counts
    as not connected. When every poll is answered by the handler of
    /extension-status from a state with an empty registry, waitForExtension
    throws ExtensionNotConnectedError, whether or not an extension socket
    is open; so does it when no socket is open, whatever the registry
    holds. *)
Theorem waitForExtension_needs_a_page
  (host : Host) (options : option Options) (w : World)
  (state : nat -> option FeaturesDesign.WSContext
                  * Map CdpRelay.ConnectedTarget) :
  0 < pollIntervalOf options ->
  (forall n, statusAt host n =
             Some (extensionStatus (fst (state n)) (snd (state n)))) ->
  (forall n, fst (state n) = None \/ snd (state n) = []) ->
  fst (waitForExtension host options w) =
    Some (Throw (ExtensionNotConnectedError (portOf options))).
Proof.
  intros Hi Hstatus Hstate.
  pose proof (waitBound_enough (waitTimeoutOf options) (pollIntervalOf options) Hi)
    as Hfuel.
  unfold waitForExtension.
  fold (portOf options) (waitTimeoutOf options) (pollIntervalOf options).
  destruct (pollExtension_run host (portOf options) (waitTimeoutOf options)
              (pollIntervalOf options) (now w)
              (waitBound (waitTimeoutOf options) (pollIntervalOf options)) w Hi)
    as (k & w' & _ & [(st & Hst & Hr & _)|(Hrun & _)]); [lia| |].
  - exfalso. rewrite Hstatus in Hst. inversion Hst; subst st.
    unfold ready, extensionStatus in Hr. cbn [connected pageCount] in Hr.
    destruct (Hstate (fetches w + k)%nat) as [E|E]; rewrite E in Hr.
    + discriminate.
    + rewrite andb_comm in Hr. discriminate.
  - now rewrite Hrun.
Qed.

Lemma waitForExtension_needs_a_page_witness :
  fst (waitForExtension
         (relayOf (fun _ => (Some (FeaturesDesign.WS 0), [])))
         quick boot) =
    Some (Throw (ExtensionNotConnectedError (portOf quick))).
Proof.
  refine (waitForExtension_needs_a_page
            (relayOf (fun _ => (Some (FeaturesDesign.WS 0), [])))
            quick boot (fun _ => (Some (FeaturesDesign.WS 0), [])) _ _ _).
  - reflexivity.
  - intros n. reflexivity.
  - intros n. right. reflexivity.
Defined.

(** ** Connecting through the relay *)

Import Playwriter.

Section ConnectRuns.

Variable VERSION : string.
Variable LOG_FILE_PATH : string.
Variable server : Unchecked.Server.

(** The first phase of [connectToPlaywriter] settles, and the clock does
    not run backwards. *)
Lemma connect_first_phase options w :
  exists outcome w1,
    Unchecked.ensurePersistentRelay VERSION LOG_FILE_PATH server
      (phaseOptions options) w = (Some outcome, w1) /\
    now w <= now w1 /\
    match outcome with
    | Return r =>
        Unchecked.untypedAt server (fetches w) = false /\
        0 <= compareVersions (version r) VERSION
    | Throw (Unchecked.Relay e) =>
        Unchecked.untypedAt server (fetches w) = false /\
        e = RelayServerStartError LOG_FILE_PATH (portOf options) /\
        waitTimeoutOf options <= now w1 - now w
    | Throw (Unchecked.Runtime e) =>
        Unchecked.untypedAt server (fetches w) = true /\
        e = TypeError_ /\
        added w w1 = [Fetch (versionUrl (portOf options)) 500]
    end.
Proof.
  rewrite (ensurePersistentRelay_unchecked VERSION LOG_FILE_PATH server
             (Unchecked.typedOf server)) by reflexivity.
  destruct (Unchecked.untypedAt server (fetches w)) eqn:Huntyped.
  - eexists _, _. split; [reflexivity|]. split.
    + cbn [now]. pose proof (N2Z.is_nonneg
        (latency (Unchecked.typedOf server) (fetches w))). lia.
    + split; [reflexivity|]. split; [reflexivity|]. now apply added_app.
  - destruct (ensurePersistentRelay_runs VERSION LOG_FILE_PATH
                (Unchecked.typedOf server) (phaseOptions options) w)
      as [(existing & w1 & _ & Hge & Hrun & _ & _ & Hn)
         |(_ & k & w1 & outcome & Hrun & _ & _ & Hn & _ & _ & Hend)];
      unfold Unchecked.unchecked; rewrite Hrun; cbn [fst snd].
    + eexists _, w1. split; [reflexivity|]. split; [exact Hn|].
      split; [reflexivity|exact Hge].
    + destruct Hend as [(_ & _ & ->)|(-> & Hout & _)].
      * eexists _, w1. split; [reflexivity|]. split; [lia|].
        split; [reflexivity|]. cbn [version].
        rewrite compareVersions_refl. lia.
      * eexists _, w1. split; [reflexivity|]. split; [lia|].
        split; [reflexivity|]. split; [reflexivity|exact Hout].
Qed.

(** The second phase settles as well: it polls every 500 ms. *)
Lemma connect_second_phase options w1 :
  exists outcome w2,
    waitForExtension (Unchecked.machine server) (phaseOptions options) w1 =
      (Some outcome, w2) /\
    match outcome with
    | Return s => wait_connected s = true /\ 1 <= wait_pageCount s
    | Throw e =>
        e = ExtensionNotConnectedError (portOf options) /\
        waitTimeoutOf options <= now w2 - now w1
    end.
Proof.
  assert (Hi : 0 < pollIntervalOf (phaseOptions options)) by reflexivity.
  pose proof (waitBound_enough (waitTimeoutOf (phaseOptions options))
                (pollIntervalOf (phaseOptions options)) Hi) as Hfuel.
  destruct (pollExtension_run (Unchecked.machine server)
              (portOf (phaseOptions options))
              (waitTimeoutOf (phaseOptions options))
              (pollIntervalOf (phaseOptions options)) (now w1)
              (waitBound (waitTimeoutOf (phaseOptions options))
                 (pollIntervalOf (phaseOptions options))) w1 Hi)
    as (k & w2 & _ & [(st & _ & Hr & Hrun & _)|(Hrun & Hout & _)]); [lia| |].
  - exists (Return {| wait_connected := true; wait_pageCount := pageCount st |}), w2.
    split; [exact Hrun|]. cbn [wait_connected wait_pageCount].
    split; [reflexivity|].
    unfold ready in Hr. apply andb_prop in Hr as [_ Hr].
    apply Z.ltb_lt in Hr. lia.
  - exists (Throw (ExtensionNotConnectedError (portOf options))), w2.
    split; [exact Hrun|]. split; [reflexivity|exact Hout].
Qed.

End ConnectRuns.

(** X19: connectToPlaywriter always settles, whatever the server
    answers. It calls chromium.connectOverCDP at most once, with getCdpUrl
    of the port, and only after ensurePersistentRelay has resolved with a
    version that does not compare below VERSION and waitForExtension has
    resolved with at least one page; it then settles as that call does.
    Otherwise it throws RelayServerStartError or
    ExtensionNotConnectedError for the port, not before the timeout of the
    options has passed, 30000 ms when none is given; or it throws the
    TypeError of ensurePersistentRelay, right after the first probe, when
    that probe was answered with a version that is neither a string nor
    null. *)
Theorem connectToPlaywriter_outcomes
  (VERSION LOG_FILE_PATH : string) (server : Unchecked.Server)
  (Browser PlaywrightError : Type) (getCdpUrl : Z -> string)
  (connectOverCDP : string -> Outcome PlaywrightError Browser)
  (options : option Options) (w : World) :
  waitTimeoutOf None = 30000 /\
  exists outcome w' calls,
    connectToPlaywriter VERSION LOG_FILE_PATH server Browser PlaywrightError
      getCdpUrl connectOverCDP options w = (Some outcome, w', calls) /\
    match outcome with
    | Return browser =>
        calls = [getCdpUrl (portOf options)] /\
        connectOverCDP (getCdpUrl (portOf options)) = Return browser
    | Throw (PlaywrightFailure e) =>
        calls = [getCdpUrl (portOf options)] /\
        connectOverCDP (getCdpUrl (portOf options)) = Throw e
    | Throw (RelayFailure e) =>
        calls = [] /\
        Unchecked.untypedAt server (fetches w) = false /\
        waitTimeoutOf options <= now w' - now w /\
        (e = RelayServerStartError LOG_FILE_PATH (portOf options) \/
         e = ExtensionNotConnectedError (portOf options))
    | Throw (RuntimeFailure e) =>
        calls = [] /\
        Unchecked.untypedAt server (fetches w) = true /\
        e = TypeError_ /\
        added w w' = [Fetch (versionUrl (portOf options)) 500]
    end /\
    (calls <> [] ->
     Unchecked.untypedAt server (fetches w) = false /\
     exists r s w1,
       Unchecked.ensurePersistentRelay VERSION LOG_FILE_PATH server
         (phaseOptions options) w = (Some (Return r), w1) /\
       waitForExtension (Unchecked.machine server) (phaseOptions options) w1 =
         (Some (Return s), w') /\
       0 <= compareVersions (version r) VERSION /\
       wait_connected s = true /\ 1 <= wait_pageCount s).
Proof.
  split; [reflexivity|].
  unfold connectToPlaywriter.
  fold (phaseOptions options). fold (portOf options).
  destruct (connect_first_phase VERSION LOG_FILE_PATH server options w)
    as (o1 & w1 & Hrun1 & Hn1 & H1).
  rewrite Hrun1.
  destruct o1 as [r|[e1|e1]].
  - destruct H1 as (Htyped & Hge).
    destruct (connect_second_phase server options w1) as (o2 & w2 & Hrun2 & H2).
    rewrite Hrun2.
    destruct o2 as [s|e2].
    + destruct H2 as (Hc & Hp).
      destruct (connectOverCDP (getCdpUrl (portOf options))) as [browser|e] eqn:Hcdp.
      * exists (Return browser), w2, [getCdpUrl (portOf options)].
        split; [reflexivity|]. split; [split; reflexivity|].
        intros _. split; [exact Htyped|]. exists r, s, w1.
        split; [reflexivity|].
        repeat (split; [assumption|]). assumption.
      * exists (Throw (PlaywrightFailure e)), w2, [getCdpUrl (portOf options)].
        split; [reflexivity|]. split; [split; reflexivity|].
        intros _. split; [exact Htyped|]. exists r, s, w1.
        split; [reflexivity|].
        repeat (split; [assumption|]). assumption.
    + destruct H2 as (-> & Hout).
      exists (Throw (RelayFailure (ExtensionNotConnectedError (portOf options)))),
             w2, [].
      split; [reflexivity|]. split.
      * split; [reflexivity|]. split; [exact Htyped|]. split; [lia|].
        right. reflexivity.
      * intros H. contradiction.
  - destruct H1 as (Htyped & -> & Hout).
    exists (Throw (RelayFailure
                     (RelayServerStartError LOG_FILE_PATH (portOf options)))),
           w1, [].
    split; [reflexivity|]. split.
    + split; [reflexivity|]. split; [exact Htyped|]. split; [exact Hout|].
      left. reflexivity.
    + intros H. contradiction.
  - destruct H1 as (Huntyped & -> & Hadded).
    exists (Throw (RuntimeFailure TypeError_)), w1, [].
    split; [reflexivity|]. split.
    + repeat split; assumption.
    + intros H. contradiction.
Qed.

(** ** The supervisor of the MCP *)

Section McpRuns.

Import Mcp.

Variable VERSION : string.
Variable RELAY_PORT : Z.
Variable execPath : string.
Variable serverVersionAt : nat -> option string.
Variable compareVersions : string -> string -> Z.
Variable killRelayServerFails : option Exn.

Lemma doneSince_app (w w' : McpWorld) l :
  done w' = (done w ++ l)%list -> doneSince w w' = l.
Proof.
  intros H. unfold doneSince. rewrite H, skipn_app, skipn_all, Nat.sub_diag.
  reflexivity.
Qed.

(** The counted loop: it stops at the first poll answered with VERSION,
    and gives up when all its turns are used. *)
Lemma pollServer_run turns : forall w,
  exists k,
    (k <= turns)%nat /\
    done (snd (pollServer VERSION RELAY_PORT serverVersionAt turns w)) =
      (done w ++ polls RELAY_PORT k)%list /\
    calls (snd (pollServer VERSION RELAY_PORT serverVersionAt turns w)) =
      (calls w + k)%nat /\
    (forall j, (S j < k)%nat -> serverVersionAt (calls w + j) <> Some VERSION) /\
    ((fst (pollServer VERSION RELAY_PORT serverVersionAt turns w) = Return tt /\
      (0 < k)%nat /\
      serverVersionAt (calls w + k - 1) = Some VERSION)
     \/
     (fst (pollServer VERSION RELAY_PORT serverVersionAt turns w) =
        Throw (Error_ "Failed to start CDP relay server") /\
      k = turns /\
      forall j, (j < k)%nat -> serverVersionAt (calls w + j) <> Some VERSION)).
Proof.
  induction turns as [|turns IH]; intros w.
  - exists O. simpl. rewrite app_nil_r.
    split; [lia|]. split; [reflexivity|]. split; [lia|].
    split; [intros j Hj; lia|]. right.
    split; [reflexivity|]. split; [reflexivity|intros j Hj; lia].
  - cbn [pollServer getServerVersion perform calls done].
    set (w2 := {| calls := S (calls w);
                  done := ((done w ++ [SleepFor 500]) ++
                           [GetServerVersion RELAY_PORT])%list |}).
    assert (Hcontinue : serverVersionAt (calls w) <> Some VERSION ->
      exists k,
        (k <= S turns)%nat /\
        done (snd (pollServer VERSION RELAY_PORT serverVersionAt turns w2)) =
          (done w ++ polls RELAY_PORT k)%list /\
        calls (snd (pollServer VERSION RELAY_PORT serverVersionAt turns w2)) =
          (calls w + k)%nat /\
        (forall j, (S j < k)%nat -> serverVersionAt (calls w + j) <> Some VERSION) /\
        ((fst (pollServer VERSION RELAY_PORT serverVersionAt turns w2) = Return tt /\
          (0 < k)%nat /\
          serverVersionAt (calls w + k - 1) = Some VERSION)
         \/
         (fst (pollServer VERSION RELAY_PORT serverVersionAt turns w2) =
            Throw (Error_ "Failed to start CDP relay server") /\
          k = S turns /\
          forall j, (j < k)%nat -> serverVersionAt (calls w + j) <> Some VERSION))).
    { intros Hv.
      destruct (IH w2) as (k & Hk & Hd & Hc & Hfirst & Hend).
      assert (Hall : forall j, (j < S k)%nat ->
                (forall i, (i < k)%nat ->
                   serverVersionAt (calls w2 + i) <> Some VERSION) ->
                serverVersionAt (calls w + j) <> Some VERSION).
      { intros [|j] Hj Hrest; [now rewrite Nat.add_0_r|].
        replace (calls w + S j)%nat with (calls w2 + j)%nat
          by (cbn [calls w2]; lia).
        apply Hrest. lia. }
      exists (S k). split; [lia|].
      split; [rewrite Hd; unfold polls; cbn [done w2 repeat concat];
              now rewrite <- !app_assoc|].
      split; [rewrite Hc; cbn [calls w2]; lia|].
      split.
      { intros [|j] Hj; [now rewrite Nat.add_0_r|].
        replace (calls w + S j)%nat with (calls w2 + j)%nat
          by (cbn [calls w2]; lia).
        apply Hfirst. lia. }
      destruct Hend as [(Hr & Hpos & Hlast)|(Hr & -> & Hnone)].
      - left. split; [exact Hr|]. split; [lia|].
        replace (calls w + S k - 1)%nat with (calls w2 + k - 1)%nat
          by (cbn [calls w2]; lia).
        exact Hlast.
      - right. split; [exact Hr|]. split; [reflexivity|].
        intros j Hj. now apply Hall. }
    destruct (serverVersionAt (calls w)) as [s|] eqn:Hv.
    + destruct (String.eqb_spec s VERSION) as [->|Hs].
      * exists 1%nat. cbn [fst snd done calls w2].
        split; [lia|].
        split; [unfold polls; simpl; now rewrite <- !app_assoc|].
        split; [lia|]. split; [intros j Hj; lia|].
        left. split; [reflexivity|]. split; [lia|].
        now replace (calls w + 1 - 1)%nat with (calls w) by lia.
      * apply Hcontinue. congruence.
    + apply Hcontinue. discriminate.
Qed.

End McpRuns.

(** X20: every run of ensureRelayServer of the MCP. A server that
    answers the first probe with VERSION, or with a version that compares
    above it, is left alone: nothing else is done. Otherwise the old
    server, if any, is killed, and a rejection of killRelayServer is not
    caught: it ends the run before anything is spawned. Otherwise one
    server is spawned and polled every 500 ms, at most 10 times:
    the run resolves at the first poll answered with VERSION and throws
    Error('Failed to start CDP relay server') after the tenth. *)
Theorem ensureRelayServer_outcomes
  (VERSION : string) (RELAY_PORT : Z) (execPath : string)
  (serverVersionAt : nat -> option string)
  (compareVersions : string -> string -> Z)
  (killRelayServerFails : option Exn) (w : Mcp.McpWorld) :
  let run := Mcp.ensureRelayServer VERSION RELAY_PORT execPath serverVersionAt
               compareVersions killRelayServerFails w in
  let first := serverVersionAt (Mcp.calls w) in
  if Mcp.leavesAlone VERSION compareVersions first
  then
    fst run = Return tt /\
    Mcp.doneSince w (snd run) = [Mcp.GetServerVersion RELAY_PORT]
  else
    match first, killRelayServerFails with
    | Some _, Some e =>
        fst run = Throw e /\
        Mcp.doneSince w (snd run) =
          [Mcp.GetServerVersion RELAY_PORT;
           Mcp.McpLog "CDP relay server version mismatch, restarting...";
           Mcp.KillRelayServer RELAY_PORT]
    | _, _ =>
        exists k,
          (k <= 10)%nat /\
          Mcp.doneSince w (snd run) =
            (Mcp.GetServerVersion RELAY_PORT
               :: Mcp.restartEffects RELAY_PORT execPath first
               ++ Mcp.polls RELAY_PORT k)%list /\
          (forall j, (1 <= j < k)%nat ->
             serverVersionAt (Mcp.calls w + j)%nat <> Some VERSION) /\
          ((fst run = Return tt /\ (1 <= k)%nat /\
            serverVersionAt (Mcp.calls w + k)%nat = Some VERSION)
           \/
           (fst run = Throw (Error_ "Failed to start CDP relay server") /\
            k = 10%nat /\
            forall j, (1 <= j <= 10)%nat ->
              serverVersionAt (Mcp.calls w + j)%nat <> Some VERSION))
    end.
Proof.
  cbv zeta. unfold Mcp.ensureRelayServer.
  cbn [Mcp.getServerVersion].
  set (w1 := {| Mcp.calls := S (Mcp.calls w);
                Mcp.done := (Mcp.done w ++ [Mcp.GetServerVersion RELAY_PORT])%list |}).
  assert (Hpoll : forall w3 first,
    Mcp.calls w3 = S (Mcp.calls w) ->
    Mcp.done w3 = (Mcp.done w1 ++
       match first with
       | Some _ =>
           [Mcp.McpLog "CDP relay server version mismatch, restarting...";
            Mcp.KillRelayServer RELAY_PORT]
       | None => [Mcp.McpLog "CDP relay server not running, starting it..."]
       end)%list ->
    exists k,
      (k <= 10)%nat /\
      Mcp.doneSince w (snd (Mcp.spawnAndPoll VERSION RELAY_PORT execPath
                              serverVersionAt w3)) =
        (Mcp.GetServerVersion RELAY_PORT
           :: Mcp.restartEffects RELAY_PORT execPath first
           ++ Mcp.polls RELAY_PORT k)%list /\
      (forall j, (1 <= j < k)%nat ->
         serverVersionAt (Mcp.calls w + j)%nat <> Some VERSION) /\
      ((fst (Mcp.spawnAndPoll VERSION RELAY_PORT execPath serverVersionAt w3)
          = Return tt /\ (1 <= k)%nat /\
        serverVersionAt (Mcp.calls w + k)%nat = Some VERSION)
       \/
       (fst (Mcp.spawnAndPoll VERSION RELAY_PORT execPath serverVersionAt w3)
          = Throw (Error_ "Failed to start CDP relay server") /\
        k = 10%nat /\
        forall j, (1 <= j <= 10)%nat ->
          serverVersionAt (Mcp.calls w + j)%nat <> Some VERSION))).
  { intros w3 first Hc Hd. unfold Mcp.spawnAndPoll.
    set (w4 := Mcp.perform Mcp.UnrefServer
                 (Mcp.perform (Mcp.SpawnServer execPath
                    "../dist/start-relay-server.js" true "ignore") w3)).
    destruct (pollServer_run VERSION RELAY_PORT serverVersionAt 10 w4)
      as (k & Hk & Hdone & _ & Hfirst & Hend).
    assert (Hidx : forall j, (1 <= j)%nat ->
              (Mcp.calls w + j = Mcp.calls w4 + (j - 1))%nat).
    { intros j Hj. cbn [w4 Mcp.perform Mcp.calls]. rewrite Hc. lia. }
    exists k. split; [exact Hk|]. split.
    { apply doneSince_app. rewrite Hdone.
      cbn [w4 Mcp.perform Mcp.done]. rewrite Hd. cbn [w1 Mcp.done].
      unfold Mcp.restartEffects. rewrite <- !app_assoc. reflexivity. }
    split.
    { intros j Hj. rewrite Hidx by lia. apply Hfirst. lia. }
    destruct Hend as [(Hr & Hpos & Hlast)|(Hr & -> & Hnone)].
    - left. split; [exact Hr|]. split; [lia|].
      rewrite Hidx by lia.
      now replace (Mcp.calls w4 + (k - 1))%nat
        with (Mcp.calls w4 + k - 1)%nat by lia.
    - right. split; [exact Hr|]. split; [reflexivity|].
      intros j Hj. rewrite Hidx by lia. apply Hnone. lia. }
  destruct (serverVersionAt (Mcp.calls w)) as [s|] eqn:Hv.
  - cbn [Mcp.leavesAlone].
    destruct (s =? VERSION)%string.
    + cbn [orb fst snd]. split; [reflexivity|]. now apply doneSince_app.
    + cbn [orb]. destruct (0 <? compareVersions s VERSION).
      * cbn [fst snd]. split; [reflexivity|]. now apply doneSince_app.
      * destruct killRelayServerFails as [e|].
        -- cbn [fst snd]. split; [reflexivity|]. apply doneSince_app.
           cbn [Mcp.perform Mcp.done w1]. rewrite <- !app_assoc. reflexivity.
        -- apply (Hpoll _ (Some s)); [reflexivity|].
           cbn [Mcp.perform Mcp.done]. rewrite <- !app_assoc. reflexivity.
  - cbn [Mcp.leavesAlone].
    destruct killRelayServerFails as [e|];
      apply (Hpoll _ None); reflexivity.
Qed.

(** [ensureRelayServer] does nothing but probe exactly when it leaves the
    server alone. *)
Lemma ensureRelayServer_idle
  (VERSION : string) (RELAY_PORT : Z) (execPath : string)
  (serverVersionAt : nat -> option string)
  (compareVersions : string -> string -> Z)
  (killRelayServerFails : option Exn) (w : Mcp.McpWorld) :
  Mcp.doneSince w
    (snd (Mcp.ensureRelayServer VERSION RELAY_PORT execPath serverVersionAt
            compareVersions killRelayServerFails w)) =
    [Mcp.GetServerVersion RELAY_PORT]
  <-> Mcp.leavesAlone VERSION compareVersions
        (serverVersionAt (Mcp.calls w)) = true.
Proof.
  unfold Mcp.ensureRelayServer. cbn [Mcp.getServerVersion].
  set (w1 := {| Mcp.calls := S (Mcp.calls w);
                Mcp.done := (Mcp.done w ++ [Mcp.GetServerVersion RELAY_PORT])%list |}).
  assert (Hbusy : forall w3 m rest,
    Mcp.done w3 = (Mcp.done w1 ++ Mcp.McpLog m :: rest)%list ->
    Mcp.doneSince w
      (snd (Mcp.spawnAndPoll VERSION RELAY_PORT execPath serverVersionAt w3))
      <> [Mcp.GetServerVersion RELAY_PORT]).
  { intros w3 m rest Hd. unfold Mcp.spawnAndPoll.
    destruct (pollServer_run VERSION RELAY_PORT serverVersionAt 10
                (Mcp.perform Mcp.UnrefServer
                   (Mcp.perform (Mcp.SpawnServer execPath
                      "../dist/start-relay-server.js" true "ignore") w3)))
      as (k & _ & Hdone & _).
    erewrite doneSince_app; [|rewrite Hdone; cbn [Mcp.perform Mcp.done];
      rewrite Hd; cbn [w1 Mcp.done]; rewrite <- !app_assoc; reflexivity].
    discriminate. }
  destruct (serverVersionAt (Mcp.calls w)) as [s|]; cbn [Mcp.leavesAlone].
  - destruct (s =? VERSION)%string; cbn [orb snd].
    + split; [reflexivity|]. intros _. now apply doneSince_app.
    + destruct (0 <? compareVersions s VERSION); cbn [snd].
      * split; [reflexivity|]. intros _. now apply doneSince_app.
      * split; [|discriminate]. intros H. exfalso. revert H.
        destruct killRelayServerFails as [e|].
        -- cbn [snd]. erewrite doneSince_app;
             [|cbn [Mcp.perform Mcp.done w1]; rewrite <- !app_assoc; reflexivity].
           discriminate.
        -- eapply Hbusy. cbn [Mcp.perform Mcp.done].
           rewrite <- !app_assoc. reflexivity.
  - split; [|discriminate]. intros H. exfalso. revert H.
    eapply Hbusy. reflexivity.
Qed.

(** [ensurePersistentRelay] does nothing but probe exactly when the first
    probe finds a server that is up to date. *)
Lemma ensurePersistentRelay_idle
  (VERSION LOG_FILE_PATH : string) (host : Host)
  (options : option Options) (w : World) :
  added w (snd (ensurePersistentRelay VERSION LOG_FILE_PATH host options w)) =
    [Fetch (versionUrl (portOf options)) 500]
  <-> upToDate VERSION (versionAt host (fetches w)) = true.
Proof.
  destruct (ensurePersistentRelay_runs VERSION LOG_FILE_PATH host options w)
    as [(existing & w' & Hv & Hge & Hrun & He & _)
       |(Hup & k & w' & outcome & Hrun & He & _)];
    rewrite Hrun; cbn [snd]; rewrite (added_app w w' _ He).
  - rewrite Hv. simpl.
    destruct (Z.leb_spec 0 (compareVersions existing VERSION)); [|lia].
    split; reflexivity.
  - rewrite Hup. split; [|discriminate]. intros H. exfalso.
    unfold startEffects in H.
    destruct (versionAt host (fetches w)); [|discriminate].
    destruct (killPortProcessThrows host); discriminate.
Qed.

(** The two decisions, side by side. *)
Lemma decisions_compared (VERSION : string) (first : option string) :
  (Mcp.leavesAlone VERSION compareVersions first = true ->
   upToDate VERSION first = true) /\
  (upToDate VERSION first = true ->
   Mcp.leavesAlone VERSION compareVersions first = true \/
   exists s, first = Some s /\ s <> VERSION /\ compareVersions s VERSION = 0) /\
  (forall s, first = Some s -> s <> VERSION ->
             compareVersions s VERSION = 0 ->
             upToDate VERSION first = true /\
             Mcp.leavesAlone VERSION compareVersions first <> true).
Proof.
  destruct first as [s|]; cbn [Mcp.leavesAlone upToDate].
  - destruct (String.eqb_spec s VERSION) as [->|Hs]; cbn [orb].
    + rewrite compareVersions_refl. simpl.
      split; [reflexivity|]. split; [intros _; left; reflexivity|].
      intros s [= <-] Hne. contradiction.
    + destruct (Z.ltb_spec 0 (compareVersions s VERSION)) as [Hgt|Hle];
        destruct (Z.leb_spec 0 (compareVersions s VERSION)) as [Hge|Hlt];
        try lia.
      * split; [reflexivity|]. split; [intros _; left; reflexivity|].
        intros s' [= <-] _ H0. lia.
      * split; [discriminate|]. split.
        -- intros _. right. exists s. split; [reflexivity|].
           split; [exact Hs|lia].
        -- intros s' [= <-] _ _. split; [reflexivity|discriminate].
      * split; [discriminate|]. split; [discriminate|].
        intros s' [= <-] _ H0. lia.
  - split; [discriminate|]. split; [discriminate|]. intros s [=].
Qed.

(** X21: ensureRelayServer of the MCP and ensurePersistentRelay, run
    with the same order of versions against a server that answers the
    first probe in the same way, decide alike whether to leave it alone,
    with one exception: a server whose version compares equal to VERSION
    without being the same string is left alone by ensurePersistentRelay
    and replaced by ensureRelayServer. *)
Theorem supervisors_differ_on_equal_versions
  (VERSION LOG_FILE_PATH : string) (host : Host)
  (options : option Options) (w : World)
  (RELAY_PORT : Z) (execPath : string)
  (serverVersionAt : nat -> option string)
  (killRelayServerFails : option Exn) (mw : Mcp.McpWorld) :
  serverVersionAt (Mcp.calls mw) = versionAt host (fetches w) ->
  let persistentIdle :=
    added w (snd (ensurePersistentRelay VERSION LOG_FILE_PATH host options w)) =
      [Fetch (versionUrl (portOf options)) 500] in
  let mcpIdle :=
    Mcp.doneSince mw
      (snd (Mcp.ensureRelayServer VERSION RELAY_PORT execPath serverVersionAt
              compareVersions killRelayServerFails mw)) =
      [Mcp.GetServerVersion RELAY_PORT] in
  (mcpIdle -> persistentIdle) /\
  (persistentIdle ->
   mcpIdle \/
   exists s, versionAt host (fetches w) = Some s /\ s <> VERSION /\
             compareVersions s VERSION = 0) /\
  (forall s, versionAt host (fetches w) = Some s -> s <> VERSION ->
             compareVersions s VERSION = 0 ->
             persistentIdle /\ ~ mcpIdle).
Proof.
  intros Hsame. cbv zeta.
  pose proof (ensureRelayServer_idle VERSION RELAY_PORT execPath
                serverVersionAt compareVersions killRelayServerFails mw) as HM.
  pose proof (ensurePersistentRelay_idle VERSION LOG_FILE_PATH host options w)
    as HP.
  rewrite Hsame in HM.
  destruct (decisions_compared VERSION (versionAt host (fetches w)))
    as (H1 & H2 & H3).
  split; [|split].
  - intros H. apply HP, H1, HM, H.
  - intros H. destruct (H2 (proj1 HP H)) as [Hl|Hs].
    + left. now apply HM.
    + right. exact Hs.
  - intros s Hv Hne H0. destruct (H3 s Hv Hne H0) as (Hup & Hnot).
    split; [now apply HP|]. intros H. apply Hnot. now apply HM.
Qed.

Lemma supervisors_differ_on_equal_versions_witness :
  let persistentIdle :=
    added boot (snd (ensurePersistentRelay "0.0.47"
                       "/tmp/playwriter/relay-server.log"
                       (serving "0.0.47.0") None boot)) =
      [Fetch (versionUrl (portOf None)) 500] in
  let mcpIdle :=
    Mcp.doneSince {| Mcp.calls := 0; Mcp.done := [] |}
      (snd (Mcp.ensureRelayServer "0.0.47" 19988 "/usr/bin/node"
              (versionAt (serving "0.0.47.0"))
              compareVersions None {| Mcp.calls := 0; Mcp.done := [] |})) =
      [Mcp.GetServerVersion 19988] in
  (mcpIdle -> persistentIdle) /\
  (persistentIdle ->
   mcpIdle \/
   exists s, versionAt (serving "0.0.47.0") (fetches boot) = Some s /\
             s <> "0.0.47" /\ compareVersions s "0.0.47" = 0) /\
  (forall s, versionAt (serving "0.0.47.0") (fetches boot) = Some s ->
             s <> "0.0.47" -> compareVersions s "0.0.47" = 0 ->
             persistentIdle /\ ~ mcpIdle).
Proof.
  refine (supervisors_differ_on_equal_versions "0.0.47"
            "/tmp/playwriter/relay-server.log" (serving "0.0.47.0") None boot
            19988 "/usr/bin/node" (versionAt (serving "0.0.47.0")) None
            {| Mcp.calls := 0; Mcp.done := [] |} _).
  reflexivity.
Defined.

(** ** The harness of the API compatibility test *)

Section HarnessRuns.

Import ApiTest.

Variable slice80 : string -> string.

(** Every call of [test] adds one result, which records it, and later
    calls leave it in place. *)
Lemma runCalls_records calls : forall h,
  exists added,
    RESULTS (runCalls slice80 calls h) = (RESULTS h ++ added)%list /\
    Forall2 records calls added.
Proof.
  induction calls as [|c calls IH]; intros h.
  - exists []. simpl. rewrite app_nil_r. split; [reflexivity|constructor].
  - cbn [runCalls fold_left].
    destruct (IH (test slice80 (call_category c) (call_name c) (call_method c)
                    (call_fn c) (call_skip c) h)) as (added & Hres & Hrec).
    unfold runCalls in Hres. rewrite Hres.
    assert (Hone : exists r,
              RESULTS (test slice80 (call_category c) (call_name c)
                         (call_method c) (call_fn c) (call_skip c) h) =
                (RESULTS h ++ [r])%list /\ records c r).
    { unfold test, records, statusOf, errorOf.
      destruct (call_skip c); [eexists; split; [reflexivity|]; cbn; tauto|].
      destruct (settles (call_fn c)) as [u|[m|v]];
        (eexists; split; [reflexivity|]; cbn; tauto). }
    destruct Hone as (r & -> & Hr).
    exists (r :: added). rewrite <- app_assoc. split; [reflexivity|].
    now constructor.
Qed.

Lemma records_filter s calls results :
  Forall2 records calls results ->
  Forall2 records (filter (fun c => Status_eqb (statusOf c) s) calls)
          (withStatus s results).
Proof.
  induction 1 as [|c r calls results Hr _ IH]; [constructor|].
  unfold withStatus. cbn [filter]. fold (withStatus s results).
  destruct Hr as (Hc & Hn & Hm & Hs & He). rewrite Hs.
  destruct (Status_eqb (statusOf c) s); [|exact IH].
  constructor; [|exact IH]. repeat split; assumption.
Qed.

Lemma records_methods calls results :
  Forall2 records calls results ->
  List.map method results = List.map call_method calls.
Proof.
  induction 1 as [|c r calls results Hr _ IH]; [reflexivity|].
  destruct Hr as (_ & _ & Hm & _). simpl. congruence.
Qed.

Lemma records_errors calls results :
  Forall2 records calls results ->
  List.map (fun r => (method r, error r)) results =
  List.map (fun c => (call_method c, errorOf c)) calls.
Proof.
  induction 1 as [|c r calls results Hr _ IH]; [reflexivity|].
  destruct Hr as (_ & _ & Hm & _ & He). simpl. congruence.
Qed.

Lemma filter_statusOf calls :
  filter (fun c => Status_eqb (statusOf c) fail) calls = filter throws calls /\
  filter (fun c => Status_eqb (statusOf c) pass) calls = filter resolves calls /\
  filter (fun c => Status_eqb (statusOf c) skip) calls = filter call_skip calls.
Proof.
  repeat split; apply filter_ext; intros c;
    unfold statusOf, throws, resolves;
    destruct (call_skip c); try reflexivity;
    destruct (settles (call_fn c)); reflexivity.
Qed.

End HarnessRuns.

Section ScriptRuns.

Import ApiMain.

(** The result a call is recorded with when its [catch] block does not
    fail. *)
Lemma test_recorded c results :
  breaks c = false ->
  test c results = ((results ++ [entry c (statusOf c)])%list, None).
Proof.
  unfold breaks, test, statusOf.
  destruct (tc_skip c); [reflexivity|].
  destruct (tc_body c); [reflexivity|reflexivity|discriminate].
Qed.

(** While no [catch] block fails, every call is recorded, in order. *)
Lemma runTests_complete calls : forall results,
  existsb breaks calls = false ->
  runTests calls results =
    ((results ++ List.map (fun c => entry c (statusOf c)) calls)%list, None).
Proof.
  induction calls as [|c calls IH]; intros results H; cbn [runTests List.map].
  - now rewrite app_nil_r.
  - cbn [existsb] in H. apply orb_false_elim in H as [Hc Hrest].
    rewrite (test_recorded c results Hc), (IH _ Hrest), <- app_assoc.
    reflexivity.
Qed.

(** The first [catch] block that fails ends the calls: the call is
    recorded or not, and no later call is made. *)
Lemma runTests_break before c after results :
  existsb breaks before = false ->
  breaks c = true ->
  exists recorded e,
    tc_body c = CatchThrows recorded e /\
    runTests (before ++ c :: after) results =
      ((results ++ List.map (fun c => entry c (statusOf c)) before
          ++ (if recorded then [entry c ApiTest.fail] else []))%list,
       Some e).
Proof.
  intros Hbefore Hc. revert results.
  induction before as [|b before IH]; intros results.
  - unfold breaks in Hc. cbn [app runTests List.map]. unfold test.
    destruct (tc_skip c); [discriminate|].
    destruct (tc_body c) as [| |recorded e]; try discriminate.
    exists recorded, e. split; [reflexivity|].
    destruct recorded; cbn [app]; [reflexivity|now rewrite app_nil_r].
  - cbn [existsb] in Hbefore. apply orb_false_elim in Hbefore as [Hb Hrest].
    destruct (IH Hrest (results ++ [entry b (statusOf b)])%list)
      as (recorded & e & Hbody & Hrun).
    exists recorded, e. split; [exact Hbody|].
    cbn [app runTests List.map].
    rewrite (test_recorded b results Hb), Hrun, <- app_assoc. reflexivity.
Qed.

Lemma first_break calls :
  existsb breaks calls = true ->
  exists before c after,
    calls = (before ++ c :: after)%list /\
    existsb breaks before = false /\ breaks c = true.
Proof.
  induction calls as [|c calls IH]; [discriminate|].
  cbn [existsb]. destruct (breaks c) eqn:Hc.
  - intros _. now exists [], c, calls.
  - intros H. destruct (IH H) as (before & c' & after & -> & Hb & Hc').
    exists (c :: before), c', after. cbn [existsb]. rewrite Hc.
    repeat split; assumption.
Qed.

Lemma withStatus_recorded s calls :
  existsb breaks calls = false ->
  withStatus s (List.map (fun c => entry c (statusOf c)) calls) =
  List.map (fun c => entry c (statusOf c))
    (filter (fun c => match s with
                      | ApiTest.pass => passes c
                      | ApiTest.fail => fails c
                      | ApiTest.skip => tc_skip c
                      end) calls).
Proof.
  induction calls as [|c calls IH]; intros H; [reflexivity|].
  cbn [existsb] in H. apply orb_false_elim in H as [Hc Hrest].
  unfold withStatus in *. cbn [List.map filter entry_status entry].
  rewrite (IH Hrest).
  assert (Hsame : ApiTest.Status_eqb (statusOf c) s =
                  match s with
                  | ApiTest.pass => passes c
                  | ApiTest.fail => fails c
                  | ApiTest.skip => tc_skip c
                  end).
  { unfold statusOf, passes, fails, breaks in *.
    destruct (tc_skip c); [now destruct s|].
    destruct (tc_body c); try discriminate; now destruct s. }
  rewrite Hsame. now destruct (match s with
                               | ApiTest.pass => passes c
                               | ApiTest.fail => fails c
                               | ApiTest.skip => tc_skip c
                               end).
Qed.

Lemma calls_partition calls :
  existsb breaks calls = false ->
  (length (filter passes calls) + length (filter fails calls)
   + length (filter tc_skip calls) = length calls)%nat.
Proof.
  induction calls as [|c calls IH]; intros H; [reflexivity|].
  cbn [existsb] in H. apply orb_false_elim in H as [Hc Hrest].
  specialize (IH Hrest). cbn [filter].
  unfold passes, fails, breaks in *.
  destruct (tc_skip c); cbn [negb andb length] in *; [lia|].
  destruct (tc_body c); try discriminate; cbn [length]; lia.
Qed.

Lemma existsb_false_all {A} (f : A -> bool) l :
  existsb f l = false <-> forall x, In x l -> f x = false.
Proof.
  induction l as [|a l IH]; cbn [existsb In].
  - split; [intros _ x []|reflexivity].
  - rewrite orb_false_iff, IH. split.
    + intros (Ha & Hl) x [<-|Hx]; auto.
    + intros H. split; [apply H; now left|intros x Hx; apply H; now right].
Qed.

Lemma failed_calls calls :
  (0 <? length (filter fails calls))%nat = existsb fails calls.
Proof.
  induction calls as [|c calls IH]; [reflexivity|].
  cbn [filter existsb]. now destruct (fails c).
Qed.

(** The calls that are skipped or whose body resolves are those that
    neither throw nor make the [catch] block fail. *)
Lemma clean_calls calls :
  (forall c, In c calls -> tc_skip c = true \/ tc_body c = BodyResolves) <->
  existsb breaks calls = false /\ existsb fails calls = false.
Proof.
  rewrite !existsb_false_all. split.
  - intros H. split; intros c Hc; destruct (H c Hc) as [Hs|Hb];
      unfold breaks, fails; rewrite ?Hs, ?Hb;
      try reflexivity; now destruct (tc_skip c).
  - intros (Hb & Hf) c Hc. specialize (Hb c Hc). specialize (Hf c Hc).
    unfold breaks, fails in *.
    destruct (tc_skip c); [now left|right].
    now destruct (tc_body c).
Qed.

(** The exit code of the process and the report it has written. *)
Lemma process_run script :
  process script =
  if resolved (setup script)
     && negb (existsb breaks (calls script))
     && resolved (writeReport script)
  then (if existsb fails (calls script) then 1 else 0,
        Some (report (List.map (fun c => entry c (statusOf c)) (calls script))))
  else (1, None).
Proof.
  unfold process, main.
  destruct (setup script) as [u|e]; [|reflexivity].
  destruct (existsb breaks (calls script)) eqn:Hb.
  - destruct (first_break _ Hb) as (before & c & after & Hcalls & Hbefore & Hc).
    destruct (runTests_break before c after [] Hbefore Hc)
      as (recorded & e & _ & Hrun).
    rewrite Hcalls, Hrun. reflexivity.
  - rewrite (runTests_complete _ [] Hb). cbn [app].
    destruct (writeReport script) as [u'|e]; [|reflexivity].
    cbn [resolved negb andb].
    replace (failed (report (List.map (fun c => entry c (statusOf c))
                               (calls script))))
      with (length (filter fails (calls script))).
    + now rewrite failed_calls.
    + cbn [report failed].
      now rewrite (withStatus_recorded ApiTest.fail _ Hb), length_map.
Qed.

End ScriptRuns.

(** X22: how the API test script ends, whatever its test bodies throw.
    The process exits with code 0 exactly when the setup of main
    resolves, every test that is run resolves, and the summary and the
    report can be written; it exits with code 1 otherwise: when a body
    threw, also when the catch block of test fails on what was thrown, or
    when main rejects. A report is written exactly when the setup
    resolves, no catch block fails and the writing succeeds; it then
    records every call once, in order, a throwing body having stopped
    nothing, and its counts of passed, failed and skipped results are the
    numbers of calls whose body resolved, threw, and was skipped, and add
    up to the total. A catch block that fails ends the run: no later test
    is called. *)
Theorem exit_code_reports_failures (script : ApiMain.Script) :
  let code := fst (ApiMain.process script) in
  let written := snd (ApiMain.process script) in
  let calls := ApiMain.calls script in
  let completes :=
    ApiMain.resolved (ApiMain.setup script)
    && negb (existsb ApiMain.breaks calls)
    && ApiMain.resolved (ApiMain.writeReport script) in
  code = (if completes && negb (existsb ApiMain.fails calls) then 0 else 1) /\
  (code = 0 <->
   ApiMain.resolved (ApiMain.setup script) = true /\
   (forall c, In c calls ->
      ApiMain.tc_skip c = true \/ ApiMain.tc_body c = ApiMain.BodyResolves) /\
   ApiMain.resolved (ApiMain.writeReport script) = true) /\
  (if completes
   then exists r,
     written = Some r /\
     ApiMain.total r = length calls /\
     ApiMain.passed r = length (filter ApiMain.passes calls) /\
     ApiMain.failed r = length (filter ApiMain.fails calls) /\
     ApiMain.skipped r = length (filter ApiMain.tc_skip calls) /\
     (ApiMain.passed r + ApiMain.failed r + ApiMain.skipped r
      = ApiMain.total r)%nat /\
     ApiMain.working r =
       List.map ApiMain.tc_method (filter ApiMain.passes calls) /\
     ApiMain.notWorking r =
       List.map ApiMain.tc_method (filter ApiMain.fails calls) /\
     ApiMain.skippedMethods r =
       List.map ApiMain.tc_method (filter ApiMain.tc_skip calls)
   else written = None) /\
  (forall before c after,
     calls = (before ++ c :: after)%list ->
     existsb ApiMain.breaks before = false ->
     ApiMain.breaks c = true ->
     exists recorded e,
       ApiMain.tc_body c = ApiMain.CatchThrows recorded e /\
       ApiMain.runTests calls [] =
         ((List.map (fun c => ApiMain.entry c (ApiMain.statusOf c)) before
             ++ (if recorded then [ApiMain.entry c ApiTest.fail] else []))%list,
          Some e) /\
       ApiMain.process script = (1, None)).
Proof.
  cbv zeta. rewrite process_run.
  assert (Hmethods : forall l,
            List.map ApiMain.entry_method
              (List.map (fun c => ApiMain.entry c (ApiMain.statusOf c)) l) =
            List.map ApiMain.tc_method l).
  { intros l. rewrite map_map. reflexivity. }
  split; [|split; [|split]].
  - destruct (ApiMain.resolved (ApiMain.setup script)
              && negb (existsb ApiMain.breaks (ApiMain.calls script))
              && ApiMain.resolved (ApiMain.writeReport script));
      [|reflexivity].
    now destruct (existsb ApiMain.fails (ApiMain.calls script)).
  - rewrite clean_calls.
    destruct (ApiMain.resolved (ApiMain.setup script));
      [|cbn; split; [discriminate|intros (H & _); discriminate]].
    destruct (existsb ApiMain.breaks (ApiMain.calls script));
      [cbn; split; [discriminate|intros (_ & (H & _) & _); discriminate]|].
    destruct (ApiMain.resolved (ApiMain.writeReport script));
      [|cbn; split; [discriminate|intros (_ & _ & H); discriminate]].
    destruct (existsb ApiMain.fails (ApiMain.calls script)); cbn.
    + split; [discriminate|intros (_ & (_ & H) & _); discriminate].
    + repeat split; reflexivity.
  - destruct (ApiMain.resolved (ApiMain.setup script)); [|reflexivity].
    destruct (existsb ApiMain.breaks (ApiMain.calls script)) eqn:Hb;
      [reflexivity|].
    destruct (ApiMain.resolved (ApiMain.writeReport script)); [|reflexivity].
    cbn [negb andb snd].
    eexists. split; [reflexivity|].
    cbn [ApiMain.report ApiMain.total ApiMain.passed ApiMain.failed
         ApiMain.skipped ApiMain.working ApiMain.notWorking
         ApiMain.skippedMethods].
    rewrite !(withStatus_recorded _ _ Hb), !length_map, !Hmethods.
    repeat split; try reflexivity.
    apply calls_partition, Hb.
  - intros before c after Hcalls Hbefore Hc.
    destruct (runTests_break before c after [] Hbefore Hc)
      as (recorded & e & Hbody & Hrun).
    exists recorded, e. split; [exact Hbody|]. split.
    + rewrite Hcalls. exact Hrun.
    + assert (Hb : existsb ApiMain.breaks (ApiMain.calls script) = true).
      { apply existsb_exists. exists c. split; [|exact Hc].
        rewrite Hcalls. apply in_or_app. right. now left. }
      rewrite Hb. now rewrite andb_false_r.
Qed.

(** X30: when every thrown value prints, so that no catch block of test
    fails, the script records what the harness records: the calls run to
    the end, none rejects, and the results are those of the harness,
    read by category, name, method and status; the exit code of the
    process is then the one main computes from its failed count, provided
    the setup resolves and the report is written. *)
Theorem script_agrees_with_harness (slice80 : string -> string)
        (calls : list ApiTest.Call) (h : ApiTest.Harness) :
  ApiMain.runTests (List.map ApiMain.ofCall calls)
                   (List.map ApiMain.ofResult (ApiTest.RESULTS h)) =
    (List.map ApiMain.ofResult
       (ApiTest.RESULTS (ApiTest.runCalls slice80 calls h)), None) /\
  existsb ApiMain.breaks (List.map ApiMain.ofCall calls) = false /\
  forall setup writeReport,
    ApiMain.resolved setup = true ->
    ApiMain.resolved writeReport = true ->
    fst (ApiMain.process
           {| ApiMain.setup := setup;
              ApiMain.calls := List.map ApiMain.ofCall calls;
              ApiMain.writeReport := writeReport |}) =
    ApiTest.exitCode
      (ApiTest.RESULTS (ApiTest.runCalls slice80 calls ApiTest.fresh)).
Proof.
  assert (Hrun : forall calls h,
            ApiMain.runTests (List.map ApiMain.ofCall calls)
                             (List.map ApiMain.ofResult (ApiTest.RESULTS h)) =
            (List.map ApiMain.ofResult
               (ApiTest.RESULTS (ApiTest.runCalls slice80 calls h)), None)).
  { clear. induction calls as [|c calls IH]; intros h; [reflexivity|].
    cbn [List.map ApiMain.runTests ApiTest.runCalls fold_left].
    specialize (IH (ApiTest.test slice80 (ApiTest.call_category c)
                      (ApiTest.call_name c) (ApiTest.call_method c)
                      (ApiTest.call_fn c) (ApiTest.call_skip c) h)).
    unfold ApiTest.runCalls in IH. rewrite <- IH.
    unfold ApiMain.test, ApiTest.test, ApiMain.ofCall.
    cbn [ApiMain.tc_skip ApiMain.tc_body].
    destruct (ApiTest.call_skip c).
    - cbn [ApiTest.RESULTS]. rewrite map_app. reflexivity.
    - destruct (ApiTest.settles (ApiTest.call_fn c));
        cbn [ApiTest.RESULTS]; rewrite map_app; reflexivity. }
  assert (Hnone : forall calls : list ApiTest.Call,
            existsb ApiMain.breaks (List.map ApiMain.ofCall calls) = false).
  { clear. induction calls as [|c calls IH]; [reflexivity|].
    cbn [List.map existsb]. rewrite IH, orb_false_r.
    unfold ApiMain.breaks, ApiMain.ofCall.
    cbn [ApiMain.tc_skip ApiMain.tc_body].
    destruct (ApiTest.call_skip c); [reflexivity|].
    now destruct (ApiTest.settles (ApiTest.call_fn c)). }
  split; [apply Hrun|]. split; [apply Hnone|].
  intros setup writeReport Hsetup Hwrite.
  unfold ApiMain.process, ApiMain.main. cbn [ApiMain.setup ApiMain.calls
                                             ApiMain.writeReport].
  destruct setup as [u|e]; [|discriminate].
  destruct writeReport as [u'|e]; [|discriminate].
  pose proof (Hrun calls ApiTest.fresh) as Hfresh.
  cbn [ApiTest.fresh ApiTest.RESULTS List.map] in Hfresh.
  change {| ApiTest.clock := 0; ApiTest.RESULTS := [];
            ApiTest.console := [] |} with ApiTest.fresh in Hfresh.
  rewrite Hfresh. cbn [fst ApiMain.report ApiMain.failed].
  unfold ApiTest.exitCode, ApiTest.failed, ApiMain.withStatus,
    ApiTest.withStatus.
  replace (length
             (filter (fun r => ApiTest.Status_eqb (ApiMain.entry_status r)
                                                  ApiTest.fail)
                (List.map ApiMain.ofResult
                   (ApiTest.RESULTS
                      (ApiTest.runCalls slice80 calls ApiTest.fresh)))))
    with (length
            (filter (fun r => ApiTest.Status_eqb (ApiTest.status r)
                                                 ApiTest.fail)
               (ApiTest.RESULTS
                  (ApiTest.runCalls slice80 calls ApiTest.fresh))));
    [reflexivity|].
  generalize (ApiTest.RESULTS (ApiTest.runCalls slice80 calls ApiTest.fresh)).
  intros l. induction l as [|r l IH]; [reflexivity|].
  cbn [List.map filter ApiMain.ofResult ApiMain.entry_status].
  destruct (ApiTest.Status_eqb (ApiTest.status r) ApiTest.fail);
    cbn [length]; congruence.
Qed.

(** X23: the report of the API test after any sequence of calls of
    test. The lists working, notWorking and skipped hold the methods of
    the calls whose body resolved, threw, and was skipped, each in the
    order of the calls; a method that did not work comes with the message
    of the Error thrown, or with the string made of what was thrown. *)
Theorem report_sorts_the_methods
  (slice80 : string -> string) (calls : list ApiTest.Call) :
  let results :=
    ApiTest.RESULTS (ApiTest.runCalls slice80 calls ApiTest.fresh) in
  List.map ApiTest.method results = List.map ApiTest.call_method calls /\
  ApiTest.working results =
    List.map ApiTest.call_method (filter ApiTest.resolves calls) /\
  ApiTest.notWorking results =
    List.map (fun c => (ApiTest.call_method c, ApiTest.errorOf c))
             (filter ApiTest.throws calls) /\
  ApiTest.skippedMethods results =
    List.map ApiTest.call_method (filter ApiTest.call_skip calls) /\
  (forall c, In c calls -> ApiTest.throws c = true ->
     exists e, ApiTest.settles (ApiTest.call_fn c) = Throw e /\
               ApiTest.errorOf c =
                 Some (match e with
                       | ApiTest.ThrownError message => message
                       | ApiTest.ThrownValue asString => asString
                       end)).
Proof.
  cbv zeta.
  destruct (runCalls_records slice80 calls ApiTest.fresh)
    as (added & Hres & Hrec).
  cbn [ApiTest.RESULTS ApiTest.fresh app] in Hres. rewrite Hres.
  destruct (filter_statusOf calls) as (Hf & Hp & Hs).
  split; [apply records_methods, Hrec|].
  split; [unfold ApiTest.working; rewrite <- Hp;
          apply records_methods, records_filter, Hrec|].
  split; [unfold ApiTest.notWorking; rewrite <- Hf;
          apply records_errors, records_filter, Hrec|].
  split; [unfold ApiTest.skippedMethods; rewrite <- Hs;
          apply records_methods, records_filter, Hrec|].
  intros c _ Hthrows. unfold ApiTest.throws, ApiTest.errorOf in *.
  destruct (ApiTest.call_skip c); [discriminate|].
  destruct (ApiTest.settles (ApiTest.call_fn c)) as [u|e]; [discriminate|].
  exists e. split; [reflexivity|]. now destruct e.
Qed.

(** ** The worker window *)

Section WorkerWindowRuns.

Import WorkerWindow.

Variable chrome : Chrome.

Lemma callsSince_app (st st' : State) l :
  chromeCalls st' = (chromeCalls st ++ l)%list -> callsSince st st' = l.
Proof.
  intros H. unfold callsSince. rewrite H, skipn_app, skipn_all, Nat.sub_diag.
  reflexivity.
Qed.

(** The subscriber either leaves the state as it is, or removes and
    forgets the worker window of the store. *)
Lemma notify_cases st :
  (lostAtOnce st (workerWindowId (store st)) = false /\ notify st = st) \/
  (exists n,
     workerWindowId (store st) = Some n /\
     lostAtOnce st (Some n) = true /\
     notify st = setWorkerWindowId None (call (WindowsRemove n) st)).
Proof.
  unfold notify, onTabsChange, lostAtOnce.
  destruct (workerWindowId (store st)) as [n|].
  - destruct (separateWindow (store st) && (tabs (store st) =? 0)%nat
              && truthyId (Some n)) eqn:E.
    + right. exists n. auto.
    + left. auto.
  - left. split; [|reflexivity].
    now rewrite andb_false_r.
Qed.

(** Storing the id of a window: it is kept, or the window is removed at
    once and the id forgotten. *)
Lemma storeWorkerWindowId_run id st :
  storeWorkerWindowId id st =
  if lostAtOnce st id then
    match id with
    | Some n =>
        setWorkerWindowId None
          (call (WindowsRemove n) (setWorkerWindowId id st))
    | None => setWorkerWindowId id st
    end
  else setWorkerWindowId id st.
Proof.
  unfold storeWorkerWindowId, notify, onTabsChange, lostAtOnce.
  cbn [setWorkerWindowId store workerWindowId separateWindow tabs].
  destruct id as [n|]; [|now rewrite andb_false_r].
  now destruct (separateWindow (store st) && (tabs (store st) =? 0)%nat
                && truthyId (Some n)).
Qed.

(** The end of [createTabInWorkerWindow], whatever came before. *)
Lemma createWorkerWindow_run url st :
  separateWindow (store (snd (createWorkerWindow chrome url st))) =
    separateWindow (store st) /\
  tabs (store (snd (createWorkerWindow chrome url st))) = tabs (store st) /\
  sent (snd (createWorkerWindow chrome url st)) = sent st /\
  match windowsCreate chrome (chromeCalls st) url with
  | Throw e =>
      fst (createWorkerWindow chrome url st) = Throw e /\
      chromeCalls (snd (createWorkerWindow chrome url st)) =
        (chromeCalls st ++ [WindowsCreate url false 1200 800])%list /\
      workerWindowId (store (snd (createWorkerWindow chrome url st))) =
        workerWindowId (store st)
  | Return win =>
      fst (createWorkerWindow chrome url st) =
        match win_tabs win with
        | Some tabs => Return (nth_error tabs 0)
        | None => Throw TypeError_
        end /\
      chromeCalls (snd (createWorkerWindow chrome url st)) =
        (chromeCalls st ++ WindowsCreate url false 1200 800
           :: (if lostAtOnce st (win_id win)
               then match win_id win with
                    | Some n => [WindowsRemove n]
                    | None => []
                    end
               else []))%list /\
      workerWindowId (store (snd (createWorkerWindow chrome url st))) =
        (if lostAtOnce st (win_id win) then None else win_id win)
  end.
Proof.
  unfold createWorkerWindow.
  destruct (windowsCreate chrome (chromeCalls st) url) as [win|e].
  - assert (Hst2 :
      separateWindow (store (storeWorkerWindowId (win_id win)
                               (call (WindowsCreate url false 1200 800) st))) =
        separateWindow (store st) /\
      tabs (store (storeWorkerWindowId (win_id win)
                     (call (WindowsCreate url false 1200 800) st))) =
        tabs (store st) /\
      sent (storeWorkerWindowId (win_id win)
              (call (WindowsCreate url false 1200 800) st)) = sent st /\
      chromeCalls (storeWorkerWindowId (win_id win)
                     (call (WindowsCreate url false 1200 800) st)) =
        (chromeCalls st ++ WindowsCreate url false 1200 800
           :: (if lostAtOnce st (win_id win)
               then match win_id win with
                    | Some n => [WindowsRemove n]
                    | None => []
                    end
               else []))%list /\
      workerWindowId (store (storeWorkerWindowId (win_id win)
                               (call (WindowsCreate url false 1200 800) st))) =
        (if lostAtOnce st (win_id win) then None else win_id win)).
    { rewrite storeWorkerWindowId_run.
      change (lostAtOnce (call (WindowsCreate url false 1200 800) st)
                (win_id win)) with (lostAtOnce st (win_id win)).
      destruct (lostAtOnce st (win_id win)) eqn:Hlost.
      - destruct (win_id win) as [n|].
        + cbn. rewrite <- app_assoc. repeat split; reflexivity.
        + unfold lostAtOnce in Hlost. cbn in Hlost.
          rewrite andb_false_r in Hlost. discriminate.
      - cbn. repeat split; reflexivity. }
    destruct Hst2 as (H1 & H2 & H3 & H4 & H5).
    destruct (win_tabs win); cbn [fst snd]; repeat split; assumption.
  - cbn. repeat split; reflexivity.
Qed.

End WorkerWindowRuns.

(** X24: createTabInWorkerWindow, call by call. When the store holds a
    worker window, Chrome still knows it and the tab can be created in it,
    that tab is returned after these two calls and nothing else is done.
    In every other case, also when it is chrome.tabs.create that rejects,
    one window is created after the calls that failed: its first tab is
    returned and its id stored, unless the subscriber of the store removes
    the window at once because the store holds no tab; a rejection of
    chrome.windows.create is passed on with the stale id forgotten. No
    other window is ever removed. *)
Theorem createTabInWorkerWindow_outcomes
  (chrome : WorkerWindow.Chrome) (url : string) (st : WorkerWindow.State) :
  let run := WorkerWindow.createTabInWorkerWindow chrome url st in
  let attempted := WorkerWindow.attempts chrome url st in
  WorkerWindow.separateWindow (WorkerWindow.store (snd run)) =
    WorkerWindow.separateWindow (WorkerWindow.store st) /\
  WorkerWindow.tabs (WorkerWindow.store (snd run)) =
    WorkerWindow.tabs (WorkerWindow.store st) /\
  WorkerWindow.sent (snd run) = WorkerWindow.sent st /\
  match WorkerWindow.reusedTab chrome url st with
  | Some tab =>
      fst run = Return (Some tab) /\
      WorkerWindow.callsSince st (snd run) = attempted /\
      (exists n, attempted = [WorkerWindow.WindowsGet n;
                              WorkerWindow.TabsCreate (Some n) url false] /\
                 WorkerWindow.workerWindowId (WorkerWindow.store st) = Some n) /\
      WorkerWindow.workerWindowId (WorkerWindow.store (snd run)) =
        WorkerWindow.workerWindowId (WorkerWindow.store st)
  | None =>
      match WorkerWindow.windowsCreate chrome
              (WorkerWindow.chromeCalls st ++ attempted) url with
      | Throw e =>
          fst run = Throw e /\
          WorkerWindow.callsSince st (snd run) =
            (attempted ++ [WorkerWindow.WindowsCreate url false 1200 800])%list /\
          WorkerWindow.workerWindowId (WorkerWindow.store (snd run)) =
            match attempted with
            | [] => WorkerWindow.workerWindowId (WorkerWindow.store st)
            | _ => None
            end
      | Return win =>
          fst run =
            match WorkerWindow.win_tabs win with
            | Some tabs => Return (nth_error tabs 0)
            | None => Throw TypeError_
            end /\
          WorkerWindow.callsSince st (snd run) =
            (attempted ++ WorkerWindow.WindowsCreate url false 1200 800
               :: (if WorkerWindow.lostAtOnce st (WorkerWindow.win_id win)
                   then match WorkerWindow.win_id win with
                        | Some n => [WorkerWindow.WindowsRemove n]
                        | None => []
                        end
                   else []))%list /\
          WorkerWindow.workerWindowId (WorkerWindow.store (snd run)) =
            (if WorkerWindow.lostAtOnce st (WorkerWindow.win_id win)
             then None else WorkerWindow.win_id win)
      end
  end.
Proof.
  cbv zeta.
  assert (Hheal : forall st1 att,
    WorkerWindow.chromeCalls st1 = (WorkerWindow.chromeCalls st ++ att)%list ->
    WorkerWindow.separateWindow (WorkerWindow.store st1) =
      WorkerWindow.separateWindow (WorkerWindow.store st) ->
    WorkerWindow.tabs (WorkerWindow.store st1) =
      WorkerWindow.tabs (WorkerWindow.store st) ->
    WorkerWindow.sent st1 = WorkerWindow.sent st ->
    WorkerWindow.workerWindowId (WorkerWindow.store st1) =
      match att with
      | [] => WorkerWindow.workerWindowId (WorkerWindow.store st)
      | _ => None
      end ->
    let run := WorkerWindow.createWorkerWindow chrome url st1 in
    WorkerWindow.separateWindow (WorkerWindow.store (snd run)) =
      WorkerWindow.separateWindow (WorkerWindow.store st) /\
    WorkerWindow.tabs (WorkerWindow.store (snd run)) =
      WorkerWindow.tabs (WorkerWindow.store st) /\
    WorkerWindow.sent (snd run) = WorkerWindow.sent st /\
    match WorkerWindow.windowsCreate chrome
            (WorkerWindow.chromeCalls st ++ att) url with
    | Throw e =>
        fst run = Throw e /\
        WorkerWindow.callsSince st (snd run) =
          (att ++ [WorkerWindow.WindowsCreate url false 1200 800])%list /\
        WorkerWindow.workerWindowId (WorkerWindow.store (snd run)) =
          match att with
          | [] => WorkerWindow.workerWindowId (WorkerWindow.store st)
          | _ => None
          end
    | Return win =>
        fst run =
          match WorkerWindow.win_tabs win with
          | Some tabs => Return (nth_error tabs 0)
          | None => Throw TypeError_
          end /\
        WorkerWindow.callsSince st (snd run) =
          (att ++ WorkerWindow.WindowsCreate url false 1200 800
             :: (if WorkerWindow.lostAtOnce st (WorkerWindow.win_id win)
                 then match WorkerWindow.win_id win with
                      | Some n => [WorkerWindow.WindowsRemove n]
                      | None => []
                      end
                 else []))%list /\
        WorkerWindow.workerWindowId (WorkerWindow.store (snd run)) =
          (if WorkerWindow.lostAtOnce st (WorkerWindow.win_id win)
           then None else WorkerWindow.win_id win)
    end).
  { intros st1 att Hcalls Hmode Htabs Hsent Hid. cbv zeta.
    destruct (createWorkerWindow_run chrome url st1) as (H1 & H2 & H3 & Hout).
    split; [congruence|]. split; [congruence|]. split; [congruence|].
    rewrite <- Hcalls.
    assert (Hlost : forall id, WorkerWindow.lostAtOnce st1 id =
                               WorkerWindow.lostAtOnce st id).
    { intros id. unfold WorkerWindow.lostAtOnce. now rewrite Hmode, Htabs. }
    destruct (WorkerWindow.windowsCreate chrome (WorkerWindow.chromeCalls st1) url)
      as [win|e].
    - destruct Hout as (Hf & Hc & Hw). rewrite Hlost in Hc, Hw.
      split; [exact Hf|]. split; [|exact Hw].
      apply callsSince_app. rewrite Hc, Hcalls, <- app_assoc. reflexivity.
    - destruct Hout as (Hf & Hc & Hw).
      split; [exact Hf|]. split; [|congruence].
      apply callsSince_app. rewrite Hc, Hcalls, <- app_assoc. reflexivity. }
  unfold WorkerWindow.createTabInWorkerWindow, WorkerWindow.reusedTab,
    WorkerWindow.attempts.
  destruct (WorkerWindow.workerWindowId (WorkerWindow.store st)) as [n|] eqn:Hid.
  - destruct (WorkerWindow.truthyId (Some n)) eqn:Htruthy.
    + destruct (WorkerWindow.windowsGet chrome (WorkerWindow.chromeCalls st) n)
        as [u|e].
      * change (WorkerWindow.chromeCalls
                  (WorkerWindow.call (WorkerWindow.WindowsGet n) st))
          with (WorkerWindow.chromeCalls st ++ [WorkerWindow.WindowsGet n])%list.
        destruct (WorkerWindow.tabsCreate chrome
                    (WorkerWindow.chromeCalls st ++ [WorkerWindow.WindowsGet n])
                    (Some n) url) as [tab|e].
        -- cbn [fst snd WorkerWindow.call WorkerWindow.store WorkerWindow.sent].
           repeat split; try reflexivity.
           ++ apply callsSince_app. cbn. now rewrite <- app_assoc.
           ++ exists n. split; reflexivity.
           ++ exact Hid.
        -- apply (Hheal _ [WorkerWindow.WindowsGet n;
                           WorkerWindow.TabsCreate (Some n) url false]);
             try reflexivity.
           cbn. now rewrite <- app_assoc.
      * apply (Hheal _ [WorkerWindow.WindowsGet n]); reflexivity.
    + apply (Hheal st []); try reflexivity; [now rewrite app_nil_r|exact Hid].
  - apply (Hheal st []); try reflexivity; [now rewrite app_nil_r|exact Hid].
Qed.

Section WorkerWindowReuse.

Import WorkerWindow.

Variable chrome : Chrome.

Hypothesis window_stays_open : forall calls n,
  exists u, windowsGet chrome calls n = Return u.
Hypothesis tabs_are_created : forall calls windowId url,
  exists tab, tabsCreate chrome calls windowId url = Return tab.
Hypothesis windows_are_created : forall calls url,
  exists n tabs,
    windowsCreate chrome calls url =
      Return {| win_id := Some n; win_tabs := Some tabs |} /\ n <> 0.

(** One tab made in separate window mode while the store holds a tab, in
    a browser that does as it is asked. *)
Lemma createTab_with_tabs url st :
  separateWindow (store st) = true ->
  (0 < tabs (store st))%nat ->
  separateWindow (store (snd (createTab chrome url st))) = true /\
  tabs (store (snd (createTab chrome url st))) = tabs (store st) /\
  truthyId (workerWindowId (store (snd (createTab chrome url st)))) = true /\
  exists l,
    chromeCalls (snd (createTab chrome url st)) = (chromeCalls st ++ l)%list /\
    length (filter isWindowsCreate l) =
      (if truthyId (workerWindowId (store st)) then 0 else 1)%nat /\
    filter isWindowsRemove l = [] /\
    (forall c, In c l -> windowOf c = None -> isWindowsCreate c = true).
Proof.
  intros Hmode Htabs. unfold createTab. rewrite Hmode.
  assert (Hkept : forall id, lostAtOnce st id = false).
  { intros id. unfold lostAtOnce.
    destruct (tabs (store st)); [lia|]. now rewrite andb_false_r. }
  assert (Hrun : forall r : Outcome Exn (option Tab) * State,
            r = createWorkerWindow chrome url st ->
            separateWindow (store (snd r)) = true /\
            tabs (store (snd r)) = tabs (store st) /\
            truthyId (workerWindowId (store (snd r))) = true /\
            exists l,
              chromeCalls (snd r) = (chromeCalls st ++ l)%list /\
              length (filter isWindowsCreate l) = 1%nat /\
              filter isWindowsRemove l = [] /\
              (forall c, In c l -> windowOf c = None ->
                         isWindowsCreate c = true)).
  { intros r ->.
    destruct (createWorkerWindow_run chrome url st) as (Hs & Ht & _ & Hout).
    destruct (windows_are_created (chromeCalls st) url) as (n & tabs & Hw & Hn).
    rewrite Hw in Hout. destruct Hout as (_ & Hc & Hid).
    rewrite Hkept in Hc, Hid.
    split; [now rewrite Hs|]. split; [exact Ht|]. split.
    - rewrite Hid. cbn. now destruct (Z.eqb_spec n 0).
    - exists [WindowsCreate url false 1200 800].
      split; [exact Hc|]. split; [reflexivity|]. split; [reflexivity|].
      intros c [<-|[]] _. reflexivity. }
  unfold createTabInWorkerWindow.
  destruct (truthyId (workerWindowId (store st))) eqn:Htruthy.
  - destruct (workerWindowId (store st)) as [n|] eqn:Hid; [|discriminate].
    destruct (window_stays_open (chromeCalls st) n) as (u & Hget).
    rewrite Hget.
    destruct (tabs_are_created (chromeCalls (call (WindowsGet n) st)) (Some n) url)
      as (tab & Htab).
    rewrite Htab. cbn [snd call store chromeCalls].
    split; [exact Hmode|]. split; [reflexivity|]. split; [now rewrite Hid|].
    exists [WindowsGet n; TabsCreate (Some n) url false].
    split; [now rewrite <- app_assoc|]. split; [reflexivity|].
    split; [reflexivity|].
    intros c [<-|[<-|[]]]; discriminate.
  - destruct (workerWindowId (store st)) as [n|]; now apply Hrun.
Qed.

(** The store is told of a tab count that is not zero: nothing else
    changes. *)
Lemma storeTabs_with_tabs n st :
  n <> 0%nat ->
  storeTabs n st =
    {| store := {| separateWindow := separateWindow (store st);
                   workerWindowId := workerWindowId (store st);
                   tabs := n |};
       chromeCalls := chromeCalls st;
       sent := sent st |}.
Proof.
  intros Hn. unfold storeTabs, notify, onTabsChange.
  cbn [store workerWindowId separateWindow tabs].
  destruct (workerWindowId (store st)) as [m|]; [|reflexivity].
  destruct n; [contradiction|].
  now rewrite andb_false_r.
Qed.

(** Tabs made one after the other, while the store never runs out of
    tabs. *)
Lemma run_with_tabs events : forall st,
  forallb keepsTabs events = true ->
  separateWindow (store st) = true ->
  (0 < tabs (store st))%nat ->
  separateWindow (store (run chrome events st)) = true /\
  (0 < tabs (store (run chrome events st)))%nat /\
  (existsb isCreateTab events = true ->
   truthyId (workerWindowId (store (run chrome events st))) = true) /\
  (truthyId (workerWindowId (store st)) = true ->
   truthyId (workerWindowId (store (run chrome events st))) = true) /\
  exists l,
    chromeCalls (run chrome events st) = (chromeCalls st ++ l)%list /\
    length (filter isWindowsCreate l) =
      (if truthyId (workerWindowId (store st)) then 0
       else if existsb isCreateTab events then 1 else 0)%nat /\
    filter isWindowsRemove l = [] /\
    (forall c, In c l -> windowOf c = None -> isWindowsCreate c = true).
Proof.
  induction events as [|ev events IH]; intros st Hevents Hmode Htabs.
  - cbn. split; [exact Hmode|]. split; [exact Htabs|].
    split; [discriminate|]. split; [auto|].
    exists []. rewrite app_nil_r. split; [reflexivity|].
    split; [now destruct (truthyId _)|]. split; [reflexivity|]. intros c [].
  - cbn [forallb] in Hevents. apply andb_prop in Hevents as [Hev Hrest].
    cbn [run fold_left]. fold (run chrome events (step chrome st ev)).
    destruct ev as [id separate|url| |n]; try discriminate Hev; cbn [step].
    + destruct (createTab_with_tabs url st Hmode Htabs)
        as (Hmode1 & Htabs1 & Htruthy1 & l1 & Hcalls1 & Hcount1 & Hrem1 & Hnone1).
      destruct (IH (snd (createTab chrome url st)) Hrest Hmode1)
        as (Hmode2 & Htabs2 & _ & Hkeep2 & l2 & Hcalls2 & Hcount2 & Hrem2 & Hnone2);
        [lia|].
      rewrite Htruthy1 in Hcount2.
      split; [exact Hmode2|]. split; [exact Htabs2|].
      split; [intros _; now apply Hkeep2|]. split; [intros _; now apply Hkeep2|].
      exists (l1 ++ l2)%list. rewrite Hcalls2, Hcalls1, <- app_assoc.
      split; [reflexivity|]. split.
      * rewrite filter_app, length_app, Hcount1, Hcount2. cbn [existsb isCreateTab orb].
        destruct (truthyId (workerWindowId (store st))); reflexivity.
      * split; [now rewrite filter_app, Hrem1, Hrem2|].
        intros c Hc Hw. apply in_app_or in Hc as [Hc|Hc];
          [now apply Hnone1|now apply Hnone2].
    + assert (Hn : n <> 0%nat) by (destruct n; [discriminate|lia]).
      rewrite (storeTabs_with_tabs n st Hn).
      destruct (IH {| store := {| separateWindow := separateWindow (store st);
                                  workerWindowId := workerWindowId (store st);
                                  tabs := n |};
                      chromeCalls := chromeCalls st;
                      sent := sent st |} Hrest Hmode)
        as (Hmode2 & Htabs2 & Hmade2 & Hkeep2 & l2 & Hcalls2 & Hcount2 & Hrem2
            & Hnone2); [cbn; lia|].
      cbn [store workerWindowId chromeCalls] in Hkeep2, Hcalls2, Hcount2.
      split; [exact Hmode2|]. split; [exact Htabs2|].
      split; [exact Hmade2|]. split; [exact Hkeep2|].
      exists l2. split; [exact Hcalls2|]. split; [exact Hcount2|].
      split; [exact Hrem2|exact Hnone2].
Qed.

(** One tab made in separate window mode while the store holds no tab and
    no worker window: the window opened is removed at once. *)
Lemma createTab_without_tabs url st :
  separateWindow (store st) = true ->
  tabs (store st) = 0%nat ->
  workerWindowId (store st) = None ->
  separateWindow (store (snd (createTab chrome url st))) = true /\
  tabs (store (snd (createTab chrome url st))) = 0%nat /\
  workerWindowId (store (snd (createTab chrome url st))) = None /\
  exists n tabs,
    n <> 0 /\
    windowsCreate chrome (chromeCalls st) url =
      Return {| win_id := Some n; win_tabs := Some tabs |} /\
    fst (createTab chrome url st) = Return (nth_error tabs 0) /\
    chromeCalls (snd (createTab chrome url st)) =
      (chromeCalls st ++ [WindowsCreate url false 1200 800; WindowsRemove n])%list.
Proof.
  intros Hmode Htabs Hid. unfold createTab, createTabInWorkerWindow.
  rewrite Hmode, Hid. cbn [truthyId].
  destruct (createWorkerWindow_run chrome url st) as (Hs & Ht & _ & Hout).
  destruct (windows_are_created (chromeCalls st) url) as (n & tabs & Hw & Hn).
  rewrite Hw in Hout. cbn [win_id win_tabs] in Hout.
  assert (Hlost : lostAtOnce st (Some n) = true).
  { unfold lostAtOnce. rewrite Hmode, Htabs. cbn.
    now destruct (Z.eqb_spec n 0). }
  rewrite Hlost in Hout. destruct Hout as (Hf & Hc & Hw').
  split; [now rewrite Hs|]. split; [now rewrite Ht|]. split; [exact Hw'|].
  exists n, tabs. repeat split; assumption.
Qed.

Lemma run_without_tabs urls : forall st,
  separateWindow (store st) = true ->
  tabs (store st) = 0%nat ->
  workerWindowId (store st) = None ->
  workerWindowId (store (run chrome (List.map CreateTab urls) st)) = None /\
  exists ids,
    length ids = length urls /\
    Forall (fun n => n <> 0) ids /\
    chromeCalls (run chrome (List.map CreateTab urls) st) =
      (chromeCalls st ++
       concat (List.map (fun opened =>
                           [WindowsCreate (fst opened) false 1200 800;
                            WindowsRemove (snd opened)])
                        (combine urls ids)))%list.
Proof.
  induction urls as [|url urls IH]; intros st Hmode Htabs Hid.
  - cbn. split; [exact Hid|]. exists []. rewrite app_nil_r.
    split; [reflexivity|]. split; [constructor|reflexivity].
  - cbn [List.map run fold_left step].
    fold (run chrome (List.map CreateTab urls) (snd (createTab chrome url st))).
    destruct (createTab_without_tabs url st Hmode Htabs Hid)
      as (Hmode1 & Htabs1 & Hid1 & n & tabs & Hn & _ & _ & Hcalls1).
    destruct (IH (snd (createTab chrome url st)) Hmode1 Htabs1 Hid1)
      as (Hid2 & ids & Hlen & Hids & Hcalls2).
    split; [exact Hid2|]. exists (n :: ids).
    split; [cbn; now rewrite Hlen|]. split; [now constructor|].
    rewrite Hcalls2, Hcalls1, <- app_assoc. reflexivity.
Qed.

End WorkerWindowReuse.

(** X25: the worker window is reused while the store holds a tab. In
    separate window mode, in a browser where the worker window stays open
    and tabs and windows can be created, any number of tabs made one after
    the other, with the store never running out of tabs, opens one window
    when the store holds no worker window and a tab is made, and none
    otherwise; no window is removed, every tab is made in a window named
    by the call, never in the window Chrome would choose, and once a tab
    was made the store holds a worker window. *)
Theorem worker_window_is_reused
  (chrome : WorkerWindow.Chrome) (events : list WorkerWindow.Event)
  (st : WorkerWindow.State) :
  (forall calls n, exists u,
     WorkerWindow.windowsGet chrome calls n = Return u) ->
  (forall calls windowId url, exists tab,
     WorkerWindow.tabsCreate chrome calls windowId url = Return tab) ->
  (forall calls url, exists n tabs,
     WorkerWindow.windowsCreate chrome calls url =
       Return {| WorkerWindow.win_id := Some n;
                 WorkerWindow.win_tabs := Some tabs |} /\ n <> 0) ->
  WorkerWindow.separateWindow (WorkerWindow.store st) = true ->
  (0 < WorkerWindow.tabs (WorkerWindow.store st))%nat ->
  forallb WorkerWindow.keepsTabs events = true ->
  let st' := WorkerWindow.run chrome events st in
  let new := WorkerWindow.callsSince st st' in
  length (filter WorkerWindow.isWindowsCreate new) =
    (if WorkerWindow.truthyId
          (WorkerWindow.workerWindowId (WorkerWindow.store st))
     then 0
     else if existsb WorkerWindow.isCreateTab events then 1 else 0)%nat /\
  filter WorkerWindow.isWindowsRemove new = [] /\
  (forall url active, ~ In (WorkerWindow.TabsCreate None url active) new) /\
  (existsb WorkerWindow.isCreateTab events = true ->
   WorkerWindow.truthyId
     (WorkerWindow.workerWindowId (WorkerWindow.store st')) = true).
Proof.
  intros Hget Htabs Hwindows Hmode Hheld Hevents. cbv zeta.
  destruct (run_with_tabs chrome Hget Htabs Hwindows events st Hevents Hmode Hheld)
    as (_ & _ & Hmade & _ & l & Hcalls & Hcount & Hrem & Hnone).
  rewrite (callsSince_app st _ l Hcalls).
  split; [exact Hcount|]. split; [exact Hrem|]. split; [|exact Hmade].
  intros url active Hin. specialize (Hnone _ Hin eq_refl). discriminate.
Qed.

Lemma worker_window_is_reused_witness :
  let st := WorkerWindow.storeTabs 1
              (WorkerWindow.setWindowMode 7 true WorkerWindow.initial) in
  let events := [WorkerWindow.CreateTab "about:blank";
                 WorkerWindow.TabsChanged 2;
                 WorkerWindow.CreateTab "https://example.com/"] in
  let st' := WorkerWindow.run WorkerWindow.steady events st in
  let new := WorkerWindow.callsSince st st' in
  length (filter WorkerWindow.isWindowsCreate new) =
    (if WorkerWindow.truthyId
          (WorkerWindow.workerWindowId (WorkerWindow.store st))
     then 0
     else if existsb WorkerWindow.isCreateTab events then 1 else 0)%nat /\
  filter WorkerWindow.isWindowsRemove new = [] /\
  (forall url active, ~ In (WorkerWindow.TabsCreate None url active) new) /\
  (existsb WorkerWindow.isCreateTab events = true ->
   WorkerWindow.truthyId
     (WorkerWindow.workerWindowId (WorkerWindow.store st')) = true).
Proof.
  refine (worker_window_is_reused WorkerWindow.steady
            [WorkerWindow.CreateTab "about:blank";
             WorkerWindow.TabsChanged 2;
             WorkerWindow.CreateTab "https://example.com/"]
            (WorkerWindow.storeTabs 1
               (WorkerWindow.setWindowMode 7 true WorkerWindow.initial))
            _ _ _ _ _ _).
  - intros calls n. exists tt. reflexivity.
  - intros calls windowId url. eexists. reflexivity.
  - intros calls url. eexists. eexists. split; [reflexivity|]. lia.
  - reflexivity.
  - cbn. lia.
  - reflexivity.
Defined.

(** X28: the worker window is lost while the store holds no tab. In
    separate window mode, with no tab and no worker window in the store,
    in a browser where windows can be created, every tab made opens a
    window of its own that the subscriber of the store removes as soon as
    its id is stored: the calls are one chrome.windows.create and one
    chrome.windows.remove of the window just created per tab, and the
    store never keeps a worker window. *)
Theorem worker_window_is_lost_without_tabs
  (chrome : WorkerWindow.Chrome) (urls : list string)
  (st : WorkerWindow.State) :
  (forall calls url, exists n tabs,
     WorkerWindow.windowsCreate chrome calls url =
       Return {| WorkerWindow.win_id := Some n;
                 WorkerWindow.win_tabs := Some tabs |} /\ n <> 0) ->
  WorkerWindow.separateWindow (WorkerWindow.store st) = true ->
  WorkerWindow.tabs (WorkerWindow.store st) = 0%nat ->
  WorkerWindow.workerWindowId (WorkerWindow.store st) = None ->
  let st' := WorkerWindow.run chrome
               (List.map WorkerWindow.CreateTab urls) st in
  WorkerWindow.workerWindowId (WorkerWindow.store st') = None /\
  exists ids,
    length ids = length urls /\
    Forall (fun n => n <> 0) ids /\
    WorkerWindow.callsSince st st' =
      concat (List.map (fun opened =>
                          [WorkerWindow.WindowsCreate (fst opened) false 1200 800;
                           WorkerWindow.WindowsRemove (snd opened)])
                       (combine urls ids)).
Proof.
  intros Hwindows Hmode Htabs Hid. cbv zeta.
  destruct (run_without_tabs chrome Hwindows urls st Hmode Htabs Hid)
    as (Hnone & ids & Hlen & Hids & Hcalls).
  split; [exact Hnone|]. exists ids.
  split; [exact Hlen|]. split; [exact Hids|].
  now apply callsSince_app.
Qed.

Lemma worker_window_is_lost_without_tabs_witness :
  let st := WorkerWindow.setWindowMode 7 true WorkerWindow.initial in
  let urls := ["about:blank"; "https://example.com/"] in
  let st' := WorkerWindow.run WorkerWindow.steady
               (List.map WorkerWindow.CreateTab urls) st in
  WorkerWindow.workerWindowId (WorkerWindow.store st') = None /\
  exists ids,
    length ids = length urls /\
    Forall (fun n => n <> 0) ids /\
    WorkerWindow.callsSince st st' =
      concat (List.map (fun opened =>
                          [WorkerWindow.WindowsCreate (fst opened) false 1200 800;
                           WorkerWindow.WindowsRemove (snd opened)])
                       (combine urls ids)).
Proof.
  refine (worker_window_is_lost_without_tabs WorkerWindow.steady
            ["about:blank"; "https://example.com/"]
            (WorkerWindow.setWindowMode 7 true WorkerWindow.initial) _ _ _ _).
  - intros calls url. eexists. eexists. split; [reflexivity|]. lia.
  - reflexivity.
  - reflexivity.
  - reflexivity.
Defined.

Section WorkerWindowSafety.

Import WorkerWindow.

Variable chrome : Chrome.

Lemma created_later calls l n :
  created chrome calls n -> created chrome (calls ++ l) n.
Proof.
  intros (before & url & rest & win & -> & Hw & Hid).
  exists before, url, (rest ++ l)%list, win.
  rewrite <- app_assoc. simpl. repeat split; assumption.
Qed.

Lemma last_call_split {A} (l before rest : list A) c c' :
  (l ++ [c] = before ++ c' :: rest)%list ->
  (before = l /\ c' = c /\ rest = []) \/
  exists rest', rest = (rest' ++ [c])%list /\ l = (before ++ c' :: rest')%list.
Proof.
  destruct rest as [|x rest0] using rev_ind; intros H.
  - apply (app_inj_tail l before c c') in H as (-> & ->). left. auto.
  - clear IHrest0. right. exists rest0.
    change (before ++ c' :: rest0 ++ [x])%list
      with (before ++ (c' :: rest0) ++ [x])%list in H.
    rewrite app_assoc in H.
    apply app_inj_tail in H as (-> & ->). auto.
Qed.

(** The invariant looks at the worker window of the store and at the
    calls only. *)
Lemma ownWindows_same st st' :
  workerWindowId (store st') = workerWindowId (store st) ->
  chromeCalls st' = chromeCalls st ->
  ownWindows chrome st -> ownWindows chrome st'.
Proof.
  intros Hid Hcalls (Hstore & Hdone). split.
  - intros n Hn. rewrite Hcalls. apply Hstore. now rewrite <- Hid.
  - intros before c rest n Heq Hw. rewrite Hcalls in Heq.
    now apply (Hdone before c rest n).
Qed.

Lemma ownWindows_call c st :
  ownWindows chrome st ->
  (forall n, windowOf c = Some n -> created chrome (chromeCalls st) n) ->
  ownWindows chrome (call c st).
Proof.
  intros (Hstore & Hcalls) Hc. split; cbn [call store chromeCalls].
  - intros n Hn. apply created_later. now apply Hstore.
  - intros before c' rest n Heq Hw.
    apply last_call_split in Heq as [(-> & -> & _)|(rest' & _ & Heq)].
    + now apply Hc.
    + now apply (Hcalls before c' rest' n).
Qed.

Lemma ownWindows_setWorkerWindowId id st :
  ownWindows chrome st ->
  (forall n, id = Some n -> created chrome (chromeCalls st) n) ->
  ownWindows chrome (setWorkerWindowId id st).
Proof.
  intros (Hstore & Hcalls) Hid. split; cbn [setWorkerWindowId store chromeCalls].
  - exact Hid.
  - exact Hcalls.
Qed.

Lemma ownWindows_forget st :
  ownWindows chrome st -> ownWindows chrome (setWorkerWindowId None st).
Proof.
  intros Hown. apply ownWindows_setWorkerWindowId; [exact Hown|discriminate].
Qed.

Lemma ownWindows_remove n st :
  ownWindows chrome st -> workerWindowId (store st) = Some n ->
  ownWindows chrome (call (WindowsRemove n) st).
Proof.
  intros Hown Hid. apply ownWindows_call; [exact Hown|].
  intros m [= <-]. now apply (proj1 Hown).
Qed.

(** The subscriber removes no window but the worker window. *)
Lemma ownWindows_notify st :
  ownWindows chrome st -> ownWindows chrome (notify st).
Proof.
  intros Hown.
  destruct (notify_cases st) as [(_ & ->)|(n & Hid & _ & ->)]; [exact Hown|].
  now apply ownWindows_forget, ownWindows_remove.
Qed.

Lemma ownWindows_storeWorkerWindowId id st :
  ownWindows chrome st ->
  (forall n, id = Some n -> created chrome (chromeCalls st) n) ->
  ownWindows chrome (storeWorkerWindowId id st).
Proof.
  intros Hown Hid. apply ownWindows_notify.
  now apply ownWindows_setWorkerWindowId.
Qed.

Lemma ownWindows_createWorkerWindow url st :
  ownWindows chrome st ->
  ownWindows chrome (snd (createWorkerWindow chrome url st)).
Proof.
  intros Hown. unfold createWorkerWindow.
  assert (Hcall : ownWindows chrome (call (WindowsCreate url false 1200 800) st))
    by (apply ownWindows_call; [exact Hown|discriminate]).
  destruct (windowsCreate chrome (chromeCalls st) url) as [win|e] eqn:Hw;
    [|exact Hcall].
  assert (Hset : ownWindows chrome
            (storeWorkerWindowId (win_id win)
               (call (WindowsCreate url false 1200 800) st))).
  { apply ownWindows_storeWorkerWindowId; [exact Hcall|].
    intros n Hn. exists (chromeCalls st), url, [], win.
    repeat split; assumption. }
  destruct (win_tabs win); exact Hset.
Qed.

Lemma ownWindows_reset st :
  ownWindows chrome st ->
  ownWindows chrome (storeWorkerWindowId None st).
Proof.
  intros Hown. apply ownWindows_storeWorkerWindowId; [exact Hown|discriminate].
Qed.

Lemma ownWindows_createTab url st :
  ownWindows chrome st -> ownWindows chrome (snd (createTab chrome url st)).
Proof.
  intros Hown. unfold createTab.
  destruct (separateWindow (store st)).
  - unfold createTabInWorkerWindow.
    destruct (truthyId (workerWindowId (store st)));
      [|now apply ownWindows_createWorkerWindow].
    destruct (workerWindowId (store st)) as [n|] eqn:Hid;
      [|now apply ownWindows_createWorkerWindow].
    assert (Hcreated : created chrome (chromeCalls st) n)
      by (now apply (proj1 Hown)).
    assert (Hget : ownWindows chrome (call (WindowsGet n) st)).
    { apply ownWindows_call; [exact Hown|]. now intros m [= <-]. }
    assert (Htab : ownWindows chrome (call (TabsCreate (Some n) url false)
                                        (call (WindowsGet n) st))).
    { apply ownWindows_call; [exact Hget|]. intros m [= <-].
      cbn [call chromeCalls]. now apply created_later. }
    destruct (windowsGet chrome (chromeCalls st) n).
    + destruct (tabsCreate chrome (chromeCalls (call (WindowsGet n) st))
                  (Some n) url).
      * exact Htab.
      * now apply ownWindows_createWorkerWindow, ownWindows_reset.
    + now apply ownWindows_createWorkerWindow, ownWindows_reset.
  - assert (Htab : ownWindows chrome (call (TabsCreate None url false) st))
      by (apply ownWindows_call; [exact Hown|discriminate]).
    destruct (tabsCreate chrome (chromeCalls st) None url); exact Htab.
Qed.

Lemma ownWindows_step st ev :
  ownWindows chrome st -> ownWindows chrome (step chrome st ev).
Proof.
  intros Hown. destruct ev as [id separate|url| |tabsSize]; cbn [step].
  - unfold setWindowMode.
    eapply ownWindows_same; [reflexivity|reflexivity|].
    apply ownWindows_notify.
    split; cbn [store workerWindowId chromeCalls];
      [discriminate|exact (proj2 Hown)].
  - now apply ownWindows_createTab.
  - unfold handleClose. apply ownWindows_notify.
    assert (Hremoved : ownWindows chrome
              match workerWindowId (store st) with
              | Some n =>
                  if truthyId (Some n) then call (WindowsRemove n) st else st
              | None => st
              end).
    { destruct (workerWindowId (store st)) as [n|] eqn:Hid; [|exact Hown].
      destruct (truthyId (Some n)); [|exact Hown].
      now apply ownWindows_remove. }
    split; cbn [store workerWindowId chromeCalls];
      [discriminate|exact (proj2 Hremoved)].
  - unfold storeTabs. apply ownWindows_notify.
    eapply ownWindows_same; [| |exact Hown]; reflexivity.
Qed.

Lemma ownWindows_run events : forall st,
  ownWindows chrome st -> ownWindows chrome (run chrome events st).
Proof.
  induction events as [|ev events IH]; intros st Hown; [exact Hown|].
  cbn [run fold_left]. apply IH. now apply ownWindows_step.
Qed.

End WorkerWindowSafety.

(** X26: the extension only acts on windows of its own. After any
    sequence of setWindowMode messages, tab creations, disconnects and
    changes of the tab count, starting with an empty store, every
    chrome.windows.get, every chrome.tabs.create that names a window and
    every chrome.windows.remove was made on a window that an earlier
    chrome.windows.create of the extension had returned, and so is the
    worker window the store holds. *)
Theorem extension_acts_on_its_own_windows
  (chrome : WorkerWindow.Chrome) (events : list WorkerWindow.Event) :
  let st := WorkerWindow.run chrome events WorkerWindow.initial in
  (forall before c rest n,
     WorkerWindow.chromeCalls st = (before ++ c :: rest)%list ->
     WorkerWindow.windowOf c = Some n ->
     WorkerWindow.created chrome before n) /\
  (forall n,
     WorkerWindow.workerWindowId (WorkerWindow.store st) = Some n ->
     WorkerWindow.created chrome (WorkerWindow.chromeCalls st) n).
Proof.
  cbv zeta.
  assert (Hown : WorkerWindow.ownWindows chrome
                   (WorkerWindow.run chrome events WorkerWindow.initial)).
  { apply ownWindows_run. split; cbn.
    - discriminate.
    - intros before c rest n H. destruct before; discriminate H. }
  destruct Hown as (Hstore & Hcalls). split; assumption.
Qed.

(** X27: a worker window is removed once. After a disconnect, and after
    the subscriber of the store has removed the worker window because no
    tab is left, the store holds no worker window; so a second disconnect,
    and the notification the subscriber causes by its own setState, change
    nothing and make no call to Chrome. *)
Theorem worker_window_is_removed_once
  (st : WorkerWindow.State) (tabsSize : nat) :
  WorkerWindow.onTabsChange tabsSize (WorkerWindow.onTabsChange tabsSize st) =
    WorkerWindow.onTabsChange tabsSize st /\
  WorkerWindow.handleClose (WorkerWindow.handleClose st) =
    WorkerWindow.handleClose st /\
  WorkerWindow.onTabsChange tabsSize (WorkerWindow.handleClose st) =
    WorkerWindow.handleClose st /\
  (length (filter WorkerWindow.isWindowsRemove
             (WorkerWindow.callsSince st
                (WorkerWindow.handleClose
                   (WorkerWindow.onTabsChange tabsSize st)))) <= 1)%nat.
Proof.
  split; [|split; [|split]].
  - unfold WorkerWindow.onTabsChange at 2 3.
    destruct (WorkerWindow.workerWindowId (WorkerWindow.store st)) as [n|] eqn:Hid.
    + destruct (WorkerWindow.separateWindow (WorkerWindow.store st)
                && (tabsSize =? 0)%nat && WorkerWindow.truthyId (Some n)) eqn:Hc.
      * reflexivity.
      * unfold WorkerWindow.onTabsChange. now rewrite Hid, Hc.
    + unfold WorkerWindow.onTabsChange. now rewrite Hid.
  - reflexivity.
  - reflexivity.
  - unfold WorkerWindow.onTabsChange, WorkerWindow.handleClose.
    destruct (WorkerWindow.workerWindowId (WorkerWindow.store st)) as [n|] eqn:Hid.
    + destruct (WorkerWindow.separateWindow (WorkerWindow.store st)
                && (tabsSize =? 0)%nat && WorkerWindow.truthyId (Some n)) eqn:Hc.
      * cbn [WorkerWindow.setWorkerWindowId WorkerWindow.store
             WorkerWindow.workerWindowId WorkerWindow.call
             WorkerWindow.chromeCalls WorkerWindow.sent].
        erewrite callsSince_app; [|cbn; reflexivity]. simpl. lia.
      * rewrite Hid.
        destruct (WorkerWindow.truthyId (Some n)).
        -- erewrite callsSince_app; [|cbn; reflexivity]. simpl. lia.
        -- erewrite callsSince_app; [|cbn; symmetry; apply app_nil_r].
           simpl. lia.
    + rewrite Hid. erewrite callsSince_app; [|cbn; symmetry; apply app_nil_r].
      simpl. lia.
Qed.
